(** * NFL-Updaters: play-by-play and alternate-odds updaters

    A shallow embedding of the three scripts of the repository

      - [index.js]            the play-by-play updater (372 columns),
      - [unnamed/part_000]    a later revision of the same updater,
      - [unnamed/part_001]    the alternate-lines odds updater,

    followed by the properties of the pipeline core: quote-aware
    tokenising, field coercion, window filtering, the identity gate,
    batched upserts and the dry-run mode.

    JavaScript strings are sequences of UTF-16 code units; they are
    modelled as [list N].  The built-ins the scripts call ([trim],
    [split], [replace], [parseFloat], [parseInt], [Number], [Date]) are
    modelled after ECMAScript in module [JS]. *)

From Stdlib Require Import ZArith NArith List String Ascii Bool Lia.
From stdpp Require Import gmap strings list.

(** ** JavaScript built-ins *)

Module JS.

Abbreviation jsstring := (list N).

(** A string literal of the source, as code units. *)
Definition str (s : string) : jsstring :=
  map N_of_ascii (list_ascii_of_string s).

Inductive value :=
| VUndefined
| VNull
| VBool (b : bool)
| VStr (s : jsstring).

(** The code units the scripts name. *)
Definition quote : N := 34.
Definition comma : N := 44.
Definition newline : N := 10.
Definition underscore : N := 95.

(** ToBoolean *)
Definition truthy (v : value) : bool :=
  match v with
  | VUndefined | VNull => false
  | VBool b => b
  | VStr s => negb (bool_decide (s = []))
  end.

(** [a || b] *)
Definition or_else (a b : value) : value := if truthy a then a else b.

(** The names of the properties that every plain object inherits from
    [Object.prototype]: reading one of them on an object that has no
    property of its own under that name gives the inherited function (or,
    for [__proto__], the prototype), not undefined. *)
Definition objectPrototypeNames : list jsstring :=
  [ str "constructor"; str "__defineGetter__"; str "__defineSetter__";
    str "hasOwnProperty"; str "__lookupGetter__"; str "__lookupSetter__";
    str "isPrototypeOf"; str "propertyIsEnumerable"; str "toString";
    str "valueOf"; str "__proto__"; str "toLocaleString" ].

(** String(v) *)
Definition String_of (v : value) : jsstring :=
  match v with
  | VUndefined => str "undefined"
  | VNull => str "null"
  | VBool true => str "true"
  | VBool false => str "false"
  | VStr s => s
  end.

(** WhiteSpace and LineTerminator code units: what [trim] strips and what
    the regular expression class [\s] matches. *)
Definition isWhiteSpace (c : N) : bool :=
  bool_decide (c ∈ [9; 10; 11; 12; 13; 32; 160; 5760; 8232; 8233; 8239;
                     8287; 12288; 65279]%N)
  || ((8192 <=? c) && (c <=? 8202))%N.

Fixpoint trimStart (s : jsstring) : jsstring :=
  match s with
  | [] => []
  | c :: r => if isWhiteSpace c then trimStart r else s
  end.

Definition trim (s : jsstring) : jsstring :=
  rev (trimStart (rev (trimStart s))).

(** [s.split(sep)] for a separator of one code unit. *)
Fixpoint split (sep : N) (s : jsstring) : list jsstring :=
  match s with
  | [] => [[]]
  | c :: r =>
      if (c =? sep)%N then [] :: split sep r
      else match split sep r with
           | h :: t => (c :: h) :: t
           | [] => [[c]]
           end
  end.

(** [s.replace(/c/g, '')] for a single code unit [c]. *)
Definition removeAll (c : N) (s : jsstring) : jsstring :=
  filter (fun x => x ≠ c) s.

Definition isDigit (c : N) : bool := ((48 <=? c) && (c <=? 57))%N.

Definition digitVal (c : N) : N := (c - 48)%N.

(** Decimal rendering of a natural number, as template literals and
    string concatenation do for non-negative integers. *)
Fixpoint decimalDigits (fuel : nat) (n : N) (acc : jsstring) : jsstring :=
  match fuel with
  | O => acc
  | S f =>
      let acc' := (48 + n mod 10)%N :: acc in
      if (n <? 10)%N then acc' else decimalDigits f (n / 10)%N acc'
  end.

Definition decimal (n : N) : jsstring :=
  decimalDigits (S (N.to_nat (N.log2 n))) n [].

(** *** Numbers

    A number the scripts obtain from text is kept as the decimal it was
    read from: [NumDec neg m e] stands for the double nearest to
    [(-1)^neg * m * 10^e], which is that number itself when it is an
    integer of magnitude up to 2^53, and [NumInf neg] for the two
    infinities.  NaN is the absence of a number ([None]).  Two equal
    decimals stand for the same double; nothing is said here of when two
    different decimals round to the same double. *)

Inductive jsnum :=
| NumDec (neg : bool) (mant : N) (exp10 : Z)
| NumInf (neg : bool).

Definition isNaN (n : option jsnum) : bool :=
  match n with None => true | Some _ => false end.

(** The value of the digit [c] in the given radix, if it is one. *)
Definition digitOfRadix (radix c : N) : option N :=
  let d :=
    if isDigit c then Some (c - 48)%N
    else if ((97 <=? c) && (c <=? 122))%N then Some (c - 87)%N
    else if ((65 <=? c) && (c <=? 90))%N then Some (c - 55)%N
    else None in
  match d with
  | Some v => if (v <? radix)%N then Some v else None
  | None => None
  end.

(** The longest prefix of digits of the radix, and what follows it. *)
Fixpoint spanDigits (radix : N) (s : jsstring) : list N * jsstring :=
  match s with
  | [] => ([], [])
  | c :: r =>
      match digitOfRadix radix c with
      | Some v => let '(ds, rest) := spanDigits radix r in (v :: ds, rest)
      | None => ([], s)
      end
  end.

Definition digitsValue (radix : N) (ds : list N) : N :=
  foldl (fun acc d => (acc * radix + d)%N) 0%N ds.

(** A sign, if the string starts with one. *)
Definition takeSign (s : jsstring) : bool * jsstring :=
  match s with
  | c :: r =>
      if (c =? 45)%N then (true, r)
      else if (c =? 43)%N then (false, r)
      else (false, s)
  | [] => (false, s)
  end.

(** Whether [p] is a prefix of [s], and the rest of [s] if so. *)
Fixpoint stripPrefix (p s : jsstring) : option jsstring :=
  match p, s with
  | [], _ => Some s
  | a :: p', b :: s' => if (a =? b)%N then stripPrefix p' s' else None
  | _ :: _, [] => None
  end.

(** ExponentPart: [e] or [E], an optional sign and at least one digit. *)
Definition scanExponent (s : jsstring) : Z * jsstring :=
  match s with
  | c :: r =>
      if (c =? 101)%N || (c =? 69)%N then
        let '(neg, r1) := takeSign r in
        match spanDigits 10 r1 with
        | ([], _) => (0%Z, s)
        | (ds, rest) =>
            let e := Z.of_N (digitsValue 10 ds) in
            ((if neg then - e else e)%Z, rest)
        end
      else (0%Z, s)
  | [] => (0%Z, s)
  end.

(** The longest prefix of [s] that is a StrUnsignedDecimalLiteral other
    than [Infinity]: mantissa, exponent and the rest of [s]. *)
Definition scanUnsignedDecimal (s : jsstring) : option (N * Z * jsstring) :=
  let '(ip, r1) := spanDigits 10 s in
  let noFraction := match ip with [] => None | _ => Some ([], r1) end in
  let scanned :=
    match r1 with
    | c :: r =>
        if (c =? 46)%N then
          let '(fp, r2) := spanDigits 10 r in
          match ip, fp with
          | [], [] => None
          | _, _ => Some (fp, r2)
          end
        else noFraction
    | [] => noFraction
    end in
  match scanned with
  | None => None
  | Some (fp, r2) =>
      let '(e, r3) := scanExponent r2 in
      Some (digitsValue 10 (ip ++ fp), (e - Z.of_nat (length fp))%Z, r3)
  end.

(** The longest prefix of [s] that is a StrDecimalLiteral. *)
Definition scanDecimal (s : jsstring) : option (jsnum * jsstring) :=
  let '(neg, r) := takeSign s in
  match stripPrefix (str "Infinity") r with
  | Some rest => Some (NumInf neg, rest)
  | None =>
      match scanUnsignedDecimal r with
      | Some (m, e, rest) => Some (NumDec neg m e, rest)
      | None => None
      end
  end.

(** parseFloat(v) *)
Definition parseFloat (v : value) : option jsnum :=
  fst <$> scanDecimal (trimStart (String_of v)).

(** parseInt(v), no radix given. *)
Definition parseInt (v : value) : option jsnum :=
  let '(neg, r) := takeSign (trimStart (String_of v)) in
  let '(radix, r1) :=
    match r with
    | c :: x :: r' =>
        if (c =? 48)%N && ((x =? 120)%N || (x =? 88)%N) then (16%N, r')
        else (10%N, r)
    | _ => (10%N, r)
    end in
  match spanDigits radix r1 with
  | ([], _) => None
  | (ds, _) => Some (NumDec neg (digitsValue radix ds) 0)
  end.

(** StringToNumber *)
Definition stringToNumber (s : jsstring) : option jsnum :=
  let t := trim s in
  let decimalLiteral :=
    match scanDecimal t with
    | Some (n, []) => Some n
    | _ => None
    end in
  match t with
  | [] => Some (NumDec false 0 0)
  | c :: x :: r =>
      let radix :=
        if negb (c =? 48)%N then None
        else if (x =? 120)%N || (x =? 88)%N then Some 16%N
        else if (x =? 111)%N || (x =? 79)%N then Some 8%N
        else if (x =? 98)%N || (x =? 66)%N then Some 2%N
        else None in
      match radix with
      | Some rd =>
          match spanDigits rd r with
          | ((_ :: _) as ds, []) => Some (NumDec false (digitsValue rd ds) 0)
          | _ => None
          end
      | None => decimalLiteral
      end
  | _ => decimalLiteral
  end.

(** Number(v) *)
Definition Number_of (v : value) : option jsnum :=
  match v with
  | VUndefined => None
  | VNull => Some (NumDec false 0 0)
  | VBool true => Some (NumDec false 1 0)
  | VBool false => Some (NumDec false 0 0)
  | VStr s => stringToNumber s
  end.

(** *** Dates

    A time value is a number of milliseconds since the epoch, in UTC; a
    [Date] object holds a time value or NaN (an invalid date, [None]).
    The definitions follow ECMAScript's date algorithms. *)

Abbreviation date := (option Z).

Definition msPerDay : Z := 86400000.
Definition msPerHour : Z := 3600000.
Definition msPerMinute : Z := 60000.
Definition msPerSecond : Z := 1000.

Definition Day (t : Z) : Z := (t / msPerDay)%Z.
Definition TimeWithinDay (t : Z) : Z := (t mod msPerDay)%Z.

Definition DayFromYear (y : Z) : Z :=
  (365 * (y - 1970) + (y - 1969) / 4 - (y - 1901) / 100 + (y - 1601) / 400)%Z.

Definition TimeFromYear (y : Z) : Z := (msPerDay * DayFromYear y)%Z.

(** The largest year whose first day is not after [t]: an estimate from
    the mean length of a year, corrected by at most one year. *)
Definition YearFromTime (t : Z) : Z :=
  let d := Day t in
  let y0 := (1970 + d * 400 / 146097)%Z in
  if (DayFromYear (y0 + 1) <=? d)%Z then (y0 + 1)%Z
  else if (DayFromYear y0 <=? d)%Z then y0
  else (y0 - 1)%Z.

Definition DaysInYear (y : Z) : Z :=
  if negb (y mod 4 =? 0)%Z then 365%Z
  else if negb (y mod 100 =? 0)%Z then 366%Z
  else if negb (y mod 400 =? 0)%Z then 365%Z
  else 366%Z.

Definition leapDays (y : Z) : Z := (DaysInYear y - 365)%Z.

Definition DayWithinYear (t : Z) : Z :=
  (Day t - DayFromYear (YearFromTime t))%Z.

(** The day of the year on which month [m] (0 to 11) starts. *)
Definition monthStart (leap m : Z) : Z :=
  match m with
  | 0 => 0
  | 1 => 31
  | 2 => 59 + leap
  | 3 => 90 + leap
  | 4 => 120 + leap
  | 5 => 151 + leap
  | 6 => 181 + leap
  | 7 => 212 + leap
  | 8 => 243 + leap
  | 9 => 273 + leap
  | 10 => 304 + leap
  | _ => 334 + leap
  end%Z.

Definition monthOfDay (leap d : Z) : Z :=
  (if d <? 31 then 0
   else if d <? 59 + leap then 1
   else if d <? 90 + leap then 2
   else if d <? 120 + leap then 3
   else if d <? 151 + leap then 4
   else if d <? 181 + leap then 5
   else if d <? 212 + leap then 6
   else if d <? 243 + leap then 7
   else if d <? 273 + leap then 8
   else if d <? 304 + leap then 9
   else if d <? 334 + leap then 10
   else 11)%Z.

Definition MonthFromTime (t : Z) : Z :=
  monthOfDay (leapDays (YearFromTime t)) (DayWithinYear t).

Definition DateFromTime (t : Z) : Z :=
  (DayWithinYear t
   - monthStart (leapDays (YearFromTime t)) (MonthFromTime t) + 1)%Z.

Definition MakeTime (h m s ms : Z) : Z :=
  (h * msPerHour + m * msPerMinute + s * msPerSecond + ms)%Z.

Definition MakeDay (year month dt : Z) : Z :=
  let ym := (year + month / 12)%Z in
  let mn := (month mod 12)%Z in
  (DayFromYear ym + monthStart (leapDays ym) mn + dt - 1)%Z.

Definition MakeDate (day time : Z) : Z := (day * msPerDay + time)%Z.

Definition maxTime : Z := 8640000000000000.

Definition TimeClip (t : Z) : date :=
  if (Z.abs t <=? maxTime)%Z then Some t else None.

(** Date.UTC(year, month, date, hours, minutes, seconds) *)
Definition Date_UTC (y m dt h mi sec : Z) : date :=
  let yr := if ((0 <=? y) && (y <=? 99))%Z then (1900 + y)%Z else y in
  TimeClip (MakeDate (MakeDay yr m dt) (MakeTime h mi sec 0)).

(** d.setUTCDate(dt) *)
Definition setUTCDate (d : date) (dt : Z) : date :=
  match d with
  | None => None
  | Some t =>
      TimeClip (MakeDate (MakeDay (YearFromTime t) (MonthFromTime t) dt)
                  (TimeWithinDay t))
  end.

(** The relational operators on dates compare time values; every
    comparison with an invalid date is false. *)
Definition date_ge (a b : date) : bool :=
  match a, b with
  | Some x, Some y => (y <=? x)%Z
  | _, _ => false
  end.

Definition date_le (a b : date) : bool := date_ge b a.

Definition date_lt (a b : date) : bool :=
  match a, b with
  | Some x, Some y => (x <? y)%Z
  | _, _ => false
  end.

(** Decimal rendering of an integer, as a template literal prints it. *)
Definition decimalZ (z : Z) : jsstring :=
  if (z <? 0)%Z then 45%N :: decimal (Z.to_N (- z)) else decimal (Z.to_N z).

(** Date.parse is defined by ECMAScript on the ISO date-time format and
    left to the engine elsewhere, so the scripts are modelled over any
    parser.  [None] is NaN. *)
Class DateParser := date_parse : jsstring → option Z.

(** new Date(v) for a value [v] *)
Definition Date_of `{DateParser} (v : value) : date :=
  match v with
  | VUndefined => None
  | VNull => Some 0%Z
  | VBool true => Some 1%Z
  | VBool false => Some 0%Z
  | VStr s => match date_parse s with Some t => TimeClip t | None => None end
  end.

Definition numberOfDigits (ds : jsstring) : option Z :=
  if forallb isDigit ds
  then Some (Z.of_N (digitsValue 10 (map digitVal ds)))
  else None.

(** The time of day of [THH:mm:ssZ] and [THH:mm:ss.sssZ]. *)
Definition isoTime (s : jsstring) : option Z :=
  match s with
  | 84%N :: h1 :: h2 :: 58%N :: m1 :: m2 :: 58%N :: s1 :: s2 :: tl =>
      match numberOfDigits [h1; h2], numberOfDigits [m1; m2],
            numberOfDigits [s1; s2] with
      | Some h, Some m, Some sec =>
          if ((h <=? 23) && (m <=? 59) && (sec <=? 59))%Z then
            match tl with
            | [90%N] => Some (MakeTime h m sec 0)
            | [46%N; f1; f2; f3; 90%N] =>
                match numberOfDigits [f1; f2; f3] with
                | Some ms => Some (MakeTime h m sec ms)
                | None => None
                end
            | _ => None
            end
          else None
      | _, _, _ => None
      end
  | _ => None
  end.

(** A parser for the sample runs: the ISO forms [YYYY-MM-DD],
    [YYYY-MM-DDTHH:mm:ssZ] and [YYYY-MM-DDTHH:mm:ss.sssZ], read as UTC,
    and NaN on anything else.  It is the engine's [Date.parse] on these
    three forms and on the texts no engine reads as a date; the engine
    reads further forms (time zone offsets, dates in words), on which
    this parser is not to be used. *)
Definition isoDateParse (s : jsstring) : option Z :=
  match s with
  | y1 :: y2 :: y3 :: y4 :: 45%N :: m1 :: m2 :: 45%N :: d1 :: d2 :: tl =>
      match numberOfDigits [y1; y2; y3; y4], numberOfDigits [m1; m2],
            numberOfDigits [d1; d2] with
      | Some y, Some m, Some d =>
          if ((1 <=? m) && (m <=? 12) && (1 <=? d) && (d <=? 31))%Z then
            match tl with
            | [] => Some (MakeDate (MakeDay y (m - 1) d) 0)
            | _ =>
                match isoTime tl with
                | Some time => Some (MakeDate (MakeDay y (m - 1) d) time)
                | None => None
                end
            end
          else None
      | _, _, _ => None
      end
  | _ => None
  end.

#[export] Instance iso_parser : DateParser := isoDateParse.

End JS.

(** ** The play-by-play updater ([index.js]) *)

Module Pbp.
Import JS.

(** *** Helper functions for data type conversion

    The result of a conversion is a column value of the target table. *)

Inductive tval :=
| TNull
| TNum (n : jsnum)
| TText (s : jsstring)
| TBool (b : bool).

(** [value === null || value === undefined || value === '' || value === 'NA'] *)
Definition isSentinel (value : value) : bool :=
  match value with
  | VNull | VUndefined => true
  | VStr s => bool_decide (s = []) || bool_decide (s = str "NA")
  | VBool _ => false
  end.

Definition safeNumeric (value : value) : tval :=
  if isSentinel value then TNull
  else
    let num := parseFloat value in
    match num with
    | None => TNull
    | Some n => TNum n
    end.

Definition safeInteger (value : value) : tval :=
  if isSentinel value then TNull
  else
    let num := parseInt value in
    match num with
    | None => TNull
    | Some n => TNum n
    end.

Definition safeText (value : value) : tval :=
  if isSentinel value then TNull
  else TText (trim (String_of value)).

Definition safeBoolean (value : value) : tval :=
  if isSentinel value then TNull
  else
    TBool (match value with
           | VStr s => bool_decide (s = str "1") || bool_decide (s = str "true")
           | VBool b => b
           | _ => false
           end).

Definition safeDouble (value : value) : tval :=
  if isSentinel value then TNull
  else
    let num := parseFloat value in
    match num with
    | None => TNull
    | Some n => TNum n
    end.

(** *** Run-time environment: the command line and the clock *)

Record env := {
  testMode : bool;      (* process.argv.includes('--test') *)
  now : Z;              (* new Date(), as a time value *)
  localTZA : Z          (* offset of local time from UTC at [now] *)
}.

Section Season.
Context `{DateParser}.
Variable e : env.

Definition currentYear : Z := YearFromTime (now e + localTZA e).

Definition nflSeasonStart : date :=
  Date_of (VStr (decimalZ currentYear ++ str "-09-05")).

Definition nflSeasonEnd : date :=
  Date_of (VStr (decimalZ (currentYear + 1) ++ str "-02-15")).

Definition inNflSeason : bool :=
  date_ge (Some (now e)) nflSeasonStart && date_le (Some (now e)) nflSeasonEnd.

(** Date filtering: only games from the last 7 days. *)
Definition cutoffDate : date :=
  TimeClip (now e - 7 * 24 * 60 * 60 * 1000).

End Season.

(** *** Fetching and parsing the feed *)

(** A row of the feed: an object from header names to cells. *)
Abbreviation row := (gmap (list N) value).

(** [r.k]; an absent property reads as undefined. *)
Definition get (r : row) (k : string) : value :=
  default VUndefined (r !! str k).

(** State of the character loop that splits one line. *)
Record scanner := {
  values : list jsstring;
  current : jsstring;
  inQuotes : bool
}.

Definition scanChar (st : scanner) (char : N) : scanner :=
  if (char =? quote)%N then
    {| values := values st; current := current st;
       inQuotes := negb (inQuotes st) |}
  else if (char =? comma)%N && negb (inQuotes st) then
    {| values := values st ++ [trim (current st)]; current := [];
       inQuotes := inQuotes st |}
  else
    {| values := values st; current := current st ++ [char];
       inQuotes := inQuotes st |}.

Definition scanStart : scanner :=
  {| values := []; current := []; inQuotes := false |}.

(** The tokens of one data line. *)
Definition tokenize (line : jsstring) : list jsstring :=
  let st := foldl scanChar scanStart line in
  values st ++ [trim (current st)].

(** The header names: the first line split at every comma, each name
    trimmed and stripped of its double quotes. *)
Definition parseHeaders (line : jsstring) : list jsstring :=
  map (fun h => removeAll quote (trim h)) (split comma line).

(** [headers.forEach((header, index) => row[header] = values[index] || null)];
    the two lists have the same length when this runs.  A header met
    twice keeps its last cell.  The row is a map from names to cells: it
    is the plain object of the source at every name that is not in
    [objectPrototypeNames].  At those names the object differs (a header
    named [__proto__] is not stored as a cell, and an inherited name reads
    as a function); the scripts read a row at [game_date] and at the
    columns of the table only, none of which is such a name. *)
Definition makeRow (headers vals : list jsstring) : row :=
  foldl (fun (r : row) '(header, v) => <[header := or_else (VStr v) VNull]> r)
        ∅ (zip headers vals).

(** State of the loop over the data lines. *)
Record parsing := {
  pbpData : list row;
  totalProcessed : nat;
  validPlays : nat;
  filteredOldPlays : nat
}.

Section Parse.
Context `{DateParser}.
Variable cutoffDate : date.

Definition countLine (st : parsing) : parsing :=
  {| pbpData := pbpData st; totalProcessed := S (totalProcessed st);
     validPlays := validPlays st; filteredOldPlays := filteredOldPlays st |}.

Definition pushPlay (st : parsing) (r : row) : parsing :=
  {| pbpData := pbpData st ++ [r]; totalProcessed := totalProcessed st;
     validPlays := S (validPlays st);
     filteredOldPlays := filteredOldPlays st |}.

Definition countOldPlay (st : parsing) : parsing :=
  {| pbpData := pbpData st; totalProcessed := totalProcessed st;
     validPlays := validPlays st;
     filteredOldPlays := S (filteredOldPlays st) |}.

(** One turn of the loop over the data lines. *)
Definition parseLine (headers : list jsstring) (st : parsing)
    (line : jsstring) : parsing :=
  let st := countLine st in
  let vals := tokenize line in
  if bool_decide (length vals = length headers) then
    let r := makeRow headers vals in
    (* Date filtering: only include games from the last 7 days *)
    let gameDate := get r "game_date" in
    if truthy gameDate then
      let gameDateObj := Date_of gameDate in
      if date_ge gameDateObj cutoffDate then pushPlay st r
      else countOldPlay st
    else
      (* Include plays without game_date *)
      pushPlay st r
  else st.

Definition parseStart : parsing :=
  {| pbpData := []; totalProcessed := 0; validPlays := 0;
     filteredOldPlays := 0 |}.

(** The non-blank lines of the text. *)
Definition nonBlankLines (csvText : jsstring) : list jsstring :=
  filter (fun line => trim line ≠ []) (split newline csvText).

(** Parsing of one downloaded text; [None] when the script moves on to
    the next source because the text has fewer than two lines. *)
Definition parseCsv (csvText : jsstring) : option parsing :=
  match nonBlankLines csvText with
  | header :: (_ :: _) as rest =>
      Some (foldl (parseLine (parseHeaders header)) parseStart rest)
  | _ => None
  end.

(** What fetching one source gives. *)
Inductive fetched :=
| FetchThrows
| Fetched (ok : bool) (csvText : jsstring).

Variable fetch : jsstring → fetched.

(** The loop over the sources; [None] is the final [throw]. *)
Fixpoint trySources (sources : list jsstring) : option (list row) :=
  match sources with
  | [] => None
  | url :: rest =>
      match fetch url with
      | FetchThrows => trySources rest
      | Fetched ok csvText =>
          if negb ok then trySources rest
          else if bool_decide (csvText = [])
                  || (N.of_nat (length csvText) <? 10000)%N
          then trySources rest
          else match parseCsv csvText with
               | Some st => Some (pbpData st)
               | None => trySources rest
               end
      end
  end.

Definition sources : list jsstring :=
  [ str "https://github.com/nflverse/nflverse-data/releases/download/pbp/play_by_play_2025.csv";
    str "https://raw.githubusercontent.com/nflverse/nflverse-pbp/master/data/play_by_play_2025.csv";
    str "https://github.com/nflverse/nfldata/raw/master/data/play_by_play_2025.csv";
    str "https://raw.githubusercontent.com/nflverse/nfldata/master/data/play_by_play_2025.csv" ].

Definition fetchAndParsePbp : option (list row) := trySources sources.

End Parse.

(** *** Transformation of the rows *)

Inductive coercion := SafeNumeric | SafeInteger | SafeText | SafeBoolean | SafeDouble.

Definition coerce (c : coercion) : value → tval :=
  match c with
  | SafeNumeric => safeNumeric
  | SafeInteger => safeInteger
  | SafeText => safeText
  | SafeBoolean => safeBoolean
  | SafeDouble => safeDouble
  end.

Definition num (name : string) := (name, SafeNumeric).
Definition txt (name : string) := (name, SafeText).
Definition dbl (name : string) := (name, SafeDouble).

(** The object literal pushed to [transformedPlays]: one entry per
    property, in source order, with the conversion applied to the cell of
    the same name. *)
Definition columns : list (string * coercion) :=
  [ num "play_id"; txt "game_id"; num "old_game_id"; txt "home_team";
   txt "away_team"; txt "season_type"; num "week"; txt "posteam";
   txt "posteam_type"; txt "defteam"; txt "side_of_field"; txt "yardline_100";
   txt "game_date"; txt "quarter_seconds_remaining";
   txt "half_seconds_remaining"; num "game_seconds_remaining";
   txt "game_half"; txt "quarter_end"; txt "drive"; txt "sp"; num "qtr";
   txt "down"; txt "goal_to_go"; txt "time"; txt "yrdln"; txt "ydstogo";
   txt "ydsnet"; txt "desc"; txt "play_type"; txt "yards_gained";
   txt "shotgun"; txt "no_huddle"; txt "qb_dropback"; txt "qb_kneel";
   txt "qb_spike"; txt "qb_scramble"; txt "pass_length"; txt "pass_location";
   txt "air_yards"; txt "yards_after_catch"; txt "run_location";
   txt "run_gap"; txt "field_goal_result"; txt "kick_distance";
   txt "extra_point_result"; txt "two_point_conv_result";
   txt "home_timeouts_remaining"; txt "away_timeouts_remaining";
   txt "timeout"; txt "timeout_team"; txt "td_team"; txt "td_player_name";
   txt "td_player_id"; txt "posteam_timeouts_remaining";
   txt "defteam_timeouts_remaining"; txt "total_home_score";
   txt "total_away_score"; txt "posteam_score"; txt "defteam_score";
   txt "score_differential"; txt "posteam_score_post";
   txt "defteam_score_post"; txt "score_differential_post";
   txt "no_score_prob"; txt "opp_fg_prob"; txt "opp_safety_prob";
   txt "opp_td_prob"; txt "fg_prob"; txt "safety_prob"; txt "td_prob";
   txt "extra_point_prob"; txt "two_point_conversion_prob"; txt "ep";
   txt "epa"; txt "total_home_epa"; txt "total_away_epa";
   txt "total_home_rush_epa"; txt "total_away_rush_epa";
   txt "total_home_pass_epa"; txt "total_away_pass_epa"; txt "air_epa";
   txt "yac_epa"; txt "comp_air_epa"; txt "comp_yac_epa";
   txt "total_home_comp_air_epa"; txt "total_away_comp_air_epa";
   txt "total_home_comp_yac_epa"; txt "total_away_comp_yac_epa";
   txt "total_home_raw_air_epa"; txt "total_away_raw_air_epa";
   txt "total_home_raw_yac_epa"; txt "total_away_raw_yac_epa"; dbl "wp";
   dbl "def_wp"; dbl "home_wp"; dbl "away_wp"; dbl "vegas_wp";
   dbl "vegas_home_wp"; txt "wpa"; txt "vegas_wpa"; txt "vegas_home_wpa";
   txt "home_wp_post"; txt "away_wp_post"; txt "total_home_rush_wpa";
   txt "total_away_rush_wpa"; txt "total_home_pass_wpa";
   txt "total_away_pass_wpa"; txt "air_wpa"; txt "yac_wpa";
   txt "comp_air_wpa"; txt "comp_yac_wpa"; txt "total_home_comp_air_wpa";
   txt "total_away_comp_air_wpa"; txt "total_home_comp_yac_wpa";
   txt "total_away_comp_yac_wpa"; txt "total_home_raw_air_wpa";
   txt "total_away_raw_air_wpa"; txt "total_home_raw_yac_wpa";
   txt "total_away_raw_yac_wpa"; txt "punt_blocked"; txt "first_down_rush";
   txt "first_down_pass"; txt "first_down_penalty";
   txt "third_down_converted"; txt "third_down_failed";
   txt "fourth_down_converted"; txt "fourth_down_failed";
   txt "incomplete_pass"; txt "touchback"; txt "interception";
   txt "punt_inside_twenty"; txt "punt_in_endzone"; txt "punt_out_of_bounds";
   txt "punt_downed"; txt "punt_fair_catch"; txt "kickoff_inside_twenty";
   txt "kickoff_in_endzone"; txt "kickoff_out_of_bounds";
   txt "kickoff_downed"; txt "kickoff_fair_catch"; txt "fumble_forced";
   txt "fumble_not_forced"; txt "fumble_out_of_bounds"; txt "solo_tackle";
   txt "safety"; txt "penalty"; txt "tackled_for_loss"; txt "fumble_lost";
   txt "own_kickoff_recovery"; txt "own_kickoff_recovery_td"; txt "qb_hit";
   txt "rush_attempt"; txt "pass_attempt"; txt "sack"; txt "touchdown";
   txt "pass_touchdown"; txt "rush_touchdown"; txt "return_touchdown";
   txt "extra_point_attempt"; txt "two_point_attempt";
   txt "field_goal_attempt"; txt "kickoff_attempt"; txt "punt_attempt";
   txt "fumble"; txt "complete_pass"; txt "assist_tackle";
   txt "lateral_reception"; txt "lateral_rush"; txt "lateral_return";
   txt "lateral_recovery"; txt "passer_player_id"; txt "passer_player_name";
   txt "passing_yards"; txt "receiver_player_id"; txt "receiver_player_name";
   txt "receiving_yards"; txt "rusher_player_id"; txt "rusher_player_name";
   txt "rushing_yards"; txt "lateral_receiver_player_id";
   txt "lateral_receiver_player_name"; txt "lateral_receiving_yards";
   txt "lateral_rusher_player_id"; txt "lateral_rusher_player_name";
   txt "lateral_rushing_yards"; txt "lateral_sack_player_id";
   txt "lateral_sack_player_name"; txt "interception_player_id";
   txt "interception_player_name"; txt "lateral_interception_player_id";
   txt "lateral_interception_player_name"; txt "punt_returner_player_id";
   txt "punt_returner_player_name"; txt "lateral_punt_returner_player_id";
   txt "lateral_punt_returner_player_name";
   txt "kickoff_returner_player_name"; txt "kickoff_returner_player_id";
   txt "lateral_kickoff_returner_player_id";
   txt "lateral_kickoff_returner_player_name"; txt "punter_player_id";
   txt "punter_player_name"; txt "kicker_player_name"; txt "kicker_player_id";
   txt "own_kickoff_recovery_player_id";
   txt "own_kickoff_recovery_player_name"; txt "blocked_player_id";
   txt "blocked_player_name"; txt "tackle_for_loss_1_player_id";
   txt "tackle_for_loss_1_player_name"; txt "tackle_for_loss_2_player_id";
   txt "tackle_for_loss_2_player_name"; txt "qb_hit_1_player_id";
   txt "qb_hit_1_player_name"; txt "qb_hit_2_player_id";
   txt "qb_hit_2_player_name"; txt "forced_fumble_player_1_team";
   txt "forced_fumble_player_1_player_id";
   txt "forced_fumble_player_1_player_name";
   txt "forced_fumble_player_2_team"; txt "forced_fumble_player_2_player_id";
   txt "forced_fumble_player_2_player_name"; txt "solo_tackle_1_team";
   txt "solo_tackle_2_team"; txt "solo_tackle_1_player_id";
   txt "solo_tackle_2_player_id"; txt "solo_tackle_1_player_name";
   txt "solo_tackle_2_player_name"; txt "assist_tackle_1_player_id";
   txt "assist_tackle_1_player_name"; txt "assist_tackle_1_team";
   txt "assist_tackle_2_player_id"; txt "assist_tackle_2_player_name";
   txt "assist_tackle_2_team"; txt "assist_tackle_3_player_id";
   txt "assist_tackle_3_player_name"; txt "assist_tackle_3_team";
   txt "assist_tackle_4_player_id"; txt "assist_tackle_4_player_name";
   txt "assist_tackle_4_team"; txt "tackle_with_assist";
   txt "tackle_with_assist_1_player_id";
   txt "tackle_with_assist_1_player_name"; txt "tackle_with_assist_1_team";
   txt "tackle_with_assist_2_player_id";
   txt "tackle_with_assist_2_player_name"; txt "tackle_with_assist_2_team";
   txt "pass_defense_1_player_id"; txt "pass_defense_1_player_name";
   txt "pass_defense_2_player_id"; txt "pass_defense_2_player_name";
   txt "fumbled_1_team"; txt "fumbled_1_player_id";
   txt "fumbled_1_player_name"; txt "fumbled_2_player_id";
   txt "fumbled_2_player_name"; txt "fumbled_2_team";
   txt "fumble_recovery_1_team"; txt "fumble_recovery_1_yards";
   txt "fumble_recovery_1_player_id"; txt "fumble_recovery_1_player_name";
   txt "fumble_recovery_2_team"; txt "fumble_recovery_2_yards";
   txt "fumble_recovery_2_player_id"; txt "fumble_recovery_2_player_name";
   txt "sack_player_id"; txt "sack_player_name"; txt "half_sack_1_player_id";
   txt "half_sack_1_player_name"; txt "half_sack_2_player_id";
   txt "half_sack_2_player_name"; txt "return_team"; txt "return_yards";
   txt "penalty_team"; txt "penalty_player_id"; txt "penalty_player_name";
   txt "penalty_yards"; txt "replay_or_challenge";
   txt "replay_or_challenge_result"; txt "penalty_type";
   txt "defensive_two_point_attempt"; txt "defensive_two_point_conv";
   txt "defensive_extra_point_attempt"; txt "defensive_extra_point_conv";
   txt "safety_player_name"; txt "safety_player_id"; num "season"; txt "cp";
   txt "cpoe"; num "series"; txt "series_success"; txt "series_result";
   num "order_sequence"; txt "start_time"; txt "time_of_day"; txt "stadium";
   txt "weather"; txt "nfl_api_id"; txt "play_clock"; txt "play_deleted";
   txt "play_type_nfl"; txt "special_teams_play"; txt "st_play_type";
   txt "end_clock_time"; txt "end_yard_line"; num "fixed_drive";
   txt "fixed_drive_result"; txt "drive_real_start_time";
   txt "drive_play_count"; txt "drive_time_of_possession";
   txt "drive_first_downs"; txt "drive_inside20";
   txt "drive_ended_with_score"; txt "drive_quarter_start";
   txt "drive_quarter_end"; txt "drive_yards_penalized";
   txt "drive_start_transition"; txt "drive_end_transition";
   txt "drive_game_clock_start"; txt "drive_game_clock_end";
   txt "drive_start_yard_line"; txt "drive_end_yard_line";
   txt "drive_play_id_started"; txt "drive_play_id_ended"; txt "away_score";
   num "home_score"; txt "location"; num "result"; num "total";
   txt "spread_line"; txt "total_line"; txt "div_game"; txt "roof";
   txt "surface"; txt "temp"; txt "wind"; txt "home_coach"; txt "away_coach";
   txt "stadium_id"; txt "game_stadium"; txt "aborted_play"; txt "success";
   txt "passer"; txt "passer_jersey_number"; txt "rusher";
   txt "rusher_jersey_number"; txt "receiver"; txt "receiver_jersey_number";
   txt "pass"; txt "rush"; txt "first_down"; txt "special"; txt "play";
   txt "passer_id"; txt "rusher_id"; txt "receiver_id"; txt "name";
   txt "jersey_number"; txt "id"; txt "fantasy_player_name";
   txt "fantasy_player_id"; txt "fantasy"; txt "fantasy_id";
   txt "out_of_bounds"; txt "home_opening_kickoff"; txt "qb_epa";
   txt "xyac_epa"; txt "xyac_mean_yardage"; txt "xyac_median_yardage";
   txt "xyac_success"; txt "xyac_fd"; txt "xpass"; txt "pass_oe" ].

(** A record of the target table: properties in order, with their values. *)
Abbreviation typedRecord := (list (list N * tval)).

Definition transformPlay (play : row) : typedRecord :=
  map (fun '(name, c) => (str name, coerce c (get play name))) columns.

(** [rec.name] for a record of the target table. *)
Definition field (rec : typedRecord) (name : string) : option tval :=
  snd <$> List.find (fun p => bool_decide (fst p = str name)) rec.

Record skippedPlay := {
  gameId : value;
  playId : value;
  reasons : list jsstring
}.

Record transformation := {
  transformedPlays : list typedRecord;
  skippedPlays : list skippedPlay
}.

(** Validation *)
Definition skipReasons (play : row) : list jsstring :=
  (if negb (truthy (get play "game_id")) then [str "Missing game_id"] else [])
  ++ (if negb (truthy (get play "play_id")) then [str "Missing play_id"] else []).

(** One turn of the loop over [pbpData]. *)
Definition transformStep (st : transformation) (play : row) : transformation :=
  let skipReasons := skipReasons play in
  if negb (bool_decide (skipReasons = [])) then
    {| transformedPlays := transformedPlays st;
       skippedPlays := skippedPlays st ++
         [ {| gameId := or_else (get play "game_id") (VStr (str "Unknown"));
              playId := or_else (get play "play_id") (VStr (str "Unknown"));
              reasons := skipReasons |} ] |}
  else
    {| transformedPlays := transformedPlays st ++ [transformPlay play];
       skippedPlays := skippedPlays st |}.

Definition transform (pbpData : list row) : transformation :=
  foldl transformStep {| transformedPlays := []; skippedPlays := [] |} pbpData.

(** *** Database update

    The persistence collaborator is any state machine answering an upsert
    of a batch with success, with an error, or by throwing.  The world
    records, next to the collaborator's state, what the script did to it
    and the pauses it took. *)

Inductive response :=
| UpsertOk
| UpsertError (message : jsstring)
| UpsertThrows (message : jsstring).

Inductive event :=
| EvUpsert (table : jsstring) (batch : list typedRecord)
    (onConflict : jsstring) (answer : response)
| EvSleep (ms : N).

Record updateResults := {
  attempted : nat;
  successful : nat;
  failed : nat;
  errors : list jsstring
}.

(** What [runUpdater] returns, one constructor per [return]. *)
Inductive result :=
| Skipped                       (* Outside NFL season - sync skipped *)
| FetchFailed                   (* Unable to fetch NFLfastR data *)
| NoData                        (* No play-by-play data found *)
| NoValid (plays_analyzed plays_skipped : nat)
| Summary (success : bool) (test_mode : bool)
    (valid_plays skipped_plays : nat) (update_results : updateResults).

Definition batchSize : nat := 100.

(** [l.slice(i, j)] *)
Definition slice {A} (i j : nat) (l : list A) : list A :=
  take (j - i) (drop i l).

Section Persist.
Variable db : Type.
Variable upsert : db → jsstring → list typedRecord → jsstring → db * response.

Record world := {
  store : db;
  trace : list event
}.

(** [await supabase.from(table).upsert(batch, { onConflict })] *)
Definition doUpsert (w : world) (table : jsstring) (batch : list typedRecord)
    (onConflict : jsstring) : world * response :=
  let '(s, r) := upsert (store w) table batch onConflict in
  ({| store := s; trace := trace w ++ [EvUpsert table batch onConflict r] |}, r).

(** [await new Promise(resolve => setTimeout(resolve, ms))] *)
Definition doSleep (w : world) (ms : N) : world :=
  {| store := store w; trace := trace w ++ [EvSleep ms] |}.

Record batching := {
  processed : nat;              (* totalProcessed *)
  errorList : list jsstring;    (* updateResults.errors *)
  after : world
}.

(** How the loop over the batches ends: it runs to its end, or an upsert
    throws and control passes to the [catch]. *)
Inductive loopEnd :=
| LoopDone (st : batching)
| LoopThrew (st : batching) (message : jsstring).

(** The loop [for (let i = 0; i < transformedPlays.length; i += batchSize)],
    from index [i] on; [None] when the fuel does not suffice. *)
Fixpoint upsertLoop (fuel : nat) (plays : list typedRecord) (i : nat)
    (st : batching) : option loopEnd :=
  if bool_decide (i < length plays) then
    match fuel with
    | O => None
    | S fuel =>
        let batch := slice i (i + batchSize) plays in
        let batchNum := i / batchSize + 1 in
        let '(w, answer) :=
          doUpsert (after st) (str "nflfastr_pbp") batch (str "play_id,game_id") in
        let continue (st : batching) :=
          (* Small delay between batches *)
          let st :=
            if bool_decide (i + batchSize < length plays) then
              {| processed := processed st; errorList := errorList st;
                 after := doSleep (after st) 200 |}
            else st in
          upsertLoop fuel plays (i + batchSize) st in
        match answer with
        | UpsertOk =>
            continue {| processed := processed st + length batch;
                        errorList := errorList st; after := w |}
        | UpsertError message =>
            continue {| processed := processed st;
                        errorList := errorList st ++
                          [str "Batch " ++ decimal (N.of_nat batchNum)
                           ++ str ": " ++ message];
                        after := w |}
        | UpsertThrows message =>
            Some (LoopThrew {| processed := processed st;
                               errorList := errorList st; after := w |}
                            message)
        end
    end
  else Some (LoopDone st).

Section Run.
Context `{DateParser}.
Variable e : env.
Variable fetch : jsstring → fetched.

(** The database update of [runUpdater]. *)
Definition update (w : world) (plays : list typedRecord)
    : option (world * updateResults) :=
  let updateResults :=
    {| attempted := length plays; successful := 0; failed := 0; errors := [] |} in
  if testMode e then
    Some (w, {| attempted := attempted updateResults;
                successful := length plays;
                failed := failed updateResults;
                errors := errors updateResults |})
  else
    match upsertLoop (length plays) plays 0
            {| processed := 0; errorList := errors updateResults; after := w |} with
    | Some (LoopDone st) =>
        Some (after st,
              {| attempted := attempted updateResults;
                 successful := processed st;
                 failed := length plays - processed st;
                 errors := errorList st |})
    | Some (LoopThrew st message) =>
        Some (after st,
              {| attempted := attempted updateResults;
                 successful := successful updateResults;
                 failed := length plays;
                 errors := errorList st ++ [str "Update exception: " ++ message] |})
    | None => None
    end.

(** Main execution function; [None] only if the batch loop ran out of
    fuel, which it never does. *)
Definition runUpdater (w : world) : option (world * result) :=
  if negb (inNflSeason e) && negb (testMode e) then Some (w, Skipped)
  else
    match fetchAndParsePbp (cutoffDate e) fetch with
    | None => Some (w, FetchFailed)
    | Some pbpData =>
        if bool_decide (length pbpData = 0) then Some (w, NoData)
        else
          let t := transform pbpData in
          if bool_decide (length (transformedPlays t) = 0) then
            Some (w, NoValid (length pbpData) (length (skippedPlays t)))
          else
            match update w (transformedPlays t) with
            | Some (w', updateResults) =>
                Some (w',
                      Summary ((0 <? successful updateResults) || testMode e)
                        (testMode e)
                        (length (transformedPlays t))
                        (length (skippedPlays t))
                        updateResults)
            | None => None
            end
    end.

End Run.
End Persist.

Arguments store {db}.
Arguments trace {db}.
Arguments doUpsert {db}.
Arguments doSleep {db}.
Arguments processed {db}.
Arguments errorList {db}.
Arguments after {db}.
Arguments LoopDone {db}.
Arguments LoopThrew {db}.
Arguments upsertLoop {db}.
Arguments update {db}.
Arguments runUpdater {db} upsert {_}.

End Pbp.

(** ** The later revision of the play-by-play updater ([unnamed/part_000])

    Fetching, line splitting and row building are the same text as in
    [index.js] and are shared with [Pbp]; the conversions, the season
    window, the date filter, the validation and the summary differ. *)

Module Pbp2.
Import JS.
Export Pbp (tval, TNull, TNum, TText, TBool, isSentinel, safeText, safeDouble,
  env, testMode, now, localTZA, cutoffDate, row, get, tokenize, parseHeaders,
  makeRow, fetched, FetchThrows, Fetched, sources, typedRecord, field,
  response, UpsertOk, UpsertError, UpsertThrows, event, EvUpsert, EvSleep,
  batchSize, slice, world, store, trace, doUpsert, doSleep).

Definition safeNumeric (value : value) : tval :=
  if isSentinel value then TNull
  else
    let num := Number_of value in
    match num with
    | None => TNull
    | Some n => TNum n
    end.

Section Season.
Context `{DateParser}.
Variable e : env.

Definition nflSeasonStart : date := Date_of (VStr (str "2025-09-04")).
Definition nflSeasonEnd : date := Date_of (VStr (str "2026-02-15")).

Definition inNflSeason : bool :=
  date_ge (Some (now e)) nflSeasonStart && date_le (Some (now e)) nflSeasonEnd.

End Season.

Record parsing := {
  pbpData : list row;
  totalProcessed : nat;
  validPlays : nat
}.

Section Parse.
Context `{DateParser}.
Variable cutoffDate : date.

(** One turn of the loop over the data lines. *)
Definition parseLine (headers : list jsstring) (st : parsing)
    (line : jsstring) : parsing :=
  let st := {| pbpData := pbpData st; totalProcessed := S (totalProcessed st);
               validPlays := validPlays st |} in
  let vals := tokenize line in
  if bool_decide (length vals = length headers) then
    let r := makeRow headers vals in
    (* Date filtering logic *)
    let gameDate := get r "game_date" in
    if truthy gameDate then
      let gameDateObj := Date_of gameDate in
      if date_ge gameDateObj cutoffDate then
        {| pbpData := pbpData st ++ [r]; totalProcessed := totalProcessed st;
           validPlays := S (validPlays st) |}
      else st
    else st
  else st.

Definition parseCsv (csvText : jsstring) : option parsing :=
  match Pbp.nonBlankLines csvText with
  | header :: (_ :: _) as rest =>
      Some (foldl (parseLine (parseHeaders header))
              {| pbpData := []; totalProcessed := 0; validPlays := 0 |} rest)
  | _ => None
  end.

Variable fetch : jsstring → fetched.

Fixpoint trySources (sources : list jsstring) : option (list row) :=
  match sources with
  | [] => None
  | url :: rest =>
      match fetch url with
      | FetchThrows => trySources rest
      | Fetched ok csvText =>
          if negb ok then trySources rest
          else if bool_decide (csvText = [])
                  || (N.of_nat (length csvText) <? 10000)%N
          then trySources rest
          else match parseCsv csvText with
               | Some st => Some (pbpData st)
               | None => trySources rest
               end
      end
  end.

Definition fetchAndParsePbp : option (list row) := trySources sources.

End Parse.

Inductive coercion := SafeNumeric | SafeText | SafeDouble.

Definition coerce (c : coercion) : value → tval :=
  match c with
  | SafeNumeric => safeNumeric
  | SafeText => safeText
  | SafeDouble => safeDouble
  end.

Definition num (name : string) := (name, SafeNumeric).
Definition txt (name : string) := (name, SafeText).
Definition dbl (name : string) := (name, SafeDouble).

(** The object literal pushed to [transformedPlays], in source order. *)
Definition columns : list (string * coercion) :=
  [ num "play_id"; txt "game_id"; num "old_game_id"; txt "home_team";
   txt "away_team"; txt "season_type"; num "week"; txt "posteam";
   txt "posteam_type"; txt "defteam"; txt "side_of_field"; num "yardline_100";
   txt "game_date"; num "quarter_seconds_remaining";
   num "half_seconds_remaining"; num "game_seconds_remaining";
   txt "game_half"; num "quarter_end"; num "drive"; num "sp"; num "qtr";
   num "down"; num "goal_to_go"; txt "time"; txt "yrdln"; num "ydstogo";
   num "ydsnet"; txt "desc"; txt "play_type"; num "yards_gained";
   num "shotgun"; num "no_huddle"; num "qb_dropback"; num "qb_kneel";
   num "qb_spike"; num "qb_scramble"; txt "pass_length"; txt "pass_location";
   num "air_yards"; num "yards_after_catch"; txt "run_location";
   txt "run_gap"; txt "field_goal_result"; num "kick_distance";
   txt "extra_point_result"; txt "two_point_conv_result";
   num "home_timeouts_remaining"; num "away_timeouts_remaining";
   num "timeout"; txt "timeout_team"; txt "td_team"; txt "td_player_name";
   txt "td_player_id"; num "posteam_timeouts_remaining";
   num "defteam_timeouts_remaining"; num "total_home_score";
   num "total_away_score"; num "posteam_score"; num "defteam_score";
   num "score_differential"; num "posteam_score_post";
   num "defteam_score_post"; num "score_differential_post";
   dbl "no_score_prob"; dbl "opp_fg_prob"; dbl "opp_safety_prob";
   dbl "opp_td_prob"; dbl "fg_prob"; dbl "safety_prob"; dbl "td_prob";
   dbl "extra_point_prob"; dbl "two_point_conversion_prob"; dbl "ep";
   dbl "epa"; dbl "total_home_epa"; dbl "total_away_epa";
   dbl "total_home_rush_epa"; dbl "total_away_rush_epa";
   dbl "total_home_pass_epa"; dbl "total_away_pass_epa"; dbl "air_epa";
   dbl "yac_epa"; dbl "comp_air_epa"; dbl "comp_yac_epa";
   dbl "total_home_comp_air_epa"; dbl "total_away_comp_air_epa";
   dbl "total_home_comp_yac_epa"; dbl "total_away_comp_yac_epa";
   dbl "total_home_raw_air_epa"; dbl "total_away_raw_air_epa";
   dbl "total_home_raw_yac_epa"; dbl "total_away_raw_yac_epa"; dbl "wp";
   dbl "def_wp"; dbl "home_wp"; dbl "away_wp"; dbl "vegas_wp";
   dbl "vegas_home_wp"; dbl "wpa"; dbl "vegas_wpa"; dbl "vegas_home_wpa";
   dbl "home_wp_post"; dbl "away_wp_post"; dbl "total_home_rush_wpa";
   dbl "total_away_rush_wpa"; dbl "total_home_pass_wpa";
   dbl "total_away_pass_wpa"; dbl "air_wpa"; dbl "yac_wpa";
   dbl "comp_air_wpa"; dbl "comp_yac_wpa"; dbl "total_home_comp_air_wpa";
   dbl "total_away_comp_air_wpa"; dbl "total_home_comp_yac_wpa";
   dbl "total_away_comp_yac_wpa"; dbl "total_home_raw_air_wpa";
   dbl "total_away_raw_air_wpa"; dbl "total_home_raw_yac_wpa";
   dbl "total_away_raw_yac_wpa"; txt "punt_blocked"; txt "first_down_rush";
   txt "first_down_pass"; txt "first_down_penalty";
   txt "third_down_converted"; txt "third_down_failed";
   txt "fourth_down_converted"; txt "fourth_down_failed";
   txt "incomplete_pass"; txt "touchback"; txt "interception";
   txt "punt_inside_twenty"; txt "punt_in_endzone"; txt "punt_out_of_bounds";
   txt "punt_downed"; txt "punt_fair_catch"; txt "kickoff_inside_twenty";
   txt "kickoff_in_endzone"; txt "kickoff_out_of_bounds";
   txt "kickoff_downed"; txt "kickoff_fair_catch"; txt "fumble_forced";
   txt "fumble_not_forced"; txt "fumble_out_of_bounds"; txt "solo_tackle";
   txt "safety"; txt "penalty"; txt "tackled_for_loss"; txt "fumble_lost";
   txt "own_kickoff_recovery"; txt "own_kickoff_recovery_td"; txt "qb_hit";
   txt "rush_attempt"; txt "pass_attempt"; txt "sack"; txt "touchdown";
   txt "pass_touchdown"; txt "rush_touchdown"; txt "return_touchdown";
   txt "extra_point_attempt"; txt "two_point_attempt";
   txt "field_goal_attempt"; txt "kickoff_attempt"; txt "punt_attempt";
   txt "fumble"; txt "complete_pass"; txt "assist_tackle";
   txt "lateral_reception"; txt "lateral_rush"; txt "lateral_return";
   txt "lateral_recovery"; txt "passer_player_id"; txt "passer_player_name";
   num "passing_yards"; txt "receiver_player_id"; txt "receiver_player_name";
   num "receiving_yards"; txt "rusher_player_id"; txt "rusher_player_name";
   num "rushing_yards"; txt "lateral_receiver_player_id";
   txt "lateral_receiver_player_name"; num "lateral_receiving_yards";
   txt "lateral_rusher_player_id"; txt "lateral_rusher_player_name";
   num "lateral_rushing_yards"; txt "lateral_sack_player_id";
   txt "lateral_sack_player_name"; txt "interception_player_id";
   txt "interception_player_name"; txt "lateral_interception_player_id";
   txt "lateral_interception_player_name"; txt "punt_returner_player_id";
   txt "punt_returner_player_name"; txt "lateral_punt_returner_player_id";
   txt "lateral_punt_returner_player_name";
   txt "kickoff_returner_player_name"; txt "kickoff_returner_player_id";
   txt "lateral_kickoff_returner_player_id";
   txt "lateral_kickoff_returner_player_name"; txt "punter_player_id";
   txt "punter_player_name"; txt "kicker_player_name"; txt "kicker_player_id";
   txt "own_kickoff_recovery_player_id";
   txt "own_kickoff_recovery_player_name"; txt "blocked_player_id";
   txt "blocked_player_name"; txt "tackle_for_loss_1_player_id";
   txt "tackle_for_loss_1_player_name"; txt "tackle_for_loss_2_player_id";
   txt "tackle_for_loss_2_player_name"; txt "qb_hit_1_player_id";
   txt "qb_hit_1_player_name"; txt "qb_hit_2_player_id";
   txt "qb_hit_2_player_name"; txt "forced_fumble_player_1_team";
   txt "forced_fumble_player_1_player_id";
   txt "forced_fumble_player_1_player_name";
   txt "forced_fumble_player_2_team"; txt "forced_fumble_player_2_player_id";
   txt "forced_fumble_player_2_player_name"; txt "solo_tackle_1_team";
   txt "solo_tackle_2_team"; txt "solo_tackle_1_player_id";
   txt "solo_tackle_2_player_id"; txt "solo_tackle_1_player_name";
   txt "solo_tackle_2_player_name"; txt "assist_tackle_1_player_id";
   txt "assist_tackle_1_player_name"; txt "assist_tackle_1_team";
   txt "assist_tackle_2_player_id"; txt "assist_tackle_2_player_name";
   txt "assist_tackle_2_team"; txt "assist_tackle_3_player_id";
   txt "assist_tackle_3_player_name"; txt "assist_tackle_3_team";
   txt "assist_tackle_4_player_id"; txt "assist_tackle_4_player_name";
   txt "assist_tackle_4_team"; txt "tackle_with_assist";
   txt "tackle_with_assist_1_player_id";
   txt "tackle_with_assist_1_player_name"; txt "tackle_with_assist_1_team";
   txt "tackle_with_assist_2_player_id";
   txt "tackle_with_assist_2_player_name"; txt "tackle_with_assist_2_team";
   txt "pass_defense_1_player_id"; txt "pass_defense_1_player_name";
   txt "pass_defense_2_player_id"; txt "pass_defense_2_player_name";
   txt "fumbled_1_team"; txt "fumbled_1_player_id";
   txt "fumbled_1_player_name"; txt "fumbled_2_player_id";
   txt "fumbled_2_player_name"; txt "fumbled_2_team";
   txt "fumble_recovery_1_team"; num "fumble_recovery_1_yards";
   txt "fumble_recovery_1_player_id"; txt "fumble_recovery_1_player_name";
   txt "fumble_recovery_2_team"; num "fumble_recovery_2_yards";
   txt "fumble_recovery_2_player_id"; txt "fumble_recovery_2_player_name";
   txt "sack_player_id"; txt "sack_player_name"; txt "half_sack_1_player_id";
   txt "half_sack_1_player_name"; txt "half_sack_2_player_id";
   txt "half_sack_2_player_name"; txt "return_team"; num "return_yards";
   txt "penalty_team"; txt "penalty_player_id"; txt "penalty_player_name";
   num "penalty_yards"; txt "replay_or_challenge";
   txt "replay_or_challenge_result"; txt "penalty_type";
   txt "defensive_two_point_attempt"; txt "defensive_two_point_conv";
   txt "defensive_extra_point_attempt"; txt "defensive_extra_point_conv";
   txt "safety_player_name"; txt "safety_player_id"; num "season"; dbl "cp";
   dbl "cpoe"; num "series"; txt "series_success"; txt "series_result";
   num "order_sequence"; txt "start_time"; txt "time_of_day"; txt "stadium";
   txt "weather"; txt "nfl_api_id"; num "play_clock"; txt "play_deleted";
   txt "play_type_nfl"; txt "special_teams_play"; txt "st_play_type";
   txt "end_clock_time"; txt "end_yard_line"; num "fixed_drive";
   txt "fixed_drive_result"; txt "drive_real_start_time";
   num "drive_play_count"; txt "drive_time_of_possession";
   num "drive_first_downs"; txt "drive_inside20";
   txt "drive_ended_with_score"; num "drive_quarter_start";
   num "drive_quarter_end"; num "drive_yards_penalized";
   txt "drive_start_transition"; txt "drive_end_transition";
   txt "drive_game_clock_start"; txt "drive_game_clock_end";
   txt "drive_start_yard_line"; txt "drive_end_yard_line";
   txt "drive_play_id_started"; txt "drive_play_id_ended"; num "away_score";
   num "home_score"; txt "location"; num "result"; num "total";
   dbl "spread_line"; dbl "total_line"; txt "div_game"; txt "roof";
   txt "surface"; num "temp"; num "wind"; txt "home_coach"; txt "away_coach";
   txt "stadium_id"; txt "game_stadium"; txt "aborted_play"; txt "success";
   txt "passer"; txt "passer_jersey_number"; txt "rusher";
   txt "rusher_jersey_number"; txt "receiver"; txt "receiver_jersey_number";
   txt "pass"; txt "rush"; txt "first_down"; txt "special"; txt "play";
   txt "passer_id"; txt "rusher_id"; txt "receiver_id"; txt "name";
   txt "jersey_number"; txt "id"; txt "fantasy_player_name";
   txt "fantasy_player_id"; txt "fantasy"; txt "fantasy_id";
   txt "out_of_bounds"; txt "home_opening_kickoff"; dbl "qb_epa";
   dbl "xyac_epa"; dbl "xyac_mean_yardage"; dbl "xyac_median_yardage";
   dbl "xyac_success"; dbl "xyac_fd"; dbl "xpass"; dbl "pass_oe" ].

Definition transformPlay (play : row) : typedRecord :=
  map (fun '(name, c) => (str name, coerce c (get play name))) columns.

(** One turn of the loop over [pbpData]. *)
Definition transformStep (transformedPlays : list typedRecord) (play : row)
    : list typedRecord :=
  if negb (truthy (get play "game_id")) || negb (truthy (get play "play_id"))
  then transformedPlays
  else transformedPlays ++ [transformPlay play].

Definition transform (pbpData : list row) : list typedRecord :=
  foldl transformStep [] pbpData.

(** What [runUpdater] returns, one constructor per [return]. *)
Inductive result :=
| Skipped                       (* Outside NFL season - sync skipped *)
| NoRecent                      (* No recent plays found *)
| TestRun (processed : nat)
| Finished (success : bool) (processed failed : nat)
| Failure (error : jsstring).   (* the catch around the whole run *)

Section Persist.
Variable db : Type.
Variable upsert : db → jsstring → list typedRecord → jsstring → db * response.

Record batching := {
  processed : nat;              (* totalProcessed *)
  errorList : list jsstring;    (* errors *)
  after : world db
}.

Inductive loopEnd :=
| LoopDone (st : batching)
| LoopThrew (st : batching) (message : jsstring).

(** The loop over the batches, from index [i] on; [None] when the fuel
    does not suffice. *)
Fixpoint upsertLoop (fuel : nat) (plays : list typedRecord) (i : nat)
    (st : batching) : option loopEnd :=
  if bool_decide (i < length plays) then
    match fuel with
    | O => None
    | S fuel =>
        let batch := slice i (i + batchSize) plays in
        let '(w, answer) :=
          doUpsert upsert (after st) (str "nflfastr_pbp") batch
            (str "play_id,game_id") in
        let continue (st : batching) :=
          (* Rate limiting protection *)
          let st :=
            if bool_decide (i + batchSize < length plays) then
              {| processed := processed st; errorList := errorList st;
                 after := doSleep (after st) 200 |}
            else st in
          upsertLoop fuel plays (i + batchSize) st in
        match answer with
        | UpsertError message =>
            continue {| processed := processed st;
                        errorList := errorList st ++ [message]; after := w |}
        | UpsertOk =>
            continue {| processed := processed st + length batch;
                        errorList := errorList st; after := w |}
        | UpsertThrows message =>
            Some (LoopThrew {| processed := processed st;
                               errorList := errorList st; after := w |}
                            message)
        end
    end
  else Some (LoopDone st).

Section Run.
Context `{DateParser}.
Variable e : env.
Variable fetch : jsstring → fetched.

(** Main execution function; [None] only if the batch loop ran out of
    fuel, which it never does. *)
Definition runUpdater (w : world db) : option (world db * result) :=
  if negb (inNflSeason e) && negb (testMode e) then Some (w, Skipped)
  else
    match fetchAndParsePbp (cutoffDate e) fetch with
    | None => Some (w, Failure (str "Failed to fetch data from all 4 sources"))
    | Some pbpData =>
        if bool_decide (length pbpData = 0) then Some (w, NoRecent)
        else
          let transformedPlays := transform pbpData in
          if testMode e then Some (w, TestRun (length transformedPlays))
          else
            match upsertLoop (length transformedPlays) transformedPlays 0
                    {| processed := 0; errorList := []; after := w |} with
            | Some (LoopDone st) =>
                Some (after st,
                      Finished (bool_decide (length (errorList st) = 0))
                        (processed st)
                        (length transformedPlays - processed st))
            | Some (LoopThrew st message) => Some (after st, Failure message)
            | None => None
            end
    end.

End Run.
End Persist.

Arguments processed {db}.
Arguments errorList {db}.
Arguments after {db}.
Arguments LoopDone {db}.
Arguments LoopThrew {db}.
Arguments upsertLoop {db}.
Arguments runUpdater {db} upsert {_}.

End Pbp2.

(** ** The alternate-lines odds updater ([unnamed/part_001]) *)

Module Odds.
Import JS.

Definition SPORTS_KEY : jsstring := str "americanfootball_nfl".

Definition ALTERNATE_MARKETS : list jsstring :=
  [ str "player_pass_yds_alternate";
    str "player_pass_tds_alternate";
    str "player_pass_attempts_alternate";
    str "player_pass_completions_alternate";
    str "player_pass_interceptions_alternate";
    str "player_rush_yds_alternate";
    str "player_rush_attempts_alternate";
    str "player_rush_tds_alternate";
    str "player_rush_reception_yds_alternate";
    str "player_reception_yds_alternate";
    str "player_receptions_alternate";
    str "player_field_goals_alternate" ].

(** *** Helper functions *)

Record window := {
  start : date;
  end_ : date
}.

Definition getUpcomingGamesWindow (now : Z) : window :=
  (* Start from today at 00:00 UTC *)
  let start :=
    Date_UTC (YearFromTime now) (MonthFromTime now) (DateFromTime now) 0 0 0 in
  (* End 4 days from today *)
  let end_ := start in
  let end_ :=
    setUTCDate end_
      (match end_ with Some t => DateFromTime t | None => 0 end + 4) in
  {| start := start; end_ := end_ |}.

(** What [m[marketKey] || marketKey] evaluates to: a text, or, for a key
    that names a property the object [m] inherits from [Object.prototype],
    the inherited function or object. *)
Inductive propType :=
| PropText (s : jsstring)
| PropInherited (name : jsstring).

#[global] Instance propType_eq_dec : EqDecision propType.
Proof. solve_decision. Defined.

Definition mapMarketToPropType (marketKey : jsstring) : propType :=
  let m :=
    [ ("player_pass_yds_alternate", "passing_yards");
      ("player_pass_tds_alternate", "passing_touchdowns");
      ("player_pass_attempts_alternate", "passing_attempts");
      ("player_pass_completions_alternate", "passing_completions");
      ("player_pass_interceptions_alternate", "pass_interceptions");
      ("player_rush_yds_alternate", "rushing_yards");
      ("player_rush_attempts_alternate", "rushing_attempts");
      ("player_rush_tds_alternate", "rushing_touchdowns");
      ("player_rush_reception_yds_alternate", "rush_reception_yards");
      ("player_reception_yds_alternate", "receiving_yards");
      ("player_receptions_alternate", "receptions");
      ("player_field_goals_alternate", "field_goals") ] in
  match List.find (fun p => bool_decide (str (fst p) = marketKey)) m with
  | Some p => PropText (str (snd p))
  | None =>
      if bool_decide (marketKey ∈ objectPrototypeNames)
      then PropInherited marketKey
      else PropText marketKey
  end.

(** [s.toLowerCase()], on the letters A to Z; the other code units are
    left as they are.  The engine lower-cases further letters, none of
    them to a letter of [over] or [under], so the two searches of
    [determineBetType] find what they find in the engine's text. *)
Definition toLowerCase (s : jsstring) : jsstring :=
  map (fun c => if ((65 <=? c) && (c <=? 90))%N then (c + 32)%N else c) s.

(** [s.includes(needle)] *)
Fixpoint includes (needle s : jsstring) : bool :=
  match stripPrefix needle s with
  | Some _ => true
  | None => match s with [] => false | _ :: r => includes needle r end
  end.

(** [None]: the call of [toLowerCase] throws a TypeError, as [name] is
    truthy and not a string. *)
Definition determineBetType (name : value) : option jsstring :=
  match or_else name (VStr []) with
  | VStr s =>
      let n := toLowerCase s in
      Some (if includes (str "over") n then str "over"
            else if includes (str "under") n then str "under"
            else str "unknown")
  | _ => None
  end.

(** [s.replace(/\s+/g, '_')]: every maximal run of white space becomes one
    underscore.  [inRun] tells that the previous code unit was white
    space. *)
Fixpoint replaceWhitespaceRuns (inRun : bool) (s : jsstring) : jsstring :=
  match s with
  | [] => []
  | c :: r =>
      if isWhiteSpace c then
        if inRun then replaceWhitespaceRuns true r
        else underscore :: replaceWhitespaceRuns true r
      else c :: replaceWhitespaceRuns false r
  end.

(** The class [a-zA-Z0-9_\-]. *)
Definition isIdChar (c : N) : bool :=
  ((97 <=? c) && (c <=? 122) || (65 <=? c) && (c <=? 90)
   || (48 <=? c) && (c <=? 57) || (c =? underscore) || (c =? 45))%N.

Definition sanitize (s : value) : jsstring :=
  List.filter isIdChar (replaceWhitespaceRuns false (String_of s)).

Definition getSeasonYear (kickoff : date) : option Z :=
  match kickoff with
  | None => None
  | Some t =>
      let m := MonthFromTime t in
      let y := YearFromTime t in
      Some (if (8 <=? m)%Z then y else (y - 1)%Z)
  end.

Definition isInSeason (d : Z) : bool :=
  let yr := YearFromTime d in
  let start := Date_UTC yr 8 1 0 0 0 in            (* Sep 1 *)
  let end_ := Date_UTC (yr + 1) 1 28 23 59 59 in   (* Feb 28 next yr *)
  let t := Some d in
  date_ge t start && date_le t end_.

(** The window filter on an event. *)
Definition inWindow `{DateParser} (w : window) (commence_time : value) : bool :=
  let t := Date_of commence_time in
  date_ge t (start w) && date_lt t (end_ w).

(** *** The feed

    Numbers of the feed (points and prices) are kept abstract, with
    their rendering in a template literal and the finiteness test. *)

Section Feed.
Variable num : Type.
Variable numToString : num → jsstring.
Variable numIsFinite : num → bool.

Definition toNumber (x : option num) : option num :=
  match x with
  | None => None
  | Some n => if numIsFinite n then Some n else None
  end.

Record oddsEvent := {
  id : jsstring;
  home_team : value;
  away_team : value;
  commence_time : value
}.

Record outcome := {
  name : value;
  description : value;
  point : option num;     (* [None]: undefined or null *)
  price : option num
}.

Record market := {
  market_key_of : jsstring;                    (* mkt.key *)
  outcomes : option (list (option outcome))    (* [None]: undefined or null *)
}.

Record bookmaker := {
  key : jsstring;
  title : value;
  last_update : value;
  markets : option (list market)
}.

(** A row of [nfl_odds_alternate_lines]; [updated_at], the time at which
    the row is built, is left out. *)
Record oddsRecord := {
  rec_id : jsstring;
  event_id : jsstring;
  sport_key : jsstring;
  rec_commence_time : value;
  rec_home_team : value;
  rec_away_team : value;
  week_number : option Z;
  season_year : option Z;
  bookmaker_key : jsstring;
  bookmaker_title : value;
  bookmaker_last_update : value;
  market_key : jsstring;
  market_name : jsstring;
  player_name : value;
  prop_type : propType;
  outcome_name : value;
  outcome_price : option num;
  decimal_price : option num;
  line_value : num;
  bet_type : jsstring
}.

(** The parts of a record id, joined by underscores. *)
Definition idParts (eventId : jsstring) (book : bookmaker)
    (market_key : jsstring) (out : outcome) (pt : num) : list jsstring :=
  [ eventId; key book; market_key; sanitize (description out);
    numToString pt; sanitize (name out) ].

Fixpoint joinWith (sep : N) (parts : list jsstring) : jsstring :=
  match parts with
  | [] => []
  | [p] => p
  | p :: rest => p ++ sep :: joinWith sep rest
  end.

(** What the body of the loop over the outcomes does with one outcome. *)
Inductive bodyEnd :=
| Skips                       (* continue *)
| Pushes (r : oddsRecord)     (* records.push(r) *)
| Throws.                     (* the TypeError of [determineBetType] *)

(** The body of the loop over the outcomes of a market. *)
Definition outcomeBody (ev : oddsEvent) (seasonYear : option Z)
    (book : bookmaker) (mkt : market) (out : option outcome) : bodyEnd :=
  match out with
  | None => Skips
  | Some out =>
      if negb (truthy (description out)) then Skips
      else
        match point out with
        | None => Skips
        | Some pt =>
            let market_key := market_key_of mkt in
            let decimal := toNumber (price out) in
            match determineBetType (name out) with
            | None => Throws
            | Some bet_type =>
                Pushes
                  {| rec_id := joinWith underscore
                                 (idParts (id ev) book market_key out pt);
                     event_id := id ev;
                     sport_key := SPORTS_KEY;
                     rec_commence_time := commence_time ev;
                     rec_home_team := home_team ev;
                     rec_away_team := away_team ev;
                     week_number := None;
                     season_year := seasonYear;
                     bookmaker_key := key book;
                     bookmaker_title := title book;
                     bookmaker_last_update := last_update book;
                     market_key := market_key;
                     market_name := market_key;
                     player_name := description out;
                     prop_type := mapMarketToPropType market_key;
                     outcome_name := name out;
                     outcome_price := None;
                     decimal_price := decimal;
                     line_value := pt;
                     bet_type := bet_type |}
            end
        end
  end.

(** The record the body pushes for an outcome, if it pushes one. *)
Definition recordOf (ev : oddsEvent) (seasonYear : option Z) (book : bookmaker)
    (mkt : market) (out : option outcome) : option oddsRecord :=
  match outcomeBody ev seasonYear book mkt out with
  | Pushes r => Some r
  | _ => None
  end.

(** The three nested loops that fill [records]; [None] when the body
    throws, which ends the run. *)
Fixpoint outcomesLoop (ev : oddsEvent) (seasonYear : option Z)
    (book : bookmaker) (mkt : market) (outs : list (option outcome))
    (records : list oddsRecord) : option (list oddsRecord) :=
  match outs with
  | [] => Some records
  | out :: rest =>
      match outcomeBody ev seasonYear book mkt out with
      | Skips => outcomesLoop ev seasonYear book mkt rest records
      | Pushes r => outcomesLoop ev seasonYear book mkt rest (records ++ [r])
      | Throws => None
      end
  end.

Fixpoint bookMarketsLoop (ev : oddsEvent) (seasonYear : option Z)
    (book : bookmaker) (mkts : list market) (records : list oddsRecord)
    : option (list oddsRecord) :=
  match mkts with
  | [] => Some records
  | mkt :: rest =>
      match outcomesLoop ev seasonYear book mkt (default [] (outcomes mkt))
              records with
      | Some records => bookMarketsLoop ev seasonYear book rest records
      | None => None
      end
  end.

Fixpoint booksLoop (ev : oddsEvent) (seasonYear : option Z)
    (books : list bookmaker) (records : list oddsRecord)
    : option (list oddsRecord) :=
  match books with
  | [] => Some records
  | book :: rest =>
      match bookMarketsLoop ev seasonYear book (default [] (markets book))
              records with
      | Some records => booksLoop ev seasonYear rest records
      | None => None
      end
  end.

Definition recordsOf (ev : oddsEvent) (seasonYear : option Z)
    (books : list bookmaker) : option (list oddsRecord) :=
  booksLoop ev seasonYear books [].

(** *** The run

    The outside world is any state machine that answers the two kinds of
    fetch and the upsert; the trace records what the script asked of it. *)

Inductive eventsFetched :=
| EventsThrow (message : jsstring)
| EventsStatus (status : N)                    (* response not ok *)
| EventsOk (allEvents : list oddsEvent).

Inductive oddsFetched :=
| OddsThrow (message : jsstring)
| OddsStatus (status : N)                      (* response not ok *)
| OddsOk (bookmakers : option (list bookmaker)). (* [None]: not an array *)

Inductive response :=
| UpsertOk
| UpsertError (message : jsstring)
| UpsertThrows (message : jsstring).

Inductive event :=
| EvFetchEvents
| EvFetchOdds (eventId market : jsstring)
| EvUpsert (records : list oddsRecord) (answer : response)
| EvSleep (ms : N).

(** What the catch around the whole run reports as [error]: the message
    of the error thrown, or, for the TypeError of [determineBetType], the
    engine's message that [toLowerCase] is not a function. *)
Inductive failure :=
| Message (text : jsstring)
| NotAFunction.

(** What [runUpdater] returns, one constructor per [return]. *)
Inductive result :=
| Skipped                       (* Outside NFL season (skipped) *)
| NoGames                       (* No games in 4-day window *)
| Completed (eventsProcessed eventsWithData eventsWithNoData
             totalLinesInserted : nat) (test_mode : bool)
| Failure (error : failure).    (* the catch around the whole run *)

Record env := {
  testMode : bool;      (* process.argv.includes('--test') *)
  now : Z               (* new Date(), as a time value *)
}.

Section Run.
Context `{DateParser}.
Variable world_state : Type.
Variable fetchEvents : world_state → world_state * eventsFetched.
Variable fetchOdds : world_state → jsstring → jsstring → world_state * oddsFetched.
Variable upsert : world_state → list oddsRecord → world_state * response.
Variable e : env.

Record world := {
  store : world_state;
  trace : list event
}.

Definition doFetchEvents (w : world) : world * eventsFetched :=
  let '(s, r) := fetchEvents (store w) in
  ({| store := s; trace := trace w ++ [EvFetchEvents] |}, r).

Definition doFetchOdds (w : world) (eventId market : jsstring)
    : world * oddsFetched :=
  let '(s, r) := fetchOdds (store w) eventId market in
  ({| store := s; trace := trace w ++ [EvFetchOdds eventId market] |}, r).

Definition doUpsert (w : world) (records : list oddsRecord) : world * response :=
  let '(s, r) := upsert (store w) records in
  ({| store := s; trace := trace w ++ [EvUpsert records r] |}, r).

Definition doSleep (w : world) (ms : N) : world :=
  {| store := store w; trace := trace w ++ [EvSleep ms] |}.

(** The upsert of the records of one market: the lines to add to
    [eventLines]. *)
Definition store_records (w : world) (records : list oddsRecord) : world * nat :=
  if negb (bool_decide (length records = 0)) then
    if negb (testMode e) then
      let '(w, answer) := doUpsert w records in
      match answer with
      | UpsertError _ => (w, 0)
      | UpsertOk => (w, length records)
      | UpsertThrows _ => (w, 0)      (* caught and logged *)
      end
    else
      (* Dry run: count only *)
      (w, length records)
  else (w, 0).

(** The loop over the markets of one event: the event's lines, or the
    message of the exception that ends the run. *)
Fixpoint marketsLoop (ev : oddsEvent) (seasonYear : option Z)
    (mkts : list jsstring) (w : world) (eventLines : nat)
    : world * (nat + failure) :=
  match mkts with
  | [] => (w, inl eventLines)
  | market :: rest =>
      let w := doSleep w 400 in       (* polite rate limit *)
      let '(w, oddsRes) := doFetchOdds w (id ev) market in
      match oddsRes with
      | OddsThrow message => (w, inr (Message message))
      | OddsStatus _ => marketsLoop ev seasonYear rest w eventLines
      | OddsOk bookmakers =>
          let books := default [] bookmakers in
          match recordsOf ev seasonYear books with
          | None => (w, inr NotAFunction)
          | Some records =>
              let '(w, lines) := store_records w records in
              marketsLoop ev seasonYear rest w (eventLines + lines)
          end
      end
  end.

Record counters := {
  totalInserted : nat;
  withData : nat;
  noData : nat
}.

(** The loop over the events of the window. *)
Fixpoint eventsLoop (events : list oddsEvent) (w : world) (c : counters)
    : world * (counters + failure) :=
  match events with
  | [] => (w, inl c)
  | event :: rest =>
      let kickoff := Date_of (commence_time event) in
      let seasonYear := getSeasonYear kickoff in
      match marketsLoop event seasonYear ALTERNATE_MARKETS w 0 with
      | (w, inr error) => (w, inr error)
      | (w, inl eventLines) =>
          eventsLoop rest w
            (if bool_decide (0 < eventLines) then
               {| totalInserted := totalInserted c + eventLines;
                  withData := S (withData c); noData := noData c |}
             else
               {| totalInserted := totalInserted c;
                  withData := withData c; noData := S (noData c) |})
      end
  end.

(** Main updater function *)
Definition runUpdater (w : world) : world * result :=
  (* Window = today + 4 days *)
  let win := getUpcomingGamesWindow (now e) in
  (* Optional in-season guard (bypass if testMode) *)
  if negb (isInSeason (now e)) && negb (testMode e) then (w, Skipped)
  else
    (* 1) Fetch all NFL events *)
    let '(w, eventsRes) := doFetchEvents w in
    match eventsRes with
    | EventsThrow message => (w, Failure (Message message))
    | EventsStatus status =>
        (w, Failure (Message (str "Events API failed: " ++ decimal status)))
    | EventsOk allEvents =>
        (* 2) Filter to today + 4 days window *)
        let events :=
          List.filter (fun ev => inWindow win (commence_time ev)) allEvents in
        if bool_decide (length events = 0) then (w, NoGames)
        else
          match eventsLoop events w
                  {| totalInserted := 0; withData := 0; noData := 0 |} with
          | (w, inr error) => (w, Failure error)
          | (w, inl c) =>
              (w, Completed (length events) (withData c) (noData c)
                    (totalInserted c) (testMode e))
          end
    end.

End Run.
End Feed.

Arguments toNumber {num}.
Arguments name {num}.
Arguments description {num}.
Arguments point {num}.
Arguments price {num}.
Arguments market_key_of {num}.
Arguments outcomes {num}.
Arguments key {num}.
Arguments title {num}.
Arguments last_update {num}.
Arguments markets {num}.
Arguments rec_id {num}.
Arguments event_id {num}.
Arguments bookmaker_key {num}.
Arguments market_key {num}.
Arguments player_name {num}.
Arguments outcome_name {num}.
Arguments decimal_price {num}.
Arguments line_value {num}.
Arguments idParts {num}.
Arguments Skips {num}.
Arguments Pushes {num}.
Arguments Throws {num}.
Arguments outcomeBody {num}.
Arguments recordOf {num}.
Arguments outcomesLoop {num}.
Arguments bookMarketsLoop {num}.
Arguments booksLoop {num}.
Arguments recordsOf {num}.
Arguments EvFetchEvents {num}.
Arguments EvFetchOdds {num}.
Arguments EvUpsert {num}.
Arguments EvSleep {num}.
Arguments store {num world_state}.
Arguments trace {num world_state}.
Arguments store_records {num world_state}.
Arguments marketsLoop {num} numToString numIsFinite {world_state}.
Arguments eventsLoop {num} numToString numIsFinite {_ world_state}.
Arguments runUpdater {num} numToString numIsFinite {_ world_state}.

End Odds.

(** ** Notions used to state the properties *)

Module Spec.
Import JS.

(** A text without a decimal digit. *)
Definition digitless (s : list N) : Prop :=
  Forall (fun c => isDigit c = false) s.

(** The contiguous batches of [n] elements of a list, in order, the last
    one possibly shorter. *)
Fixpoint chunksFrom {A} (fuel n : nat) (l : list A) : list (list A) :=
  match fuel, l with
  | _, [] => []
  | O, _ => []
  | S fuel, _ => take n l :: chunksFrom fuel n (drop n l)
  end.

Definition chunks {A} (n : nat) (l : list A) : list (list A) :=
  chunksFrom (length l) n l.

(** The upserts recorded in a trace of the play-by-play updater: batch
    and answer, in order. *)
Definition upserts (tr : list Pbp.event)
    : list (list Pbp.typedRecord * Pbp.response) :=
  omap (fun ev =>
          match ev with
          | Pbp.EvUpsert _ batch _ answer => Some (batch, answer)
          | _ => None
          end) tr.

(** The records of the batches answered with success. *)
Definition okRecords (calls : list (list Pbp.typedRecord * Pbp.response)) : nat :=
  sum_list (map (fun c => match snd c with
                          | Pbp.UpsertOk => length (fst c)
                          | _ => 0
                          end) calls).




(** A collaborator that reports failures in its answer and never throws. *)
Definition reportsErrors {db} (upsert : db → list N → list Pbp.typedRecord
                                       → list N → db * Pbp.response) : Prop :=
  ∀ s table batch onConflict message,
    snd (upsert s table batch onConflict) ≠ Pbp.UpsertThrows message.

(** The upserts recorded in a trace of the odds updater. *)
Definition oddsUpserts {num} (tr : list (Odds.event num)) : list (Odds.event num) :=
  List.filter (fun ev => match ev with Odds.EvUpsert _ _ => true | _ => false end)
    tr.


(** The odds fetches recorded in a trace of the odds updater: event id
    and market, in order. *)
Definition oddsRequests {num} (tr : list (Odds.event num))
    : list (list N * list N) :=
  omap (fun ev =>
          match ev with
          | Odds.EvFetchOdds eventId market => Some (eventId, market)
          | _ => None
          end) tr.

(** The odds fetches due for a list of events: every alternate market
    of every event, in order. *)
Definition requestsFor (events : list Odds.oddsEvent) : list (list N * list N) :=
  events ≫= (fun ev =>
    map (fun market => (Odds.id ev, market)) Odds.ALTERNATE_MARKETS).

(** A line as made of fields: the fields are separated by commas, and a
    field is a sequence of bare stretches, without comma or double quote,
    and of double-quoted stretches, which hold no double quote but may
    hold commas.  After the last field there may be a stretch whose
    opening quote is never closed. *)
Inductive piece :=
| Bare (s : list N)
| Quoted (s : list N).

Definition pieceText (p : piece) : list N :=
  match p with Bare s | Quoted s => s end.

Definition pieceSource (p : piece) : list N :=
  match p with
  | Bare s => s
  | Quoted s => quote :: s ++ [quote]
  end.

Definition wellFormedPiece (p : piece) : Prop :=
  match p with
  | Bare s => (quote ∉ s) ∧ (comma ∉ s)
  | Quoted s => quote ∉ s
  end.

Definition fieldText (f : list piece) : list N := concat (map pieceText f).

Definition fieldSource (f : list piece) : list N := concat (map pieceSource f).

Definition unclosedSource (u : option (list N)) : list N :=
  match u with
  | None => []
  | Some s => quote :: s
  end.

(** The line with the fields [init] and then [final], and the unclosed
    stretch [u] at its end. *)
Definition lineSource (init : list (list piece)) (final : list piece)
    (u : option (list N)) : list N :=
  concat (map (fun f => fieldSource f ++ [comma]) init)
  ++ fieldSource final ++ unclosedSource u.

End Spec.

(** ** Sample inputs *)

Module Sample.
Import JS.

Definition headers : list (list N) :=
  Pbp.parseHeaders (str "play_id,game_id,game_date").

Definition goodLine1 : list N := str "1,2025_09_DAL_PHI,2025-11-01".
Definition goodLine2 : list N := str "2,2025_09_DAL_PHI,2025-11-01".
Definition shortLine : list N := str "3,2025_09".
Definition noDateLine : list N := str "1,2025_09_DAL_PHI,".
Definition badDateLine : list N := str "1,2025_09_DAL_PHI,TBD".
Definition naPlayIdLine : list N := str "NA,2025_09_DAL_PHI,2025-11-01".

(** The row of the line whose [play_id] cell is NA. *)
Definition naPlayIdRow : Pbp.row :=
  Pbp.makeRow headers (Pbp.tokenize naPlayIdLine).

Definition parseStart2 : Pbp2.parsing :=
  {| Pbp2.pbpData := []; Pbp2.totalProcessed := 0; Pbp2.validPlays := 0 |}.

(** 2 November 2025, 18:30 UTC, and 1 July 2025, 00:00 UTC. *)
Definition inSeasonTime : Z := 1762108200000.
Definition offSeasonTime : Z := 1751328000000.

Definition liveEnv : Pbp.env :=
  {| Pbp.testMode := false; Pbp.now := inSeasonTime; Pbp.localTZA := 0 |}.
Definition testEnv : Pbp.env :=
  {| Pbp.testMode := true; Pbp.now := inSeasonTime; Pbp.localTZA := 0 |}.
Definition offSeasonEnv : Pbp.env :=
  {| Pbp.testMode := false; Pbp.now := offSeasonTime; Pbp.localTZA := 0 |}.

(** A collaborator that counts the upserts and fails the second one. *)
Definition flakyUpsert (calls : nat) (table : list N)
    (batch : list Pbp.typedRecord) (onConflict : list N) : nat * Pbp.response :=
  (S calls,
   if Nat.eqb calls 1 then Pbp.UpsertError (str "timeout") else Pbp.UpsertOk).


(** A collaborator that counts the upserts and throws on the second one. *)
Definition throwingUpsert (calls : nat) (table : list N)
    (batch : list Pbp.typedRecord) (onConflict : list N) : nat * Pbp.response :=
  (S calls,
   if Nat.eqb calls 1 then Pbp.UpsertThrows (str "socket hang up")
   else Pbp.UpsertOk).

Definition freshWorld : Pbp.world nat := {| Pbp.store := 0; Pbp.trace := [] |}.

(** No source answers. *)
Definition noFetch (url : list N) : Pbp.fetched := Pbp.FetchThrows.

(** 250 and 150 records. *)
Definition plays250 : list Pbp.typedRecord := replicate 250 [].

(** An outcome of the odds feed, with integers for its numbers. *)
Definition out : Odds.outcome Z :=
  {| Odds.name := VStr (str "Over");
     Odds.description := VStr (str "Josh Allen");
     Odds.point := Some 249%Z; Odds.price := Some 2%Z |}.

Definition ev : Odds.oddsEvent :=
  {| Odds.id := str "e1"; Odds.home_team := VStr (str "BUF");
     Odds.away_team := VStr (str "KC");
     Odds.commence_time := VStr (str "2025-11-02T18:00:00Z") |}.

Definition book : Odds.bookmaker Z :=
  {| Odds.key := str "draftkings"; Odds.title := VStr (str "DraftKings");
     Odds.last_update := VNull; Odds.markets := None |}.

Definition mkt : Odds.market Z :=
  {| Odds.market_key_of := str "player_pass_yds_alternate";
     Odds.outcomes := Some [Some out] |}.

End Sample.

(** ** The process and further notions *)

Module More.
Import JS.

(** [process.exit(result.success ? 0 : 1)], with the [success] field each
    [return] of [runUpdater] sets. *)
Definition pbpSuccess (r : Pbp.result) : bool :=
  match r with
  | Pbp.Skipped => true
  | Pbp.FetchFailed => false
  | Pbp.NoData => true
  | Pbp.NoValid _ _ => true
  | Pbp.Summary success _ _ _ _ => success
  end.

Definition pbp2Success (r : Pbp2.result) : bool :=
  match r with
  | Pbp2.Skipped => true
  | Pbp2.NoRecent => true
  | Pbp2.TestRun _ => true
  | Pbp2.Finished success _ _ => success
  | Pbp2.Failure _ => false
  end.

Definition oddsSuccess (r : Odds.result) : bool :=
  match r with
  | Odds.Skipped => true
  | Odds.NoGames => true
  | Odds.Completed _ _ _ _ _ => true
  | Odds.Failure _ => false
  end.

Definition exitCode (success : bool) : nat := if success then 0 else 1.

(** The test of the identity gate of both revisions, on the raw cells. *)
Definition passesGate (play : Pbp.row) : bool :=
  truthy (Pbp.get play "game_id") && truthy (Pbp.get play "play_id").

(** What a source yields when the resolver accepts it. *)
Definition accepted `{DateParser} (cutoffDate : date) (f : Pbp.fetched)
    : option (list Pbp.row) :=
  match f with
  | Pbp.Fetched true csvText =>
      if (N.of_nat (length csvText) <? 10000)%N then None
      else Pbp.pbpData <$> Pbp.parseCsv cutoffDate csvText
  | _ => None
  end.

(** The events a run of batches leaves in the trace: one upsert per
    batch and a pause of 200 ms after every batch but the last. *)
Fixpoint batchTrace (calls : list (list Pbp.typedRecord * Pbp.response))
    : list Pbp.event :=
  match calls with
  | [] => []
  | c :: rest =>
      Pbp.EvUpsert (str "nflfastr_pbp") (fst c) (str "play_id,game_id") (snd c)
      :: match rest with
         | [] => []
         | _ => Pbp.EvSleep 200 :: batchTrace rest
         end
  end.



End More.

(** ** A sample feed *)

Module Feed.
Import JS.

(** A header and 120 data lines, all of the same play: a text of more
    than 10000 code units. *)
Definition csvText : list N :=
  str "play_id,game_id,game_date,desc"
  ++ concat (replicate 120
       (newline
        :: str "7,2025_09_DAL_PHI,2025-11-01,(12:05) J.Hurts pass short "
           ++ str "right to A.Brown to DAL 35 for 8 yards (T.Diggs)")).

(** Every source answers with that text. *)
Definition fetch (url : list N) : Pbp.fetched := Pbp.Fetched true csvText.

(** An odds world: one event, the same book with one line for every
    market, and a collaborator that throws on its first upsert. *)
Definition oddsBook : Odds.bookmaker Z :=
  {| Odds.key := str "draftkings"; Odds.title := VStr (str "DraftKings");
     Odds.last_update := VNull; Odds.markets := Some [Sample.mkt] |}.

Definition oddsFetchEvents (s : nat) : nat * Odds.eventsFetched :=
  (s, Odds.EventsOk [Sample.ev]).

Definition oddsFetchOdds (s : nat) (eventId market : list N)
    : nat * Odds.oddsFetched Z :=
  (s, Odds.OddsOk Z (Some [oddsBook])).

Definition oddsUpsert (s : nat) (records : list (Odds.oddsRecord Z))
    : nat * Odds.response :=
  (S s, if Nat.eqb s 0 then Odds.UpsertThrows (str "socket hang up")
        else Odds.UpsertOk).

(** An event that starts at the end of the window of the sample run, and
    a collaborator that lists it before the sample event. *)
Definition evAtEnd : Odds.oddsEvent :=
  {| Odds.id := str "e0"; Odds.home_team := VStr (str "DAL");
     Odds.away_team := VStr (str "PHI");
     Odds.commence_time := VStr (str "2025-11-06T00:00:00Z") |}.

Definition oddsFetchTwoEvents (s : nat) : nat * Odds.eventsFetched :=
  (s, Odds.EventsOk [evAtEnd; Sample.ev]).

Definition oddsEnv : Odds.env :=
  {| Odds.testMode := false; Odds.now := Sample.inSeasonTime |}.

Definition oddsWorld : Odds.world Z nat :=
  {| Odds.store := 0; Odds.trace := [] |}.

(** An outcome whose name is the boolean true, and a collaborator that
    serves it after the sample outcome. *)
Definition outNamedTrue : Odds.outcome Z :=
  {| Odds.name := VBool true;
     Odds.description := VStr (str "Josh Allen");
     Odds.point := Some 250%Z; Odds.price := Some 2%Z |}.

Definition mktNamedTrue : Odds.market Z :=
  {| Odds.market_key_of := str "player_pass_yds_alternate";
     Odds.outcomes := Some [Some Sample.out; Some outNamedTrue] |}.

Definition bookNamedTrue : Odds.bookmaker Z :=
  {| Odds.key := str "fanduel"; Odds.title := VStr (str "FanDuel");
     Odds.last_update := VNull; Odds.markets := Some [mktNamedTrue] |}.

Definition oddsFetchNamedTrue (s : nat) (eventId market : list N)
    : nat * Odds.oddsFetched Z :=
  (s, Odds.OddsOk Z (Some [oddsBook; bookNamedTrue])).

(** Two outcomes whose player names differ by punctuation only. *)
Definition outDotted : Odds.outcome Z :=
  {| Odds.name := VStr (str "Over");
     Odds.description := VStr (str "A.J. Brown");
     Odds.point := Some 64%Z; Odds.price := Some 2%Z |}.

Definition outPlain : Odds.outcome Z :=
  {| Odds.name := VStr (str "Over");
     Odds.description := VStr (str "AJ Brown");
     Odds.point := Some 64%Z; Odds.price := Some 2%Z |}.

End Feed.

(** * Properties *)

Import JS.

(** ** Quote-aware splitting *)

(** Inside quotes the scanner only appends: a comma does not end the
    token. *)
Lemma scanChar_quoted (q : list N) (vs : list (list N)) (cur : list N) :
  quote ∉ q →
  foldl Pbp.scanChar
    {| Pbp.values := vs; Pbp.current := cur; Pbp.inQuotes := true |} q
  = {| Pbp.values := vs; Pbp.current := cur ++ q; Pbp.inQuotes := true |}.
Proof.
  revert cur. induction q as [|c q IH]; intros cur Hq; simpl.
  - by rewrite app_nil_r.
  - apply not_elem_of_cons in Hq as [Hc Hq].
    unfold Pbp.scanChar at 2. simpl.
    destruct (N.eqb_spec c quote) as [->|_]; [done|].
    rewrite andb_false_r. rewrite IH by done.
    by rewrite <- app_assoc.
Qed.

(** A double-quoted stretch met outside quotes is appended whole to
    the token under construction, whatever commas it holds. *)
Lemma scan_quoted_stretch (st : Pbp.scanner) (q : list N) :
  Pbp.inQuotes st = false → quote ∉ q →
  foldl Pbp.scanChar st ([quote] ++ q ++ [quote])
  = {| Pbp.values := Pbp.values st; Pbp.current := Pbp.current st ++ q;
       Pbp.inQuotes := false |}.
Proof.
  destruct st as [vs cur iq]. intros Hiq Hq. simpl in Hiq. subst iq.
  rewrite foldl_app. simpl. unfold Pbp.scanChar at 2. simpl.
  rewrite foldl_app, scanChar_quoted by done. reflexivity.
Qed.

(** A stretch without comma or double quote is appended too. *)
Lemma scan_bare_stretch (s : list N) : ∀ st : Pbp.scanner,
  quote ∉ s → comma ∉ s →
  foldl Pbp.scanChar st s
  = {| Pbp.values := Pbp.values st; Pbp.current := Pbp.current st ++ s;
       Pbp.inQuotes := Pbp.inQuotes st |}.
Proof.
  induction s as [|c s IH]; intros [vs cur iq] Hq Hc; simpl.
  - by rewrite app_nil_r.
  - apply not_elem_of_cons in Hq as [Hq1 Hq]. apply not_elem_of_cons in Hc as [Hc1 Hc].
    unfold Pbp.scanChar at 2. simpl.
    rewrite (proj2 (N.eqb_neq c quote)), (proj2 (N.eqb_neq c comma)) by done.
    simpl. rewrite IH by done. simpl. by rewrite <- app_assoc.
Qed.

Lemma scan_field (f : list Spec.piece) : ∀ st : Pbp.scanner,
  Forall Spec.wellFormedPiece f → Pbp.inQuotes st = false →
  foldl Pbp.scanChar st (Spec.fieldSource f)
  = {| Pbp.values := Pbp.values st;
       Pbp.current := Pbp.current st ++ Spec.fieldText f;
       Pbp.inQuotes := false |}.
Proof.
  unfold Spec.fieldSource, Spec.fieldText.
  induction f as [|p f IH]; intros [vs cur iq] Hf Hiq; simpl in Hiq; subst iq.
  - simpl. by rewrite app_nil_r.
  - apply Forall_cons in Hf as [Hp Hf]. cbn [map concat].
    rewrite foldl_app.
    assert (Hstep : foldl Pbp.scanChar
                      {| Pbp.values := vs; Pbp.current := cur;
                         Pbp.inQuotes := false |} (Spec.pieceSource p)
                    = {| Pbp.values := vs;
                         Pbp.current := cur ++ Spec.pieceText p;
                         Pbp.inQuotes := false |}).
    { destruct p as [s|s]; simpl in Hp.
      - destruct Hp as [Hq Hc]. by rewrite scan_bare_stretch.
      - exact (scan_quoted_stretch
                 {| Pbp.values := vs; Pbp.current := cur;
                    Pbp.inQuotes := false |} s eq_refl Hp). }
    rewrite Hstep, IH by done. simpl. by rewrite <- app_assoc.
Qed.

Lemma scan_fields (init : list (list Spec.piece)) : ∀ vs,
  Forall (Forall Spec.wellFormedPiece) init →
  foldl Pbp.scanChar
    {| Pbp.values := vs; Pbp.current := []; Pbp.inQuotes := false |}
    (concat (map (fun f => Spec.fieldSource f ++ [comma]) init))
  = {| Pbp.values := vs ++ map (fun f => trim (Spec.fieldText f)) init;
       Pbp.current := []; Pbp.inQuotes := false |}.
Proof.
  induction init as [|f init IH]; intros vs Hinit.
  - simpl. by rewrite app_nil_r.
  - apply Forall_cons in Hinit as [Hf Hinit]. cbn [map concat].
    rewrite !foldl_app, scan_field by done. simpl.
    unfold Pbp.scanChar at 2. simpl.
    rewrite IH by done. by rewrite <- app_assoc.
Qed.

Local Ltac norm_app :=
  repeat first [rewrite <- app_assoc | rewrite app_nil_r | progress simpl].

(** Every line is made of fields. *)
Lemma line_has_fields (line : list N) :
  ∃ init final u,
    Forall (Forall Spec.wellFormedPiece) init
    ∧ Forall Spec.wellFormedPiece final
    ∧ (∀ s, u = Some s → quote ∉ s)
    ∧ line = Spec.lineSource init final u.
Proof.
  induction line as [|c line (init & final & u & Hi & Hf & Hu & ->)]
    using rev_ind.
  - exists [], [], None. by repeat split.
  - destruct u as [s|].
    + destruct (decide (c = quote)) as [->|Hc].
      * exists init, (final ++ [Spec.Quoted s]), None.
        split; [done|]. split.
        { apply Forall_app. split; [done|]. constructor; [|constructor].
          simpl. by apply Hu. }
        split; [done|].
        unfold Spec.lineSource, Spec.fieldSource. rewrite map_app, concat_app.
        by norm_app.
      * exists init, final, (Some (s ++ [c])).
        split; [done|]. split; [done|]. split.
        { intros ? [= <-]. rewrite elem_of_app, list_elem_of_singleton.
          intros [Hin|Heq]; [by apply (Hu s)|by apply Hc]. }
        unfold Spec.lineSource. by norm_app.
    + destruct (decide (c = quote)) as [->|Hq].
      * exists init, final, (Some []).
        split; [done|]. split; [done|]. split.
        { intros ? [= <-]. apply not_elem_of_nil. }
        unfold Spec.lineSource. by norm_app.
      * destruct (decide (c = comma)) as [->|Hc].
        { exists (init ++ [final]), [], None.
          split; [apply Forall_app; split; [done|by constructor]|].
          split; [constructor|]. split; [done|].
          unfold Spec.lineSource. rewrite map_app, concat_app. by norm_app. }
        { exists init, (final ++ [Spec.Bare [c]]), None.
          split; [done|]. split.
          { apply Forall_app. split; [done|]. constructor; [|constructor].
            simpl. rewrite !list_elem_of_singleton. split; congruence. }
          split; [done|].
          unfold Spec.lineSource, Spec.fieldSource. rewrite map_app, concat_app.
          by norm_app. }
Qed.

(** C5. The tokenizer does not split at a comma inside a double-quoted
    stretch.  Every line is made of fields separated by commas, a field
    being a sequence of bare stretches and of double-quoted stretches
    that may hold commas, with possibly a stretch at the end whose quote
    is not closed; and on every such line the tokenizer yields exactly
    one token per field, the text of the field without its quotes,
    trimmed, the unclosed stretch going whole into the last token.  The
    line made of a, of b,c between double quotes and of d splits into the
    three tokens a, b,c and d. *)
Theorem tokenize_quote_aware :
  Pbp.tokenize (str "a," ++ [quote] ++ str "b,c" ++ [quote] ++ str ",d")
    = [str "a"; str "b,c"; str "d"]
  ∧ (∀ init final u,
       Forall (Forall Spec.wellFormedPiece) init →
       Forall Spec.wellFormedPiece final →
       (∀ s, u = Some s → quote ∉ s) →
       Pbp.tokenize (Spec.lineSource init final u)
       = map (fun f => trim (Spec.fieldText f)) init
         ++ [trim (Spec.fieldText final ++ default [] u)])
  ∧ (∀ line, ∃ init final u,
       Forall (Forall Spec.wellFormedPiece) init
       ∧ Forall Spec.wellFormedPiece final
       ∧ (∀ s, u = Some s → quote ∉ s)
       ∧ line = Spec.lineSource init final u)
  ∧ (∀ (st : Pbp.scanner) (q : list N),
       Pbp.inQuotes st = false → quote ∉ q →
       foldl Pbp.scanChar st ([quote] ++ q ++ [quote])
       = {| Pbp.values := Pbp.values st; Pbp.current := Pbp.current st ++ q;
            Pbp.inQuotes := false |}).
Proof.
  split; [vm_compute; reflexivity|].
  split; [|split; [exact line_has_fields|exact scan_quoted_stretch]].
  intros init final u Hinit Hfinal Hu.
  unfold Pbp.tokenize, Spec.lineSource, Pbp.scanStart.
  rewrite !foldl_app, scan_fields, scan_field by done. simpl.
  destruct u as [s|]; simpl.
  - assert (Hopen : ∀ vs cur,
              Pbp.scanChar {| Pbp.values := vs; Pbp.current := cur;
                              Pbp.inQuotes := false |} quote
              = {| Pbp.values := vs; Pbp.current := cur;
                   Pbp.inQuotes := true |}) by reflexivity.
    rewrite !Hopen, !scanChar_quoted by (by apply Hu). reflexivity.
  - by rewrite !app_nil_r.
Qed.

(** The fields a, then b,c between quotes, then d. *)
Lemma tokenize_quote_aware_witness :
  Pbp.tokenize
    (Spec.lineSource [[Spec.Bare (str "a")]; [Spec.Quoted (str "b,c")]]
       [Spec.Bare (str "d")] None)
  = [str "a"; str "b,c"; str "d"].
Proof.
  refine (proj1 (proj2 tokenize_quote_aware)
            [[Spec.Bare (str "a")]; [Spec.Quoted (str "b,c")]]
            [Spec.Bare (str "d")] None _ _ _).
  - repeat constructor; simpl; apply (bool_decide_unpack _); vm_compute; exact I.
  - repeat constructor; simpl; apply (bool_decide_unpack _); vm_compute; exact I.
  - intros s Hs. discriminate Hs.
Defined.

(** ** Malformed lines *)

Section Malformed.
Context `{DateParser}.
Variable cutoffDate : date.

(** The rows kept by a turn of the line loop depend on the rows kept so
    far only, not on the counters. *)
Lemma parseLine_pbpData headers st st' line :
  Pbp.pbpData st = Pbp.pbpData st' →
  Pbp.pbpData (Pbp.parseLine cutoffDate headers st line)
  = Pbp.pbpData (Pbp.parseLine cutoffDate headers st' line).
Proof.
  intros E. unfold Pbp.parseLine.
  repeat case_match; simpl; congruence.
Qed.

Lemma parseLines_pbpData headers lines : ∀ st st',
  Pbp.pbpData st = Pbp.pbpData st' →
  Pbp.pbpData (foldl (Pbp.parseLine cutoffDate headers) st lines)
  = Pbp.pbpData (foldl (Pbp.parseLine cutoffDate headers) st' lines).
Proof.
  induction lines as [|l lines IH]; intros st st' E; simpl; [done|].
  apply IH. by apply parseLine_pbpData.
Qed.

Lemma parseLine2_pbpData headers st st' line :
  Pbp2.pbpData st = Pbp2.pbpData st' →
  Pbp2.pbpData (Pbp2.parseLine cutoffDate headers st line)
  = Pbp2.pbpData (Pbp2.parseLine cutoffDate headers st' line).
Proof.
  intros E. unfold Pbp2.parseLine.
  repeat case_match; simpl; congruence.
Qed.

Lemma parseLines2_pbpData headers lines : ∀ st st',
  Pbp2.pbpData st = Pbp2.pbpData st' →
  Pbp2.pbpData (foldl (Pbp2.parseLine cutoffDate headers) st lines)
  = Pbp2.pbpData (foldl (Pbp2.parseLine cutoffDate headers) st' lines).
Proof.
  induction lines as [|l lines IH]; intros st st' E; simpl; [done|].
  apply IH. by apply parseLine2_pbpData.
Qed.

(** C8. A data line whose token count differs from the header count adds
    no row: the rows parsed from a text with that line are the rows parsed
    from the text without it, and so are the records transformed from
    them.  This holds in both revisions of the play-by-play updater. *)
Theorem malformed_line_dropped headers (line : list N) :
  length (Pbp.tokenize line) ≠ length headers →
  (∀ st, Pbp.pbpData (Pbp.parseLine cutoffDate headers st line) = Pbp.pbpData st)
  ∧ (∀ st before after,
       let parse := foldl (Pbp.parseLine cutoffDate headers) st in
       Pbp.pbpData (parse (before ++ line :: after))
         = Pbp.pbpData (parse (before ++ after))
       ∧ Pbp.transform (Pbp.pbpData (parse (before ++ line :: after)))
         = Pbp.transform (Pbp.pbpData (parse (before ++ after))))
  ∧ (∀ st, Pbp2.pbpData (Pbp2.parseLine cutoffDate headers st line)
           = Pbp2.pbpData st)
  ∧ (∀ st before after,
       let parse := foldl (Pbp2.parseLine cutoffDate headers) st in
       Pbp2.pbpData (parse (before ++ line :: after))
         = Pbp2.pbpData (parse (before ++ after))
       ∧ Pbp2.transform (Pbp2.pbpData (parse (before ++ line :: after)))
         = Pbp2.transform (Pbp2.pbpData (parse (before ++ after)))).
Proof.
  intros Hlen.
  assert (H1 : ∀ st, Pbp.pbpData (Pbp.parseLine cutoffDate headers st line)
                     = Pbp.pbpData st).
  { intros st. unfold Pbp.parseLine. by rewrite bool_decide_eq_false_2. }
  assert (H2 : ∀ st, Pbp2.pbpData (Pbp2.parseLine cutoffDate headers st line)
                     = Pbp2.pbpData st).
  { intros st. unfold Pbp2.parseLine. by rewrite bool_decide_eq_false_2. }
  split; [exact H1|]. split; [|split; [exact H2|]].
  - intros st before after parse.
    assert (E : Pbp.pbpData (parse (before ++ line :: after))
                = Pbp.pbpData (parse (before ++ after))).
    { unfold parse. rewrite !foldl_app. simpl. apply parseLines_pbpData, H1. }
    split; [exact E|]. by rewrite E.
  - intros st before after parse.
    assert (E : Pbp2.pbpData (parse (before ++ line :: after))
                = Pbp2.pbpData (parse (before ++ after))).
    { unfold parse. rewrite !foldl_app. simpl. apply parseLines2_pbpData, H2. }
    split; [exact E|]. by rewrite E.
Qed.

End Malformed.

(** A truncated line between two good lines: the parse is that of the two
    good lines. *)
Lemma malformed_line_dropped_witness :
  Pbp.pbpData
    (foldl (Pbp.parseLine (Some 0%Z) Sample.headers) Pbp.parseStart
       ([Sample.goodLine1] ++ Sample.shortLine :: [Sample.goodLine2]))
  = Pbp.pbpData
      (foldl (Pbp.parseLine (Some 0%Z) Sample.headers) Pbp.parseStart
         ([Sample.goodLine1] ++ [Sample.goodLine2])).
Proof.
  refine (proj1 (proj1 (proj2 (malformed_line_dropped (Some 0%Z) Sample.headers
            Sample.shortLine _)) Pbp.parseStart [Sample.goodLine1]
            [Sample.goodLine2])).
  vm_compute. discriminate.
Defined.

(** ** Window filters and missing timestamps *)

Section Window.
Context `{DateParser}.

(** C1, as the code has it.  In [index.js] a parsed record whose
    [game_date] cell is absent or empty is kept, whereas a record whose
    [game_date] is present and does not parse as a date is dropped; the
    later revision drops both; the odds updater drops an event whose
    [commence_time] is absent or does not parse. *)
Theorem missing_timestamp_policy (cutoffDate : date) headers (line : list N) :
  length (Pbp.tokenize line) = length headers →
  let r := Pbp.makeRow headers (Pbp.tokenize line) in
  let game_date := Pbp.get r "game_date" in
  (truthy game_date = false →
     ∀ st, Pbp.pbpData (Pbp.parseLine cutoffDate headers st line)
           = Pbp.pbpData st ++ [r])
  ∧ (truthy game_date = true → Date_of game_date = None →
     ∀ st, Pbp.pbpData (Pbp.parseLine cutoffDate headers st line)
           = Pbp.pbpData st)
  ∧ (truthy game_date = false ∨ Date_of game_date = None →
     ∀ st, Pbp2.pbpData (Pbp2.parseLine cutoffDate headers st line)
           = Pbp2.pbpData st)
  ∧ (∀ (w : Odds.window) (ev : Odds.oddsEvent) allEvents,
       Odds.commence_time ev = VUndefined
       ∨ (∃ s, Odds.commence_time ev = VStr s ∧ date_parse s = None) →
       Odds.inWindow w (Odds.commence_time ev) = false
       ∧ ¬ In ev (List.filter (fun ev => Odds.inWindow w (Odds.commence_time ev))
                    allEvents)).
Proof.
  intros Hlen r game_date. repeat split.
  - intros Hf st. unfold Pbp.parseLine.
    rewrite bool_decide_eq_true_2 by done. fold r. fold game_date.
    by rewrite Hf.
  - intros Ht Hd st. unfold Pbp.parseLine.
    rewrite bool_decide_eq_true_2 by done. fold r. fold game_date.
    by rewrite Ht, Hd.
  - intros Hor st. unfold Pbp2.parseLine.
    rewrite bool_decide_eq_true_2 by done. fold r. fold game_date.
    destruct (truthy game_date); [|done].
    destruct Hor as [?|Hd]; [done|]. by rewrite Hd.
  - unfold Odds.inWindow.
    destruct H0 as [->|(s & -> & Hs)]; simpl; [done|]. by rewrite Hs.
  - intros [_ Hin]%filter_In. revert Hin. unfold Odds.inWindow.
    destruct H0 as [->|(s & -> & Hs)]; simpl; [done|]. by rewrite Hs.
Qed.

End Window.

(** A row with an empty [game_date] is kept by [index.js]. *)
Lemma missing_timestamp_policy_witness :
  Pbp.pbpData
    (Pbp.parseLine (Some 0%Z) Sample.headers Pbp.parseStart Sample.noDateLine)
  = [Pbp.makeRow Sample.headers (Pbp.tokenize Sample.noDateLine)].
Proof.
  refine (proj1 (missing_timestamp_policy (Some 0%Z) Sample.headers
            Sample.noDateLine _) _ Pbp.parseStart); reflexivity.
Defined.

(** C1, as stated, fails: a record whose [game_date] does not parse is
    not kept by [index.js], and the later revision does not keep a record
    without [game_date] either. *)
Lemma unparseable_game_date_dropped :
  length (Pbp.tokenize Sample.badDateLine) = length Sample.headers
  ∧ Pbp.get (Pbp.makeRow Sample.headers (Pbp.tokenize Sample.badDateLine))
      "game_date" = VStr (str "TBD")
  ∧ Date_of (VStr (str "TBD")) = None
  ∧ Pbp.pbpData
      (Pbp.parseLine (Some 0%Z) Sample.headers Pbp.parseStart
         Sample.badDateLine) = []
  ∧ Pbp.get (Pbp.makeRow Sample.headers (Pbp.tokenize Sample.noDateLine))
      "game_date" = VNull
  ∧ Pbp2.pbpData
      (Pbp2.parseLine (Some 0%Z) Sample.headers Sample.parseStart2
         Sample.noDateLine) = [].
Proof. vm_compute. repeat split. Qed.

(** ** The seasonal guard *)

Lemma Pbp_skipped_inv `{DateParser} db
    (upsert : db → _ → _ → _ → db * Pbp.response) e fetch w w' :
  Pbp.runUpdater upsert e fetch w = Some (w', Pbp.Skipped) →
  Pbp.inNflSeason e = false ∧ Pbp.testMode e = false ∧ w' = w.
Proof.
  unfold Pbp.runUpdater.
  destruct (Pbp.inNflSeason e), (Pbp.testMode e) eqn:Et; simpl; intros Hr;
    try (by simplify_eq);
    exfalso; revert Hr; unfold Pbp.update; rewrite ?Et;
    repeat case_match; intros; simplify_eq.
Qed.

Lemma Pbp2_skipped_inv `{DateParser} db
    (upsert : db → _ → _ → _ → db * Pbp.response) e fetch w w' :
  Pbp2.runUpdater upsert e fetch w = Some (w', Pbp2.Skipped) →
  Pbp2.inNflSeason e = false ∧ Pbp.testMode e = false ∧ w' = w.
Proof.
  unfold Pbp2.runUpdater.
  destruct (Pbp2.inNflSeason e), (Pbp.testMode e) eqn:Et; simpl; intros Hr;
    try (by simplify_eq);
    exfalso; revert Hr; repeat case_match; intros; simplify_eq.
Qed.

Lemma Odds_skipped_inv `{DateParser} num (numToString : num → list N)
    numIsFinite world_state (fetchEvents : world_state → _) fetchOdds upsert e w :
  (Odds.runUpdater numToString numIsFinite fetchEvents fetchOdds upsert e w).2
  = Odds.Skipped →
  Odds.isInSeason (Odds.now e) = false ∧ Odds.testMode e = false
  ∧ (Odds.runUpdater numToString numIsFinite fetchEvents fetchOdds upsert e w).1
    = w.
Proof.
  unfold Odds.runUpdater.
  destruct (Odds.isInSeason (Odds.now e)), (Odds.testMode e) eqn:Et; simpl;
    try done; repeat case_match; simpl; intros; simplify_eq.
Qed.

(** C10. Each updater returns its skipped result exactly when the run is
    outside the season window and the test mode is off; in particular
    never in test mode, whatever the date.  The world is untouched by a
    skipped run. *)
Theorem season_guard_only_outside_season_and_live `{DateParser} :
  (∀ db (upsert : db → _ → _ → _ → db * Pbp.response) e fetch w,
     ((∃ w', Pbp.runUpdater upsert e fetch w = Some (w', Pbp.Skipped))
      ↔ Pbp.inNflSeason e = false ∧ Pbp.testMode e = false)
     ∧ (∀ w', Pbp.runUpdater upsert e fetch w = Some (w', Pbp.Skipped) → w' = w))
  ∧ (∀ db (upsert : db → _ → _ → _ → db * Pbp.response) e fetch w,
     ((∃ w', Pbp2.runUpdater upsert e fetch w = Some (w', Pbp2.Skipped))
      ↔ Pbp2.inNflSeason e = false ∧ Pbp.testMode e = false)
     ∧ (∀ w', Pbp2.runUpdater upsert e fetch w = Some (w', Pbp2.Skipped) → w' = w))
  ∧ (∀ num (numToString : num → list N) numIsFinite world_state
       (fetchEvents : world_state → _) fetchOdds upsert e w,
     let run := Odds.runUpdater numToString numIsFinite
                  fetchEvents fetchOdds upsert e w in
     (run.2 = Odds.Skipped
      ↔ Odds.isInSeason (Odds.now e) = false ∧ Odds.testMode e = false)
     ∧ (run.2 = Odds.Skipped → run.1 = w)).
Proof.
  split; [|split].
  - intros db upsert e fetch w. split; [split|].
    + intros [w' Hr]. apply Pbp_skipped_inv in Hr. tauto.
    + intros [Hs Ht]. exists w. unfold Pbp.runUpdater. by rewrite Hs, Ht.
    + intros w' Hr. apply Pbp_skipped_inv in Hr. tauto.
  - intros db upsert e fetch w. split; [split|].
    + intros [w' Hr]. apply Pbp2_skipped_inv in Hr. tauto.
    + intros [Hs Ht]. exists w. unfold Pbp2.runUpdater. by rewrite Hs, Ht.
    + intros w' Hr. apply Pbp2_skipped_inv in Hr. tauto.
  - intros num numToString numIsFinite ws fetchEvents fetchOdds upsert e w run.
    subst run. split; [split|].
    + intros Hr. apply Odds_skipped_inv in Hr. tauto.
    + intros [Hs Ht]. unfold Odds.runUpdater. by rewrite Hs, Ht.
    + intros Hr. apply Odds_skipped_inv in Hr. tauto.
Qed.

(** A live run on 1 July is skipped. *)
Lemma season_guard_only_outside_season_and_live_witness :
  ∃ w', Pbp.runUpdater Sample.flakyUpsert Sample.offSeasonEnv Sample.noFetch
          Sample.freshWorld = Some (w', Pbp.Skipped).
Proof.
  apply (proj1 (proj1 (season_guard_only_outside_season_and_live
           (H := iso_parser)) nat Sample.flakyUpsert Sample.offSeasonEnv
           Sample.noFetch Sample.freshWorld)).
  split; reflexivity.
Defined.

(** ** The identity gate *)

(** What the gate of [index.js] does: it looks at the raw cells.  A row
    with an empty or absent [game_id] or [play_id] is skipped and counted;
    any other row is transformed. *)
Lemma identity_gate_on_raw_cells (st : Pbp.transformation) (play : Pbp.row) :
  (truthy (Pbp.get play "game_id") && truthy (Pbp.get play "play_id") = false →
     Pbp.transformedPlays (Pbp.transformStep st play) = Pbp.transformedPlays st
     ∧ length (Pbp.skippedPlays (Pbp.transformStep st play))
       = S (length (Pbp.skippedPlays st)))
  ∧ (truthy (Pbp.get play "game_id") && truthy (Pbp.get play "play_id") = true →
     Pbp.transformedPlays (Pbp.transformStep st play)
     = Pbp.transformedPlays st ++ [Pbp.transformPlay play]
     ∧ Pbp.skippedPlays (Pbp.transformStep st play) = Pbp.skippedPlays st).
Proof.
  unfold Pbp.transformStep, Pbp.skipReasons.
  destruct (truthy (Pbp.get play "game_id")),
           (truthy (Pbp.get play "play_id")); simpl;
    (split; [intros ?|intros ?]); try discriminate;
    rewrite ?length_app; simpl; split; try done; lia.
Qed.

(** C2 fails on the code.  The gate tests the raw cells and the
    conversions run afterwards, so a row whose [play_id] cell is the text
    NA passes the gate and yields a record whose [play_id] is null; it is
    not counted as skipped.  Both revisions behave so. *)
Theorem identity_gate_admits_null_play_id :
  Pbp.get Sample.naPlayIdRow "play_id" = VStr (str "NA")
  ∧ Pbp.transform [Sample.naPlayIdRow]
    = {| Pbp.transformedPlays := [Pbp.transformPlay Sample.naPlayIdRow];
         Pbp.skippedPlays := [] |}
  ∧ Pbp.field (Pbp.transformPlay Sample.naPlayIdRow) "play_id"
    = Some Pbp.TNull
  ∧ Pbp2.transform [Sample.naPlayIdRow]
    = [Pbp2.transformPlay Sample.naPlayIdRow]
  ∧ Pbp.field (Pbp2.transformPlay Sample.naPlayIdRow) "play_id"
    = Some Pbp.TNull.
Proof. vm_compute. repeat split. Qed.

(** ** Dry run *)


Section DryRunOdds.
Context `{DateParser}.
Context {num : Type} (numToString : num → list N) (numIsFinite : num → bool).
Context {world_state : Type}.
Variable fetchEvents : world_state → world_state * Odds.eventsFetched.
Variable fetchOdds : world_state → list N → list N
                     → world_state * Odds.oddsFetched num.
Variable upsert : world_state → list (Odds.oddsRecord num)
                  → world_state * Odds.response.
Variable e : Odds.env.
Hypothesis dry : Odds.testMode e = true.





End DryRunOdds.

Lemma transform_all_valid (pbpData : list Pbp.row) :
  Forall (fun play => truthy (Pbp.get play "game_id")
                      && truthy (Pbp.get play "play_id") = true) pbpData →
  ∀ st, Pbp.transformedPlays (foldl Pbp.transformStep st pbpData)
        = Pbp.transformedPlays st ++ map Pbp.transformPlay pbpData.
Proof.
  induction 1 as [|play l Hp _ IH]; intros st; simpl.
  - by rewrite app_nil_r.
  - rewrite IH. destruct (identity_gate_on_raw_cells st play) as [_ Hk].
    destruct (Hk Hp) as [-> _]. by rewrite <- app_assoc.
Qed.



(** ** Field coercion *)

Lemma digitless_trimStart s : Spec.digitless s → Spec.digitless (trimStart s).
Proof.
  induction 1 as [|c s Hc Hs IH]; simpl; [constructor|].
  destruct (isWhiteSpace c); [done|by constructor].
Qed.

Lemma digitless_takeSign s : Spec.digitless s → Spec.digitless (takeSign s).2.
Proof.
  intros Hs. destruct Hs as [|c s Hc Hs]; simpl; [constructor|].
  repeat case_match; simpl; try done; by constructor.
Qed.

Lemma digitOfRadix_digitless c : isDigit c = false → digitOfRadix 10 c = None.
Proof.
  intros Hc. unfold digitOfRadix. rewrite Hc.
  repeat case_match; try done; exfalso;
    repeat match goal with
    | H : (_ && _) = true |- _ => apply andb_true_iff in H as [? ?]
    | H : (_ <=? _)%N = true |- _ => apply N.leb_le in H
    | H : (_ <? _)%N = true |- _ => apply N.ltb_lt in H
    | H : Some _ = Some _ |- _ => injection H as <-
    end; lia.
Qed.

Lemma spanDigits_digitless s : Spec.digitless s → spanDigits 10 s = ([], s).
Proof.
  intros [|c r Hc Hr]; simpl; [done|]. by rewrite digitOfRadix_digitless.
Qed.

Lemma parseInt_digitless s : Spec.digitless s → parseInt (VStr s) = None.
Proof.
  intros Hs. unfold parseInt. simpl.
  pose proof (digitless_takeSign _ (digitless_trimStart _ Hs)) as Hr.
  destruct (takeSign (trimStart s)) as [neg r]. simpl in Hr.
  destruct Hr as [|c r Hc Hr]; [done|].
  destruct (N.eqb_spec c 48) as [->|_]; [discriminate Hc|]. simpl.
  assert (Hrest : Spec.digitless (c :: r)) by by constructor.
  destruct r; by rewrite spanDigits_digitless.
Qed.

Lemma parseFloat_digitless s :
  Spec.digitless s →
  parseFloat (VStr s) = None ∨ ∃ neg, parseFloat (VStr s) = Some (NumInf neg).
Proof.
  intros Hs. unfold parseFloat, scanDecimal. cbn [String_of].
  pose proof (digitless_takeSign _ (digitless_trimStart _ Hs)) as Hr.
  destruct (takeSign (trimStart s)) as [neg r]. cbn [snd] in Hr.
  destruct (stripPrefix (str "Infinity") r); [right; by exists neg|].
  left. unfold scanUnsignedDecimal. rewrite spanDigits_digitless by done.
  destruct Hr as [|c r Hc Hr]; [done|].
  destruct (c =? 46)%N; [|done]. by rewrite spanDigits_digitless.
Qed.

(** C4. Each conversion of [index.js] (integer, float, text, boolean, and
    the double of the win probabilities), and the numeric conversion of
    the later revision, returns null on the empty string, on NA, on
    undefined and on null.  Beyond these the integer and float conversions
    return null exactly when the text does not start with a number (NaN),
    as on every text without a digit other than a signed Infinity, and the
    text and boolean conversions never return null.  The conversions are
    total functions of the cell. *)
Theorem coercions_null_on_sentinels :
  (∀ f, In f [Pbp.safeInteger; Pbp.safeNumeric; Pbp.safeDouble; Pbp.safeText;
              Pbp.safeBoolean; Pbp2.safeNumeric] →
        ∀ x, In x [VStr []; VStr (str "NA"); VUndefined; VNull] →
             f x = Pbp.TNull)
  ∧ (∀ v, Pbp.safeInteger v = Pbp.TNull
          ↔ Pbp.isSentinel v = true ∨ parseInt v = None)
  ∧ (∀ v, Pbp.safeNumeric v = Pbp.TNull
          ↔ Pbp.isSentinel v = true ∨ parseFloat v = None)
  ∧ (∀ v, Pbp.safeDouble v = Pbp.safeNumeric v)
  ∧ (∀ v, Pbp2.safeNumeric v = Pbp.TNull
          ↔ Pbp.isSentinel v = true ∨ Number_of v = None)
  ∧ (∀ v, Pbp.safeText v = Pbp.TNull ↔ Pbp.isSentinel v = true)
  ∧ (∀ v, Pbp.safeBoolean v = Pbp.TNull ↔ Pbp.isSentinel v = true)
  ∧ (∀ s, Spec.digitless s →
          Pbp.safeInteger (VStr s) = Pbp.TNull
          ∧ (Pbp.safeNumeric (VStr s) = Pbp.TNull
             ∨ ∃ neg, Pbp.safeNumeric (VStr s) = Pbp.TNum (NumInf neg))).
Proof.
  repeat split.
  - intros f Hf x Hx. simpl in Hf, Hx.
    repeat destruct Hf as [<-|Hf]; try done;
      repeat destruct Hx as [<-|Hx]; try done.
  - unfold Pbp.safeInteger. destruct (Pbp.isSentinel v); [by left|].
    destruct (parseInt v); [done|by right].
  - unfold Pbp.safeInteger. intros [->| ->]; [done|].
    by destruct (Pbp.isSentinel v).
  - unfold Pbp.safeNumeric. destruct (Pbp.isSentinel v); [by left|].
    destruct (parseFloat v); [done|by right].
  - unfold Pbp.safeNumeric. intros [->| ->]; [done|].
    by destruct (Pbp.isSentinel v).
  - unfold Pbp2.safeNumeric. destruct (Pbp.isSentinel v); [by left|].
    destruct (Number_of v); [done|by right].
  - unfold Pbp2.safeNumeric. intros [->| ->]; [done|].
    by destruct (Pbp.isSentinel v).
  - unfold Pbp.safeText. by destruct (Pbp.isSentinel v).
  - unfold Pbp.safeText. by intros ->.
  - unfold Pbp.safeBoolean. by destruct (Pbp.isSentinel v).
  - unfold Pbp.safeBoolean. by intros ->.
  - unfold Pbp.safeInteger. rewrite parseInt_digitless by done.
    by destruct (Pbp.isSentinel _).
  - unfold Pbp.safeNumeric. destruct (Pbp.isSentinel _); [by left|].
    destruct (parseFloat_digitless s) as [->|[neg ->]]; eauto.
Qed.

Lemma coercions_null_on_sentinels_witness :
  Pbp.safeInteger (VStr (str "n/a")) = Pbp.TNull
  ∧ Pbp.safeNumeric (VStr (str "n/a")) = Pbp.TNull.
Proof.
  destruct coercions_null_on_sentinels
    as (_ & _ & _ & _ & _ & _ & _ & Hd).
  destruct (Hd (str "n/a")) as [Hi Hn].
  - unfold Spec.digitless. repeat constructor.
  - split; [exact Hi|]. destruct Hn as [Hn|[neg Hn]]; [exact Hn|].
    vm_compute in Hn. discriminate Hn.
Defined.

(** ** Sanitized components of the record ids *)

Lemma whitespace_not_idChar c : isWhiteSpace c = true → Odds.isIdChar c = false.
Proof.
  unfold isWhiteSpace. intros [Hin|Hr]%orb_true_iff.
  - apply bool_decide_eq_true in Hin.
    repeat (apply elem_of_cons in Hin as [->|Hin]; [reflexivity|]).
    by apply elem_of_nil in Hin.
  - apply andb_true_iff in Hr as [Hlo%N.leb_le Hhi%N.leb_le].
    unfold Odds.isIdChar, underscore.
    repeat (apply orb_false_iff; split);
      rewrite ?andb_false_iff, ?N.leb_gt, ?N.eqb_neq; lia.
Qed.

Lemma idChar_not_whitespace c : Odds.isIdChar c = true → isWhiteSpace c = false.
Proof.
  intros Hc. destruct (isWhiteSpace c) eqn:Hw; [|done].
  apply whitespace_not_idChar in Hw. congruence.
Qed.

(** A maximal run of white space becomes one underscore. *)
Lemma whitespace_run_collapses (ws rest : list N) :
  ws ≠ [] → Forall (fun c => isWhiteSpace c = true) ws →
  match rest with c :: _ => isWhiteSpace c = false | [] => True end →
  Odds.replaceWhitespaceRuns false (ws ++ rest)
  = underscore :: Odds.replaceWhitespaceRuns false rest.
Proof.
  intros Hne Hws Hrest.
  assert (Hrun : ∀ ws, Forall (fun c => isWhiteSpace c = true) ws →
            Odds.replaceWhitespaceRuns true (ws ++ rest)
            = Odds.replaceWhitespaceRuns false rest).
  { induction 1 as [|c l Hc _ IH]; simpl.
    - destruct rest as [|c r]; [done|]. simpl. by rewrite Hrest.
    - by rewrite Hc. }
  destruct Hws as [|c l Hc Hl]; [done|]. simpl. rewrite Hc.
  by rewrite Hrun.
Qed.

Lemma replaceWhitespaceRuns_id (s : list N) : ∀ inRun,
  Forall (fun c => Odds.isIdChar c = true) s →
  Odds.replaceWhitespaceRuns inRun s = s.
Proof.
  induction s as [|c s IH]; intros inRun Hs; [done|].
  apply Forall_cons in Hs as [Hc Hs]. simpl.
  rewrite (idChar_not_whitespace c Hc). by rewrite IH.
Qed.

Lemma filter_idChar_id (s : list N) :
  Forall (fun c => Odds.isIdChar c = true) s → List.filter Odds.isIdChar s = s.
Proof.
  induction 1 as [|c s Hc _ IH]; simpl; [done|]. by rewrite Hc, IH.
Qed.

Lemma sanitize_alphabet (v : value) :
  Forall (fun c => Odds.isIdChar c = true) (Odds.sanitize v).
Proof.
  apply List.Forall_forall. intros c Hc.
  unfold Odds.sanitize in Hc. by apply filter_In in Hc as [_ Hc].
Qed.

(** C9. Whatever it is given, [sanitize] returns a text over the letters,
    the digits, the underscore and the hyphen, and sanitizing its result
    again changes nothing; a name with runs of white space and punctuation
    comes out with one underscore per run and without the punctuation.
    The player and outcome parts of the id of every record built from the
    feed are the sanitized player and outcome names of that record, hence
    over that alphabet. *)
Theorem sanitize_alphabet_idempotent :
  (∀ v, Forall (fun c => Odds.isIdChar c = true) (Odds.sanitize v))
  ∧ (∀ v, Odds.sanitize (VStr (Odds.sanitize v)) = Odds.sanitize v)
  ∧ Odds.sanitize (VStr (str "Patrick  Mahomes II. (KC)"))
    = str "Patrick_Mahomes_II_KC"
  ∧ (∀ num (numToString : num → list N) numIsFinite ev seasonYear book mkt out r,
       Odds.recordOf numToString numIsFinite ev seasonYear book mkt out = Some r →
       Odds.rec_id r
       = Odds.joinWith underscore
           [ Odds.event_id r; Odds.bookmaker_key r; Odds.market_key r;
             Odds.sanitize (Odds.player_name r);
             numToString (Odds.line_value r);
             Odds.sanitize (Odds.outcome_name r) ]
       ∧ Forall (fun c => Odds.isIdChar c = true)
           (Odds.sanitize (Odds.player_name r))
       ∧ Forall (fun c => Odds.isIdChar c = true)
           (Odds.sanitize (Odds.outcome_name r))).
Proof.
  split; [exact sanitize_alphabet|]. split; [|split; [by vm_compute|]].
  - intros v. unfold Odds.sanitize at 1. cbn [String_of].
    rewrite replaceWhitespaceRuns_id by apply sanitize_alphabet.
    apply filter_idChar_id, sanitize_alphabet.
  - intros num numToString numIsFinite ev sy book mkt out r Hr.
    unfold Odds.recordOf, Odds.outcomeBody in Hr.
    destruct out as [out|]; [|done].
    destruct (truthy (Odds.description out)); [|done].
    destruct (Odds.point out) as [pt|]; [|done].
    destruct (Odds.determineBetType (Odds.name out)) as [bet|]; [|done].
    simpl in Hr. injection Hr as <-. cbn.
    split; [reflexivity|]. split; apply sanitize_alphabet.
Qed.

Lemma sanitize_alphabet_idempotent_witness :
  ∃ r, Odds.recordOf decimalZ (fun _ => true) Sample.ev (Some 2025%Z)
         Sample.book Sample.mkt (Some Sample.out) = Some r
       ∧ Odds.rec_id r
         = str "e1_draftkings_player_pass_yds_alternate_Josh_Allen_249_Over".
Proof.
  eexists. split; [reflexivity|].
  match goal with
  | |- Odds.rec_id ?r = _ =>
      rewrite (proj1 (proj2 (proj2 (proj2 sanitize_alphabet_idempotent)) Z
                 decimalZ (fun _ => true) Sample.ev (Some 2025%Z) Sample.book
                 Sample.mkt (Some Sample.out) r eq_refl))
  end.
  reflexivity.
Defined.

(** ** The window of the odds updater *)

Lemma YearFromTime_ge_1970 (t : Z) : (0 ≤ t → 1970 ≤ YearFromTime t)%Z.
Proof.
  intros Ht. unfold YearFromTime, DayFromYear, Day, msPerDay.
  repeat case_match;
    repeat match goal with
    | H : (_ <=? _)%Z = true |- _ => apply Z.leb_le in H
    | H : (_ <=? _)%Z = false |- _ => apply Z.leb_gt in H
    end;
    Z.div_mod_to_equations; lia.
Qed.

Lemma MonthFromTime_range (t : Z) : (0 ≤ MonthFromTime t ≤ 11)%Z.
Proof. unfold MonthFromTime, monthOfDay. repeat case_match; lia. Qed.

(** The day of a date whose year, month and day of the month are those of
    [t], moved by [k] days. *)
Lemma MakeDay_of_time (t k : Z) :
  MakeDay (YearFromTime t) (MonthFromTime t) (DateFromTime t + k) = (Day t + k)%Z.
Proof.
  pose proof (MonthFromTime_range t) as Hm. unfold MakeDay.
  rewrite Z.div_small, Z.mod_small, Z.add_0_r by lia.
  unfold DateFromTime, DayWithinYear. lia.
Qed.

Lemma getUpcomingGamesWindow_spec (now : Z) :
  (0 ≤ now ≤ maxTime - 4 * msPerDay)%Z →
  Odds.getUpcomingGamesWindow now
  = {| Odds.start := Some (msPerDay * (now / msPerDay))%Z;
       Odds.end_ := Some (msPerDay * (now / msPerDay) + 4 * msPerDay)%Z |}.
Proof.
  intros Hnow. unfold Odds.getUpcomingGamesWindow.
  assert (Hstart : Date_UTC (YearFromTime now) (MonthFromTime now)
                     (DateFromTime now) 0 0 0
                   = Some (msPerDay * (now / msPerDay))%Z).
  { unfold Date_UTC.
    pose proof (YearFromTime_ge_1970 now (proj1 Hnow)) as Hy.
    replace ((0 <=? YearFromTime now) && (YearFromTime now <=? 99))%Z
      with false by (symmetry; apply andb_false_iff; right; apply Z.leb_gt; lia).
    pose proof (MakeDay_of_time now 0) as Hd. rewrite Z.add_0_r in Hd.
    rewrite Hd, Z.add_0_r. unfold MakeDate, MakeTime, TimeClip, Day.
    unfold maxTime, msPerDay in *.
    rewrite Z.add_0_r, (Z.mul_comm (now / _)).
    case_match eqn:Hc; [done|]. apply Z.leb_gt in Hc.
    Z.div_mod_to_equations; lia. }
  rewrite Hstart. f_equal. unfold setUTCDate.
  set (s := (msPerDay * (now / msPerDay))%Z).
  rewrite (MakeDay_of_time s 4).
  unfold MakeDate, TimeWithinDay, TimeClip, Day, s.
  unfold maxTime, msPerDay in *.
  case_match eqn:Hc.
  - f_equal. Z.div_mod_to_equations; lia.
  - apply Z.leb_gt in Hc. Z.div_mod_to_equations; lia.
Qed.

(** The odds fetches of a run. *)
Lemma oddsRequests_app {num} (tr1 tr2 : list (Odds.event num)) :
  Spec.oddsRequests (tr1 ++ tr2)
  = Spec.oddsRequests tr1 ++ Spec.oddsRequests tr2.
Proof. unfold Spec.oddsRequests. apply omap_app. Qed.

Section OddsRequests.
Context `{DateParser}.
Context {num : Type} (numToString : num → list N) (numIsFinite : num → bool).
Context {world_state : Type}.
Variable fetchEvents : world_state → world_state * Odds.eventsFetched.
Variable fetchOdds : world_state → list N → list N
                     → world_state * Odds.oddsFetched num.
Variable upsert : world_state → list (Odds.oddsRecord num)
                  → world_state * Odds.response.
Variable e : Odds.env.

Lemma store_records_requests w records :
  Spec.oddsRequests (Odds.trace (Odds.store_records upsert e w records).1)
  = Spec.oddsRequests (Odds.trace w).
Proof.
  unfold Odds.store_records, Odds.doUpsert.
  destruct (negb (bool_decide (length records = 0))); [|done].
  destruct (negb (Odds.testMode e)); [|done].
  destruct (upsert (Odds.store w) records) as [s [| |]]; simpl;
    rewrite oddsRequests_app; simpl; by rewrite app_nil_r.
Qed.

(** The loop over the markets fetches the odds of the markets in order,
    all of them unless it is ended by an exception. *)
Lemma marketsLoop_requests ev sy mkts : ∀ w n,
  ∃ reqs,
    Spec.oddsRequests
      (Odds.trace (Odds.marketsLoop numToString numIsFinite fetchOdds upsert e
                     ev sy mkts w n).1)
    = Spec.oddsRequests (Odds.trace w) ++ reqs
    ∧ reqs `prefix_of` map (fun market => (Odds.id ev, market)) mkts
    ∧ (∀ k, (Odds.marketsLoop numToString numIsFinite fetchOdds upsert e
               ev sy mkts w n).2 = inl k →
            reqs = map (fun market => (Odds.id ev, market)) mkts).
Proof.
  induction mkts as [|m mkts IH]; intros w n.
  - exists []. simpl. by rewrite app_nil_r.
  - cbn [Odds.marketsLoop]. unfold Odds.doFetchOdds, Odds.doSleep.
    cbn [Odds.store Odds.trace].
    destruct (fetchOdds (Odds.store w) (Odds.id ev) m) as [s r].
    assert (Hhere : ∀ s0 : world_state,
              Spec.oddsRequests
                (Odds.trace {| Odds.store := s0;
                               Odds.trace := (Odds.trace w ++ [Odds.EvSleep 400])
                                             ++ [Odds.EvFetchOdds (Odds.id ev) m] |})
              = Spec.oddsRequests (Odds.trace w) ++ [(Odds.id ev, m)]).
    { intros s0. cbn [Odds.trace]. rewrite !oddsRequests_app. simpl.
      by rewrite app_nil_r. }
    destruct r as [msg|st|bks].
    + exists [(Odds.id ev, m)]. cbn [fst snd]. split; [apply Hhere|].
      split; [|done]. simpl. apply prefix_cons, prefix_nil.
    + destruct (IH {| Odds.store := s;
                      Odds.trace := (Odds.trace w ++ [Odds.EvSleep 400])
                                    ++ [Odds.EvFetchOdds (Odds.id ev) m] |} n)
        as (reqs & Htr & Hpre & Hall).
      exists ((Odds.id ev, m) :: reqs). rewrite Htr, Hhere, <- app_assoc.
      split; [done|]. split; [simpl; by apply prefix_cons|].
      intros k Hk. simpl. f_equal. by apply (Hall k).
    + destruct (Odds.recordsOf numToString numIsFinite ev sy (default [] bks))
        as [records|].
      * destruct (Odds.store_records upsert e
                    {| Odds.store := s;
                       Odds.trace := (Odds.trace w ++ [Odds.EvSleep 400])
                                     ++ [Odds.EvFetchOdds (Odds.id ev) m] |}
                    records) as [w1 lines] eqn:Hst.
        pose proof (store_records_requests
                      {| Odds.store := s;
                         Odds.trace := (Odds.trace w ++ [Odds.EvSleep 400])
                                       ++ [Odds.EvFetchOdds (Odds.id ev) m] |}
                      records) as Hsr.
        rewrite Hst, Hhere in Hsr. cbn [fst] in Hsr.
        destruct (IH w1 (n + lines)) as (reqs & Htr & Hpre & Hall).
        exists ((Odds.id ev, m) :: reqs). rewrite Htr, Hsr, <- app_assoc.
        split; [done|]. split; [simpl; by apply prefix_cons|].
        intros k Hk. simpl. f_equal. by apply (Hall k).
      * exists [(Odds.id ev, m)]. cbn [fst snd]. split; [apply Hhere|].
        split; [|done]. simpl. apply prefix_cons, prefix_nil.
Qed.

(** The loop over the events fetches the odds of its events in order. *)
Lemma eventsLoop_requests events : ∀ w c,
  ∃ reqs,
    Spec.oddsRequests
      (Odds.trace (Odds.eventsLoop numToString numIsFinite fetchOdds upsert e
                     events w c).1)
    = Spec.oddsRequests (Odds.trace w) ++ reqs
    ∧ reqs `prefix_of` Spec.requestsFor events
    ∧ (∀ c', (Odds.eventsLoop numToString numIsFinite fetchOdds upsert e
                events w c).2 = inl c' →
             reqs = Spec.requestsFor events).
Proof.
  induction events as [|ev events IH]; intros w c.
  - exists []. simpl. by rewrite app_nil_r.
  - cbn [Odds.eventsLoop].
    change (Spec.requestsFor (ev :: events))
      with (map (fun market => (Odds.id ev, market)) Odds.ALTERNATE_MARKETS
            ++ Spec.requestsFor events).
    destruct (marketsLoop_requests ev
                (Odds.getSeasonYear (Date_of (Odds.commence_time ev)))
                Odds.ALTERNATE_MARKETS w 0) as (reqs1 & Htr1 & Hpre1 & Hall1).
    destruct (Odds.marketsLoop _ _ _ _ _ _ _ _ _ _) as [w1 [n|err]];
      cbn [fst snd] in *.
    + rewrite (Hall1 n eq_refl) in Htr1.
      match goal with
      | |- context [Odds.eventsLoop _ _ _ _ _ events w1 ?c1] =>
          destruct (IH w1 c1) as (reqs & Htr & Hpre & Hall)
      end.
      exists (map (fun market => (Odds.id ev, market)) Odds.ALTERNATE_MARKETS
              ++ reqs).
      rewrite Htr, Htr1, <- app_assoc. split; [done|].
      split; [by apply prefix_app|].
      intros c' Hc'. f_equal. by apply (Hall c').
    + exists reqs1. split; [done|]. split; [by apply prefix_app_r|done].
Qed.

End OddsRequests.

(** A run that gets the events works on those of the window. *)
Lemma runUpdater_window_events `{DateParser} (now : Z) num
    (numToString : num → list N) numIsFinite world_state
    (fetchEvents : world_state → _) fetchOdds upsert testMode
    (wd : Odds.world num world_state) st allEvents :
  (0 ≤ now ≤ maxTime - 4 * msPerDay)%Z →
  Odds.isInSeason now = true ∨ testMode = true →
  fetchEvents (Odds.store wd) = (st, Odds.EventsOk allEvents) →
  ((Odds.runUpdater numToString numIsFinite fetchEvents fetchOdds upsert
      {| Odds.testMode := testMode; Odds.now := now |} wd).2 = Odds.NoGames
   ↔ List.filter
       (fun ev => match Date_of (Odds.commence_time ev) with
                  | Some t =>
                      bool_decide (msPerDay * (now / msPerDay) ≤ t
                                   < msPerDay * (now / msPerDay)
                                     + 4 * msPerDay)%Z
                  | None => false
                  end) allEvents = [])
  ∧ ∃ reqs,
      Spec.oddsRequests
        (Odds.trace
           (Odds.runUpdater numToString numIsFinite fetchEvents fetchOdds
              upsert {| Odds.testMode := testMode; Odds.now := now |} wd).1)
      = Spec.oddsRequests (Odds.trace wd) ++ reqs
      ∧ reqs `prefix_of`
          Spec.requestsFor
            (List.filter
               (fun ev => match Date_of (Odds.commence_time ev) with
                          | Some t =>
                              bool_decide (msPerDay * (now / msPerDay) ≤ t
                                           < msPerDay * (now / msPerDay)
                                             + 4 * msPerDay)%Z
                          | None => false
                          end) allEvents)
      ∧ (∀ n withData noData total mode,
           (Odds.runUpdater numToString numIsFinite fetchEvents fetchOdds
              upsert {| Odds.testMode := testMode; Odds.now := now |} wd).2
           = Odds.Completed n withData noData total mode →
           n = length
                 (List.filter
                    (fun ev => match Date_of (Odds.commence_time ev) with
                               | Some t =>
                                   bool_decide
                                     (msPerDay * (now / msPerDay) ≤ t
                                      < msPerDay * (now / msPerDay)
                                        + 4 * msPerDay)%Z
                               | None => false
                               end) allEvents)
           ∧ reqs
             = Spec.requestsFor
                 (List.filter
                    (fun ev => match Date_of (Odds.commence_time ev) with
                               | Some t =>
                                   bool_decide
                                     (msPerDay * (now / msPerDay) ≤ t
                                      < msPerDay * (now / msPerDay)
                                        + 4 * msPerDay)%Z
                               | None => false
                               end) allEvents)).
Proof.
  intros Hnow Hguard Hfetch.
  set (s := (msPerDay * (now / msPerDay))%Z).
  set (events :=
       List.filter
         (fun ev => match Date_of (Odds.commence_time ev) with
                    | Some t => bool_decide (s ≤ t < s + 4 * msPerDay)%Z
                    | None => false
                    end) allEvents).
  assert (Hwin : ∀ ct t, Date_of ct = Some t →
          Odds.inWindow {| Odds.start := Some s;
                           Odds.end_ := Some (s + 4 * msPerDay)%Z |} ct = true
          ↔ (s ≤ t < s + 4 * msPerDay)%Z).
  { intros ct t Ht. unfold Odds.inWindow. rewrite Ht. cbn.
  rewrite andb_true_iff, Z.leb_le, Z.ltb_lt. tauto. }
  assert (Hfilter :
    List.filter
      (fun ev => Odds.inWindow {| Odds.start := Some s;
                                  Odds.end_ := Some (s + 4 * msPerDay)%Z |}
                   (Odds.commence_time ev)) allEvents = events).
  { subst events. apply List.filter_ext. intros ev.
    destruct (Date_of (Odds.commence_time ev)) as [t|] eqn:Ht.
    - destruct (Odds.inWindow _ _) eqn:Hin.
      + apply (Hwin _ t Ht) in Hin. by rewrite bool_decide_eq_true_2.
      + rewrite bool_decide_eq_false_2; [done|].
        intros Hint. apply (Hwin _ t Ht) in Hint. congruence.
    - unfold Odds.inWindow. by rewrite Ht. }
  unfold Odds.runUpdater. cbn [Odds.now Odds.testMode].
  rewrite getUpcomingGamesWindow_spec by done. fold s.
  replace (negb (Odds.isInSeason now) && negb testMode) with false
    by (destruct Hguard as [-> | ->]; by rewrite ?andb_false_r).
  unfold Odds.doFetchEvents. rewrite Hfetch, Hfilter.
  assert (Hev : Spec.oddsRequests (Odds.trace wd ++ [Odds.EvFetchEvents])
                = Spec.oddsRequests (Odds.trace wd)).
  { rewrite oddsRequests_app. simpl. by rewrite app_nil_r. }
  case_bool_decide as Hlen.
  + cbn [fst snd Odds.trace]. split.
    * split; [intros _; by apply nil_length_inv|done].
    * exists []. rewrite Hev, app_nil_r. split; [done|].
      split; [apply prefix_nil|]. intros; discriminate.
  + pose proof (eventsLoop_requests numToString numIsFinite fetchOdds upsert
                  {| Odds.testMode := testMode; Odds.now := now |} events
                  {| Odds.store := st;
                     Odds.trace := Odds.trace wd ++ [Odds.EvFetchEvents] |}
                  {| Odds.totalInserted := 0; Odds.withData := 0;
                     Odds.noData := 0 |}) as (reqs & Htr & Hpre & Hall).
    cbn [Odds.trace] in Htr. rewrite Hev in Htr.
    destruct (Odds.eventsLoop _ _ _ _ _ _ _ _) as [w1 [c|err]];
      cbn [fst snd] in *.
    * split.
      { split; [discriminate|]. intros Hnil. rewrite Hnil in Hlen. done. }
      exists reqs. split; [done|]. split; [done|].
      intros n a b c0 m [= <- _ _ _ _]. split; [done|]. by apply (Hall c).
    * split.
      { split; [discriminate|]. intros Hnil. rewrite Hnil in Hlen. done. }
      exists reqs. split; [done|]. split; [done|]. intros; discriminate.
Qed.

(** C6. The window of the odds updater starts at the UTC midnight of the
    day of the run and ends four days later, and the filter admits an
    event exactly when its [commence_time] lies in the half-open interval
    from the start to the end: an event at the start is admitted, an
    event before the start is excluded (one millisecond before it, for
    instance), and an event at the end is excluded.  A run that passes
    the season test and gets the events works on exactly the events of
    that interval: it reports no games exactly when there is none, it
    fetches odds for these events only, in their order, each market of
    each event unless an exception ends the run, and a completed run
    counts them as the events processed. *)
Theorem odds_window_half_open `{DateParser} (now : Z) :
  (0 ≤ now ≤ maxTime - 4 * msPerDay)%Z →
  let w := Odds.getUpcomingGamesWindow now in
  let s := (msPerDay * (now / msPerDay))%Z in
  Odds.start w = Some s
  ∧ Odds.end_ w = Some (s + 4 * msPerDay)%Z
  ∧ (∀ commence_time t,
      Date_of commence_time = Some t →
      (Odds.inWindow w commence_time = true ↔ (s ≤ t < s + 4 * msPerDay)%Z)
      ∧ (t = s → Odds.inWindow w commence_time = true)
      ∧ (t = (s - 1)%Z → Odds.inWindow w commence_time = false)
      ∧ ((t < s)%Z → Odds.inWindow w commence_time = false)
      ∧ (t = (s + 4 * msPerDay)%Z → Odds.inWindow w commence_time = false))
  ∧ (∀ num (numToString : num → list N) numIsFinite world_state
       (fetchEvents : world_state → _) fetchOdds upsert testMode
       (wd : Odds.world num world_state) st allEvents,
       Odds.isInSeason now = true ∨ testMode = true →
       fetchEvents (Odds.store wd) = (st, Odds.EventsOk allEvents) →
       let events :=
         List.filter
           (fun ev => match Date_of (Odds.commence_time ev) with
                      | Some t => bool_decide (s ≤ t < s + 4 * msPerDay)%Z
                      | None => false
                      end) allEvents in
       let run :=
         Odds.runUpdater numToString numIsFinite fetchEvents fetchOdds upsert
           {| Odds.testMode := testMode; Odds.now := now |} wd in
       (run.2 = Odds.NoGames ↔ events = [])
       ∧ ∃ reqs,
           Spec.oddsRequests (Odds.trace run.1)
           = Spec.oddsRequests (Odds.trace wd) ++ reqs
           ∧ reqs `prefix_of` Spec.requestsFor events
           ∧ (∀ n withData noData total mode,
                run.2 = Odds.Completed n withData noData total mode →
                n = length events ∧ reqs = Spec.requestsFor events)).
Proof.
  intros Hnow w s. subst w.
  rewrite getUpcomingGamesWindow_spec by done. fold s. cbn [Odds.start Odds.end_].
  split; [done|]. split; [done|].
  assert (Hwin : ∀ ct t, Date_of ct = Some t →
            Odds.inWindow {| Odds.start := Some s;
                             Odds.end_ := Some (s + 4 * msPerDay)%Z |} ct = true
            ↔ (s ≤ t < s + 4 * msPerDay)%Z).
  { intros ct t Ht. unfold Odds.inWindow. rewrite Ht. cbn.
    rewrite andb_true_iff, Z.leb_le, Z.ltb_lt. tauto. }
  split.
  - intros ct t Ht. pose proof (Hwin ct t Ht) as Hiff.
    split; [exact Hiff|].
    repeat split; intros Hc.
    + apply Hiff. unfold msPerDay. lia.
    + apply not_true_is_false. rewrite Hiff. lia.
    + apply not_true_is_false. rewrite Hiff. lia.
    + apply not_true_is_false. rewrite Hiff. lia.
  - intros num numToString numIsFinite world_state fetchEvents fetchOdds
      upsert testMode wd st allEvents Hguard Hfetch. cbv zeta.
    exact (runUpdater_window_events now num numToString numIsFinite
             world_state fetchEvents fetchOdds upsert testMode wd st allEvents
             Hnow Hguard Hfetch).
Qed.

(** The run of 2 November 2025, 18:30 UTC: the game kicking off at
    midnight UTC that day is in the window. *)
Lemma odds_window_half_open_witness :
  Odds.inWindow (Odds.getUpcomingGamesWindow Sample.inSeasonTime)
    (VStr (str "2025-11-02T00:00:00Z")) = true.
Proof.
  refine (proj1 (proj2 (proj1 (proj2 (proj2 (odds_window_half_open
            (H := iso_parser) Sample.inSeasonTime _)))
            (VStr (str "2025-11-02T00:00:00Z"))
            1762041600000%Z eq_refl)) eq_refl).
  vm_compute. split; discriminate.
Defined.

(** The same run when the collaborator lists an event that starts at
    the end of the window before the game of 2 November 2025, 18:00 UTC:
    odds are fetched for the latter only, and one event is processed. *)
Example odds_run_leaves_out_event_at_end :
  Spec.oddsRequests
    (Odds.trace
       (Odds.runUpdater decimalZ (fun _ => true) Feed.oddsFetchTwoEvents
          Feed.oddsFetchOdds Feed.oddsUpsert Feed.oddsEnv Feed.oddsWorld).1)
  = Spec.requestsFor [Sample.ev]
  ∧ ∃ withData noData total,
      (Odds.runUpdater decimalZ (fun _ => true) Feed.oddsFetchTwoEvents
         Feed.oddsFetchOdds Feed.oddsUpsert Feed.oddsEnv Feed.oddsWorld).2
      = Odds.Completed 1 withData noData total false.
Proof. split; [vm_compute; reflexivity|]. eexists _, _, _. vm_compute. reflexivity. Qed.

(** ** Batches *)

Lemma chunksFrom_enough {A} (n : nat) : ∀ f1 f2 (l : list A),
  0 < n → length l ≤ f1 → length l ≤ f2 →
  Spec.chunksFrom f1 n l = Spec.chunksFrom f2 n l.
Proof.
  induction f1 as [|f1 IH]; intros f2 l Hn H1 H2.
  - destruct l; [by destruct f2|simpl in H1; lia].
  - destruct l as [|x l]; [by destruct f2|].
    destruct f2 as [|f2]; [simpl in H2; lia|].
    cbn [Spec.chunksFrom]. f_equal.
    apply IH; [done| |]; rewrite length_drop; simpl in *; lia.
Qed.

(** The batches of a non-empty list: its first [n] elements, then the
    batches of the rest. *)
Lemma chunks_step {A} (n : nat) (l : list A) :
  0 < n → l ≠ [] →
  Spec.chunks n l = take n l :: Spec.chunks n (drop n l).
Proof.
  intros Hn Hl. unfold Spec.chunks.
  destruct l as [|x l]; [done|]. cbn [length Spec.chunksFrom]. f_equal.
  apply chunksFrom_enough; [done| |done].
  rewrite length_drop. simpl. lia.
Qed.


(** Every batch but the last holds [n] elements and none is empty. *)
Lemma chunks_sizes {A} (n : nat) (l : list A) :
  0 < n →
  Forall (fun b => 0 < length b ≤ n) (Spec.chunks n l)
  ∧ ∀ i b, i + 1 < length (Spec.chunks n l) →
           Spec.chunks n l !! i = Some b → length b = n.
Proof.
  intros Hn. remember (length l) as m eqn:Hm.
  revert l Hm. induction (lt_wf m) as [m _ IH]. intros l ->.
  destruct l as [|x l]; [split; [constructor|intros i b; simpl; lia]|].
  rewrite chunks_step by done.
  destruct (IH (length (drop n (x :: l)))) with (l := drop n (x :: l))
    as [Hall Hfull]; [rewrite length_drop; simpl; lia|done|].
  split.
  - constructor; [|done]. rewrite length_take. simpl. lia.
  - intros [|i] b Hi Hb; simpl in *.
    + injection Hb as <-. rewrite length_take.
      destruct (Spec.chunks n (drop n (x :: l))) as [|c cs] eqn:Hc;
        [simpl in Hi; lia|].
      assert (Hne : drop n (x :: l) ≠ []) by (intros E; by rewrite E in Hc).
      assert (0 < length (drop n (x :: l)))
        by (destruct (drop n (x :: l)); [done|simpl; lia]).
      rewrite length_drop in *. simpl in *. lia.
    + apply (Hfull i b); [lia|done].
Qed.

Lemma upserts_snoc_upsert tr table batch onConflict answer :
  Spec.upserts (tr ++ [Pbp.EvUpsert table batch onConflict answer])
  = Spec.upserts tr ++ [(batch, answer)].
Proof. unfold Spec.upserts. by rewrite omap_app. Qed.

Lemma upserts_snoc_sleep tr ms :
  Spec.upserts (tr ++ [Pbp.EvSleep ms]) = Spec.upserts tr.
Proof. unfold Spec.upserts. rewrite omap_app. simpl. by rewrite app_nil_r. Qed.


Section BatchLoop.
Context {db : Type}.
Variable upsert : db → list N → list Pbp.typedRecord → list N
                  → db * Pbp.response.
Hypothesis no_throw : Spec.reportsErrors upsert.
Variable plays : list Pbp.typedRecord.


End BatchLoop.

Section BatchLoop2.
Context {db : Type}.
Variable upsert : db → list N → list Pbp.typedRecord → list N
                  → db * Pbp.response.
Hypothesis no_throw : Spec.reportsErrors upsert.
Variable plays : list Pbp.typedRecord.


End BatchLoop2.



(** The same run, computed: 250 attempted, 150 successful, 100 failed and
    the line of batch 2; the third batch was submitted after the failure. *)
Example second_batch_fails_run :
  match Pbp.update Sample.flakyUpsert Sample.liveEnv Sample.freshWorld
          Sample.plays250 with
  | Some (w', r) =>
      r = {| Pbp.attempted := 250; Pbp.successful := 150; Pbp.failed := 100;
             Pbp.errors := [str "Batch 2: timeout"] |}
      ∧ map (fun c => (length c.1, c.2)) (Spec.upserts (Pbp.trace w'))
        = [(100, Pbp.UpsertOk); (100, Pbp.UpsertError (str "timeout"));
           (50, Pbp.UpsertOk)]
  | None => False
  end.
Proof. vm_compute. split; reflexivity. Qed.

(** When the collaborator throws instead, the loop of [index.js] stops:
    the third batch is never submitted and the summary counts every
    record as failed. *)
Example second_batch_throws_run :
  match Pbp.update Sample.throwingUpsert Sample.liveEnv Sample.freshWorld
          Sample.plays250 with
  | Some (w', r) =>
      r = {| Pbp.attempted := 250; Pbp.successful := 0; Pbp.failed := 250;
             Pbp.errors := [str "Update exception: socket hang up"] |}
      ∧ map (fun c => (length c.1, c.2)) (Spec.upserts (Pbp.trace w'))
        = [(100, Pbp.UpsertOk);
           (100, Pbp.UpsertThrows (str "socket hang up"))]
  | None => False
  end.
Proof. vm_compute. split; reflexivity. Qed.

(** The run of the later revision on the feed of 120 plays, the
    collaborator failing the second batch: the first batch is processed,
    the second is counted as failed, and the run is no success. *)
Example second_batch_fails_later_run :
  match Pbp2.runUpdater Sample.flakyUpsert Sample.liveEnv Feed.fetch
          Sample.freshWorld with
  | Some (w', r) =>
      r = Pbp2.Finished false 100 20
      ∧ map (fun c => (length c.1, c.2)) (Spec.upserts (Pbp.trace w'))
        = [(100, Pbp.UpsertOk); (20, Pbp.UpsertError (str "timeout"))]
  | None => False
  end.
Proof. vm_compute. split; reflexivity. Qed.

(** ** The runs return *)

(** The fuel given to the batch loops suffices, whatever the collaborator
    answers: the models of [runUpdater] always return a result. *)
Lemma upsertLoop_total {db} (upsert : db → _ → _ → _ → db * Pbp.response)
    plays : ∀ fuel i st,
  length plays - i ≤ fuel → is_Some (Pbp.upsertLoop upsert fuel plays i st).
Proof.
  induction fuel as [|fuel IH]; intros i st Hfuel; cbn [Pbp.upsertLoop];
    case_bool_decide as Hi; try done; [lia|].
  destruct (Pbp.doUpsert _ _ _ _ _) as [w answer].
  destruct answer; try done; apply IH; unfold Pbp.batchSize; lia.
Qed.

Lemma upsertLoop2_total {db} (upsert : db → _ → _ → _ → db * Pbp.response)
    plays : ∀ fuel i st,
  length plays - i ≤ fuel → is_Some (Pbp2.upsertLoop upsert fuel plays i st).
Proof.
  induction fuel as [|fuel IH]; intros i st Hfuel; cbn [Pbp2.upsertLoop];
    case_bool_decide as Hi; try done; [lia|].
  destruct (Pbp.doUpsert _ _ _ _ _) as [w answer].
  destruct answer; try done; apply IH; unfold Pbp.batchSize; lia.
Qed.

Lemma runUpdater_total `{DateParser} {db}
    (upsert : db → _ → _ → _ → db * Pbp.response) e fetch w :
  is_Some (Pbp.runUpdater upsert e fetch w)
  ∧ is_Some (Pbp2.runUpdater upsert e fetch w).
Proof.
  split.
  - unfold Pbp.runUpdater, Pbp.update.
    repeat case_match; try done;
      match goal with
      | H : Pbp.upsertLoop ?u ?f ?p ?i ?st = None |- _ =>
          destruct (upsertLoop_total u p f i st) as [? ?]; [lia|congruence]
      end.
  - unfold Pbp2.runUpdater.
    repeat case_match; try done;
      match goal with
      | H : Pbp2.upsertLoop ?u ?f ?p ?i ?st = None |- _ =>
          destruct (upsertLoop2_total u p f i st) as [? ?]; [lia|congruence]
      end.
Qed.

(** ** The calendar *)

(** [YearFromTime] is ECMAScript's: the year of [t] starts on or before
    the day of [t], and the next year after it. *)
Lemma YearFromTime_spec (t : Z) :
  (DayFromYear (YearFromTime t) ≤ Day t < DayFromYear (YearFromTime t + 1))%Z.
Proof.
  unfold YearFromTime. set (d := Day t). clearbody d.
  unfold DayFromYear.
  repeat case_match;
    repeat match goal with
    | H : (_ <=? _)%Z = true |- _ => apply Z.leb_le in H
    | H : (_ <=? _)%Z = false |- _ => apply Z.leb_gt in H
    end;
    Z.div_mod_to_equations; lia.
Qed.

(** * Further properties of the code *)

(** ** Trimming *)

Lemma trimStart_head (s : list N) :
  match trimStart s with c :: _ => isWhiteSpace c = false | [] => True end.
Proof.
  induction s as [|c s IH]; simpl; [done|].
  destruct (isWhiteSpace c) eqn:Hc; [done|]. simpl. exact Hc.
Qed.

Lemma trimStart_fixed (s : list N) :
  match s with c :: _ => isWhiteSpace c = false | [] => True end →
  trimStart s = s.
Proof. destruct s as [|c s]; simpl; [done|]. by intros ->. Qed.

Lemma trimStart_snoc (l : list N) (c : N) :
  isWhiteSpace c = false → ∃ t, trimStart (l ++ [c]) = t ++ [c].
Proof.
  intros Hc. induction l as [|x l [t IH]]; simpl.
  - rewrite Hc. by exists [].
  - destruct (isWhiteSpace x); [by exists t|]. by exists (x :: l).
Qed.

Lemma trimStart_elem (x : N) (s : list N) : x ∈ trimStart s → x ∈ s.
Proof.
  induction s as [|c s IH]; simpl; [done|].
  destruct (isWhiteSpace c); [|done]. intros Hx. right. by apply IH.
Qed.

Lemma trim_elem (x : N) (s : list N) : x ∈ trim s → x ∈ s.
Proof.
  unfold trim. rewrite list_elem_of_In, <- in_rev, <- list_elem_of_In.
  intros Hx%trimStart_elem.
  rewrite list_elem_of_In, <- in_rev, <- list_elem_of_In in Hx.
  by apply trimStart_elem.
Qed.

(** A trimmed text neither starts nor ends with white space. *)
Lemma trim_ends (s : list N) :
  match trim s with c :: _ => isWhiteSpace c = false | [] => True end
  ∧ match rev (trim s) with c :: _ => isWhiteSpace c = false | [] => True end.
Proof.
  unfold trim. split.
  - pose proof (trimStart_head s) as Hs.
    destruct (trimStart s) as [|c r]; [done|].
    change (rev (c :: r)) with (rev r ++ [c]).
    destruct (trimStart_snoc (rev r) c Hs) as [t ->].
    by rewrite rev_app_distr.
  - rewrite rev_involutive. apply trimStart_head.
Qed.

Lemma trim_fixed (s : list N) :
  match s with c :: _ => isWhiteSpace c = false | [] => True end →
  match rev s with c :: _ => isWhiteSpace c = false | [] => True end →
  trim s = s.
Proof.
  intros Hs Hr. unfold trim.
  by rewrite (trimStart_fixed s Hs), (trimStart_fixed (rev s) Hr), rev_involutive.
Qed.

Lemma trim_idempotent (s : list N) : trim (trim s) = trim s.
Proof. destruct (trim_ends s). by apply trim_fixed. Qed.

(** ** Splitting lines *)

Lemma split_nonempty (sep : N) (s : list N) : split sep s ≠ [].
Proof.
  destruct s as [|c s]; simpl; [done|].
  destruct (c =? sep)%N; [done|]. by destruct (split sep s).
Qed.

Lemma split_length (sep : N) (s : list N) :
  length (split sep s) = S (length (List.filter (N.eqb sep) s)).
Proof.
  induction s as [|c s IH]; simpl; [done|].
  rewrite (N.eqb_sym sep c). destruct (c =? sep)%N; simpl; [by rewrite IH|].
  pose proof (split_nonempty sep s).
  destruct (split sep s); [done|]. exact IH.
Qed.

Lemma split_elem (sep x : N) (s p : list N) :
  p ∈ split sep s → x ∈ p → x ∈ s.
Proof.
  revert p. induction s as [|c s IH]; intros p; simpl.
  - intros ->%list_elem_of_singleton. by intros ?%elem_of_nil.
  - destruct (c =? sep)%N.
    + intros [->|Hp]%elem_of_cons Hx; [by apply elem_of_nil in Hx|].
      right. by apply (IH p).
    + pose proof (split_nonempty sep s) as Hne.
      destruct (split sep s) as [|h t]; [done|].
      intros [->|Hp]%elem_of_cons Hx.
      * apply elem_of_cons in Hx as [->|Hx]; [by left|].
        right. apply (IH h); [by left|done].
      * right. apply (IH p); [by right|done].
Qed.

Lemma split_no_sep (sep : N) (s p : list N) : p ∈ split sep s → sep ∉ p.
Proof.
  revert p. induction s as [|c s IH]; intros p; simpl.
  - intros ->%list_elem_of_singleton. apply not_elem_of_nil.
  - destruct (N.eqb_spec c sep) as [->|Hc].
    + intros [->|Hp]%elem_of_cons; [apply not_elem_of_nil|by apply IH].
    + pose proof (split_nonempty sep s) as Hne.
      destruct (split sep s) as [|h t]; [done|].
      intros [->|Hp]%elem_of_cons.
      * apply not_elem_of_cons. split; [done|]. apply IH. by left.
      * apply IH. by right.
Qed.

Lemma removeAll_absent (c : N) (s : list N) : c ∉ s → removeAll c s = s.
Proof.
  unfold removeAll. induction s as [|x s IH]; [done|].
  intros [Hx Hs]%not_elem_of_cons.
  rewrite filter_cons_True by done. by rewrite IH.
Qed.

(** The scanner outside quotes on a text without quotes: it splits at
    the commas. *)
Lemma scan_without_quotes (line : list N) : ∀ vs cur,
  quote ∉ line →
  ∀ st, st = foldl Pbp.scanChar
               {| Pbp.values := vs; Pbp.current := cur; Pbp.inQuotes := false |}
               line →
  Pbp.values st ++ [trim (Pbp.current st)]
  = vs ++ map trim (match split comma line with
                    | h :: t => (cur ++ h) :: t
                    | [] => [cur]
                    end).
Proof.
  induction line as [|c line IH]; intros vs cur Hq st ->; simpl.
  - by rewrite app_nil_r.
  - apply not_elem_of_cons in Hq as [Hc Hq].
    destruct (N.eqb_spec c comma) as [->|Hcomma].
    + change (Pbp.scanChar {| Pbp.values := vs; Pbp.current := cur;
                              Pbp.inQuotes := false |} comma)
        with {| Pbp.values := vs ++ [trim cur]; Pbp.current := [];
                Pbp.inQuotes := false |}.
      rewrite (IH (vs ++ [trim cur]) [] Hq _ eq_refl).
      pose proof (split_nonempty comma line).
      destruct (split comma line); [done|].
      by rewrite app_nil_r, <- app_assoc.
    + assert (Hstep : Pbp.scanChar {| Pbp.values := vs; Pbp.current := cur;
                                      Pbp.inQuotes := false |} c
                      = {| Pbp.values := vs; Pbp.current := cur ++ [c];
                           Pbp.inQuotes := false |}).
      { unfold Pbp.scanChar. simpl.
        destruct (N.eqb_spec c quote) as [->|_]; [done|].
        by destruct (N.eqb_spec c comma). }
      rewrite Hstep, (IH vs (cur ++ [c]) Hq _ eq_refl).
      pose proof (split_nonempty comma line).
      destruct (split comma line); [done|].
      by rewrite <- app_assoc.
Qed.

(** X1. On a line without double quotes the quote-aware tokenizer is the
    plain split at the commas followed by trimming, so it yields one token
    more than the line has commas, and the header splitter and the
    tokenizer agree on such a line. *)
Theorem tokenize_without_quotes (line : list N) :
  quote ∉ line →
  Pbp.tokenize line = map trim (split comma line)
  ∧ Pbp.parseHeaders line = Pbp.tokenize line
  ∧ length (Pbp.tokenize line) = S (length (List.filter (N.eqb comma) line)).
Proof.
  intros Hq.
  assert (Ht : Pbp.tokenize line = map trim (split comma line)).
  { unfold Pbp.tokenize, Pbp.scanStart.
    rewrite (scan_without_quotes line [] [] Hq _ eq_refl). simpl.
    pose proof (split_nonempty comma line). by destruct (split comma line). }
  split; [exact Ht|]. split.
  - rewrite Ht. unfold Pbp.parseHeaders. apply map_ext_in.
    intros h Hh%list_elem_of_In. apply removeAll_absent.
    intros Hx%trim_elem. apply Hq. by apply (split_elem comma quote line h).
  - by rewrite Ht, length_map, split_length.
Qed.

Lemma tokenize_without_quotes_witness :
  Pbp.tokenize Sample.goodLine1
  = map trim (split comma Sample.goodLine1).
Proof.
  apply (proj1 (tokenize_without_quotes Sample.goodLine1
    ltac:(vm_compute; intros Hin;
          repeat (apply elem_of_cons in Hin as [Hin|Hin]; [discriminate Hin|]);
          by apply elem_of_nil in Hin))).
Defined.

(** The scanner keeps its tokens trimmed and free of quotes. *)
Lemma scan_tokens_clean (line : list N) : ∀ st,
  Forall (fun t => trim t = t ∧ quote ∉ t) (Pbp.values st) →
  quote ∉ Pbp.current st →
  Forall (fun t => trim t = t ∧ quote ∉ t)
    (Pbp.values (foldl Pbp.scanChar st line))
  ∧ quote ∉ Pbp.current (foldl Pbp.scanChar st line).
Proof.
  induction line as [|c line IH]; intros st Hv Hc; simpl; [done|].
  apply IH; unfold Pbp.scanChar;
    destruct (N.eqb_spec c quote) as [->|Hq]; simpl; try done;
    destruct ((c =? comma)%N && negb (Pbp.inQuotes st)); simpl; try done.
  - apply Forall_app. split; [done|]. constructor; [|constructor].
    split; [apply trim_idempotent|]. by intros ?%trim_elem.
  - apply not_elem_of_nil.
  - apply not_elem_of_app. split; [done|].
    apply not_elem_of_cons. split; [done|apply not_elem_of_nil].
Qed.

Lemma tokenize_clean (line : list N) :
  Forall (fun t => trim t = t ∧ quote ∉ t) (Pbp.tokenize line).
Proof.
  unfold Pbp.tokenize.
  destruct (scan_tokens_clean line Pbp.scanStart) as [Hv Hc];
    [constructor|apply not_elem_of_nil|].
  apply Forall_app. split; [done|]. constructor; [|constructor].
  split; [apply trim_idempotent|]. by intros ?%trim_elem.
Qed.

(** X2. Whatever the line, every token of the tokenizer is trimmed (it
    neither starts nor ends with white space) and holds no double quote,
    there is at least one token, and no header name holds a double quote
    or a comma. *)
Theorem tokens_trimmed_and_unquoted (line : list N) :
  Forall (fun t => trim t = t ∧ quote ∉ t) (Pbp.tokenize line)
  ∧ 0 < length (Pbp.tokenize line)
  ∧ Forall (fun h => (quote ∉ h) ∧ (comma ∉ h)) (Pbp.parseHeaders line).
Proof.
  split; [|split].
  - apply tokenize_clean.
  - unfold Pbp.tokenize. rewrite length_app. simpl. lia.
  - unfold Pbp.parseHeaders. apply List.Forall_forall.
    intros h (p & <- & Hp%list_elem_of_In)%in_map_iff.
    unfold removeAll. split.
    + intros [Hne _]%list_elem_of_filter. done.
    + intros [_ Hx%trim_elem]%list_elem_of_filter.
      by apply (split_no_sep comma line p).
Qed.

(** ** Rows *)

Lemma makeRow_step_cells (l : list (list N * list N)) : ∀ (r : gmap (list N) value),
  map_Forall (fun _ c => c = VNull ∨ ∃ s, c = VStr s ∧ s ≠ []) r →
  map_Forall (fun _ c => c = VNull ∨ ∃ s, c = VStr s ∧ s ≠ [])
    (foldl (fun (r : gmap (list N) value) '(header, v) =>
              <[header := or_else (VStr v) VNull]> r) r l).
Proof.
  induction l as [|[h v] l IH]; intros r Hr; simpl; [done|].
  apply IH. apply map_Forall_insert_2; [|done].
  unfold or_else. simpl. case_bool_decide as Hv; simpl; [by left|].
  right. by exists v.
Qed.

Lemma makeRow_step_absent (k : list N) (l : list (list N * list N)) :
  ∀ (r : gmap (list N) value),
  k ∉ l.*1 →
  foldl (fun (r : gmap (list N) value) '(header, v) =>
           <[header := or_else (VStr v) VNull]> r) r l !! k = r !! k.
Proof.
  induction l as [|[h v] l IH]; intros r Hk; simpl; [done|].
  simpl in Hk. apply not_elem_of_cons in Hk as [Hne Hk].
  rewrite IH by done. by rewrite lookup_insert_ne.
Qed.

(** X3. At every name that a plain object does not inherit from
    [Object.prototype], a row built from a line holds under a header the
    cell of the last column with that header, or null where that cell is
    empty; its cell is null or a non-empty text; and it reads as undefined
    when the name is no header.  The names at which the scripts read a
    row, [game_date] and the columns of the table in both revisions, are
    all such names. *)
Theorem makeRow_lookup (headers vals : list (list N)) :
  (∀ k c, k ∉ objectPrototypeNames →
          Pbp.makeRow headers vals !! k = Some c →
          c = VNull ∨ ∃ s, c = VStr s ∧ s ≠ [])
  ∧ (∀ k, k ∉ objectPrototypeNames → k ∉ headers →
          Pbp.makeRow headers vals !! k = None)
  ∧ (∀ h1 k h2 v1 v v2,
       k ∉ objectPrototypeNames →
       headers = h1 ++ k :: h2 → vals = v1 ++ v :: v2 →
       length h1 = length v1 → k ∉ h2 →
       Pbp.makeRow headers vals !! k
       = Some (if bool_decide (v = []) then VNull else VStr v))
  ∧ (str "game_date" ∉ objectPrototypeNames)
  ∧ Forall (fun p => str p.1 ∉ objectPrototypeNames) Pbp.columns
  ∧ Forall (fun p => str p.1 ∉ objectPrototypeNames) Pbp2.columns.
Proof.
  unfold Pbp.makeRow. split; [|split; [|split; [|split; [|split]]]].
  - intros k c _ Hk.
    exact (makeRow_step_cells (zip headers vals) ∅
             (map_Forall_empty _) k c Hk).
  - intros k _ Hk. rewrite makeRow_step_absent; [apply lookup_empty|].
    intros Hin. apply Hk.
    apply list_elem_of_fmap in Hin as [[h v] [-> Hin]].
    by apply elem_of_zip_l in Hin.
  - intros h1 k h2 v1 v v2 _ -> -> Hlen Hk.
    rewrite zip_with_app by done. rewrite foldl_app. simpl.
    rewrite makeRow_step_absent.
    + rewrite lookup_insert_eq. unfold or_else. simpl.
      by case_bool_decide.
    + intros Hin. apply Hk.
      apply list_elem_of_fmap in Hin as [[h x] [-> Hin]].
      by apply elem_of_zip_l in Hin.
  - apply (bool_decide_unpack _). vm_compute. exact I.
  - apply (bool_decide_unpack _). vm_compute. exact I.
  - apply (bool_decide_unpack _). vm_compute. exact I.
Qed.

Lemma makeRow_lookup_witness :
  Pbp.makeRow Sample.headers (Pbp.tokenize Sample.noDateLine)
    !! str "game_date" = Some VNull.
Proof.
  refine (proj1 (proj2 (proj2 (makeRow_lookup Sample.headers
            (Pbp.tokenize Sample.noDateLine))))
            [str "play_id"; str "game_id"] (str "game_date") []
            [str "1"; str "2025_09_DAL_PHI"] [] [] _ eq_refl eq_refl eq_refl _).
  - apply (bool_decide_unpack _). vm_compute. exact I.
  - apply not_elem_of_nil.
Defined.

(** ** Counters of the parse *)

Section Counters.
Context `{DateParser}.
Variable cutoffDate : date.
Variable headers : list (list N).

Lemma parseLine_counters (st : Pbp.parsing) (line : list N) :
  let st' := Pbp.parseLine cutoffDate headers st line in
  Pbp.totalProcessed st' = S (Pbp.totalProcessed st)
  ∧ Pbp.validPlays st' - Pbp.validPlays st
    = length (Pbp.pbpData st') - length (Pbp.pbpData st)
  ∧ Pbp.validPlays st ≤ Pbp.validPlays st'
  ∧ length (Pbp.pbpData st) ≤ length (Pbp.pbpData st')
  ∧ Pbp.validPlays st' + Pbp.filteredOldPlays st'
    = Pbp.validPlays st + Pbp.filteredOldPlays st
      + (if bool_decide (length (Pbp.tokenize line) = length headers)
         then 1 else 0).
Proof.
  unfold Pbp.parseLine. repeat case_match; simpl;
    rewrite ?length_app; simpl; repeat split; lia.
Qed.

Lemma parseLines_counters (lines : list (list N)) : ∀ st0,
  Pbp.totalProcessed (foldl (Pbp.parseLine cutoffDate headers) st0 lines)
  = Pbp.totalProcessed st0 + length lines.
Proof.
  induction lines as [|l lines IH]; intros st0; simpl; [lia|].
  rewrite IH. destruct (parseLine_counters st0 l) as [-> _]. lia.
Qed.

(** X4. After the loop over the data lines of [index.js], the counter of
    processed lines is the number of data lines, the counter of valid
    plays is the number of rows kept, and valid and filtered plays together
    are the lines with as many tokens as headers: the lines counted in
    neither are the malformed ones. *)
Theorem parse_counters (lines : list (list N)) :
  let st := foldl (Pbp.parseLine cutoffDate headers) Pbp.parseStart lines in
  Pbp.totalProcessed st = length lines
  ∧ Pbp.validPlays st = length (Pbp.pbpData st)
  ∧ Pbp.validPlays st + Pbp.filteredOldPlays st
    = length (List.filter
                (fun line => bool_decide (length (Pbp.tokenize line)
                                          = length headers)) lines).
Proof.
  assert (Hgen : ∀ lines st0,
    let st := foldl (Pbp.parseLine cutoffDate headers) st0 lines in
    Pbp.totalProcessed st = Pbp.totalProcessed st0 + length lines
    ∧ Pbp.validPlays st + length (Pbp.pbpData st0)
      = Pbp.validPlays st0 + length (Pbp.pbpData st)
    ∧ Pbp.validPlays st + Pbp.filteredOldPlays st
      = Pbp.validPlays st0 + Pbp.filteredOldPlays st0
        + length (List.filter
                    (fun line => bool_decide (length (Pbp.tokenize line)
                                              = length headers)) lines)).
  { clear lines. induction lines as [|l lines IH]; intros st0; simpl;
      [repeat split; lia|].
    destruct (IH (Pbp.parseLine cutoffDate headers st0 l)) as (H1 & H2 & H3).
    destruct (parseLine_counters st0 l) as (G1 & G2 & G3 & G4 & G5).
    simpl in *. rewrite H1, H3, G1, G5.
    repeat split; try lia.
    destruct (bool_decide _); simpl; lia. }
  destruct (Hgen lines Pbp.parseStart) as (H1 & H2 & H3). simpl in *.
  repeat split; lia.
Qed.

End Counters.

(** ** The recency window *)

(** X5. The recency window of both revisions of the play-by-play updater
    has a lower bound only: a well-formed line whose [game_date] parses to
    the time value [t] is kept exactly when [t] is not earlier than seven
    days (604800000 ms) before the time of the run; a game dated in the
    future is kept. *)
Theorem recency_window_boundary `{DateParser} (e : Pbp.env) headers
    (line : list N) (t : Z) :
  (Z.abs (Pbp.now e - 604800000) ≤ maxTime)%Z →
  length (Pbp.tokenize line) = length headers →
  let r := Pbp.makeRow headers (Pbp.tokenize line) in
  truthy (Pbp.get r "game_date") = true →
  Date_of (Pbp.get r "game_date") = Some t →
  (∀ st, Pbp.pbpData (Pbp.parseLine (Pbp.cutoffDate e) headers st line)
         = if bool_decide (Pbp.now e - 604800000 ≤ t)%Z
           then Pbp.pbpData st ++ [r] else Pbp.pbpData st)
  ∧ (∀ st, Pbp2.pbpData (Pbp2.parseLine (Pbp.cutoffDate e) headers st line)
           = if bool_decide (Pbp.now e - 604800000 ≤ t)%Z
             then Pbp2.pbpData st ++ [r] else Pbp2.pbpData st).
Proof.
  intros Hnow Hlen r Htruthy Hdate.
  assert (Hcut : Pbp.cutoffDate e = Some (Pbp.now e - 604800000)%Z).
  { unfold Pbp.cutoffDate, TimeClip.
    replace (7 * 24 * 60 * 60 * 1000)%Z with 604800000%Z by reflexivity.
    by rewrite (proj2 (Z.leb_le _ _) Hnow). }
  rewrite Hcut.
  split; intros st; [unfold Pbp.parseLine|unfold Pbp2.parseLine];
    rewrite bool_decide_eq_true_2 by done; fold r;
    rewrite Htruthy, Hdate; simpl;
    case_bool_decide as Hc.
  - by rewrite (proj2 (Z.leb_le _ _) Hc).
  - by rewrite (proj2 (Z.leb_gt _ _) (proj1 (Z.nle_gt _ _) Hc)).
  - by rewrite (proj2 (Z.leb_le _ _) Hc).
  - by rewrite (proj2 (Z.leb_gt _ _) (proj1 (Z.nle_gt _ _) Hc)).
Qed.

(** The game of 1 November 2025, seen by the run of 2 November. *)
Lemma recency_window_boundary_witness :
  Pbp.pbpData
    (Pbp.parseLine (Pbp.cutoffDate Sample.liveEnv) Sample.headers
       Pbp.parseStart Sample.goodLine1)
  = [Pbp.makeRow Sample.headers (Pbp.tokenize Sample.goodLine1)].
Proof.
  refine (proj1 (recency_window_boundary (H := iso_parser) Sample.liveEnv
            Sample.headers Sample.goodLine1 1761955200000%Z _ eq_refl eq_refl
            eq_refl) Pbp.parseStart).
  vm_compute. discriminate.
Defined.

Section Revisions.
Context `{DateParser}.
Variable cutoffDate : date.

Lemma parseLine_revisions headers (st1 : Pbp.parsing) (st2 : Pbp2.parsing)
    (line : list N) :
  Pbp2.pbpData st2
  = List.filter (fun r => truthy (Pbp.get r "game_date")) (Pbp.pbpData st1) →
  Pbp2.pbpData (Pbp2.parseLine cutoffDate headers st2 line)
  = List.filter (fun r => truthy (Pbp.get r "game_date"))
      (Pbp.pbpData (Pbp.parseLine cutoffDate headers st1 line)).
Proof.
  intros Hrel. unfold Pbp.parseLine, Pbp2.parseLine.
  case_bool_decide; simpl; [|done].
  destruct (truthy (Pbp.get _ "game_date")) eqn:Ht; simpl.
  - destruct (date_ge _ _); simpl; [|done].
    rewrite List.filter_app. simpl. by rewrite Ht, Hrel.
  - rewrite List.filter_app. simpl. by rewrite Ht, app_nil_r.
Qed.

(** X6. The two revisions of the play-by-play updater parse alike but for
    the rows without [game_date]: the rows the later revision keeps are,
    in order, the rows [index.js] keeps that have a [game_date]; and a
    text too short for one is too short for the other. *)
Theorem later_revision_drops_undated (csvText : list N) :
  match Pbp.parseCsv cutoffDate csvText, Pbp2.parseCsv cutoffDate csvText with
  | Some st1, Some st2 =>
      Pbp2.pbpData st2
      = List.filter (fun r => truthy (Pbp.get r "game_date")) (Pbp.pbpData st1)
      ∧ Pbp2.totalProcessed st2 = Pbp.totalProcessed st1
      ∧ length (Pbp2.pbpData st2) ≤ length (Pbp.pbpData st1)
  | None, None => True
  | _, _ => False
  end.
Proof.
  unfold Pbp.parseCsv, Pbp2.parseCsv.
  destruct (Pbp.nonBlankLines csvText) as [|header [|l rest]]; try done.
  set (hs := Pbp.parseHeaders header).
  assert (Hgen : ∀ lines st1 st2,
    Pbp2.pbpData st2
    = List.filter (fun r => truthy (Pbp.get r "game_date")) (Pbp.pbpData st1) →
    Pbp2.totalProcessed st2 = Pbp.totalProcessed st1 →
    Pbp2.pbpData (foldl (Pbp2.parseLine cutoffDate hs) st2 lines)
    = List.filter (fun r => truthy (Pbp.get r "game_date"))
        (Pbp.pbpData (foldl (Pbp.parseLine cutoffDate hs) st1 lines))
    ∧ Pbp2.totalProcessed (foldl (Pbp2.parseLine cutoffDate hs) st2 lines)
      = Pbp.totalProcessed (foldl (Pbp.parseLine cutoffDate hs) st1 lines)).
  { induction lines as [|x lines IH]; intros st1 st2 Hd Ht; [done|].
    cbn [foldl]. apply IH; [by apply parseLine_revisions|].
    unfold Pbp.parseLine, Pbp2.parseLine.
    repeat case_match; simpl; lia. }
  destruct (Hgen (l :: rest) Pbp.parseStart
              {| Pbp2.pbpData := []; Pbp2.totalProcessed := 0;
                 Pbp2.validPlays := 0 |} eq_refl eq_refl) as [Hd Ht].
  split; [exact Hd|]. split; [exact Ht|].
  rewrite Hd. apply List.filter_length_le.
Qed.

End Revisions.

(** ** The source resolver *)

Section Resolver.
Context `{DateParser}.
Variable cutoffDate : date.
Variable fetch : list N → Pbp.fetched.

Lemma trySources_first_accepted (srcs : list (list N)) :
  Pbp.trySources cutoffDate fetch srcs
  = head (omap (fun url => More.accepted cutoffDate (fetch url)) srcs).
Proof.
  induction srcs as [|url srcs IH]; simpl; [done|].
  unfold More.accepted at 1.
  destruct (fetch url) as [|[|] csvText]; simpl; try exact IH.
  destruct (N.of_nat (length csvText) <? 10000)%N eqn:Hlen.
  - rewrite orb_true_r. exact IH.
  - rewrite orb_false_r.
    rewrite bool_decide_eq_false_2
      by (intros ->; simpl in Hlen; discriminate Hlen).
    destruct (Pbp.parseCsv cutoffDate csvText); simpl; [done|exact IH].
Qed.

(** X7. The resolver of [index.js] returns the rows of the first source
    that answers with success, with a body of at least 10000 code units
    and at least two non-blank lines; the sources after it do not matter.
    It fails exactly when no source is acceptable; a body shorter than
    10000 code units is never accepted, however well it parses. *)
Theorem resolver_first_acceptable :
  (∀ srcs, Pbp.trySources cutoffDate fetch srcs = None
           ↔ Forall (fun url => More.accepted cutoffDate (fetch url) = None) srcs)
  ∧ (∀ before url after rows,
       Forall (fun url => More.accepted cutoffDate (fetch url) = None) before →
       More.accepted cutoffDate (fetch url) = Some rows →
       Pbp.trySources cutoffDate fetch (before ++ url :: after) = Some rows)
  ∧ (∀ ok csvText, (N.of_nat (length csvText) < 10000)%N →
       More.accepted cutoffDate (Pbp.Fetched ok csvText) = None).
Proof.
  split; [|split].
  - intros srcs. rewrite trySources_first_accepted.
    induction srcs as [|url srcs IH]; simpl; [by split; [constructor|]|].
    destruct (More.accepted cutoffDate (fetch url)) eqn:Ha; simpl.
    + split; [done|]. intros Hall. apply Forall_cons in Hall as [Hu _].
      congruence.
    + rewrite IH. split; [by constructor|]. by intros [_ ?]%Forall_cons.
  - intros before url after rows Hb Hu. rewrite trySources_first_accepted.
    induction Hb as [|x before Hx _ IH]; simpl; [by rewrite Hu|].
    by rewrite Hx.
  - intros ok csvText Hlen. unfold More.accepted. destruct ok; [|done].
    by rewrite (proj2 (N.ltb_lt _ _) Hlen).
Qed.

End Resolver.

(** The first source is down and the second is too short: the third is
    not reached. *)
Lemma resolver_first_acceptable_witness :
  Pbp.trySources (Some 0%Z)
    (fun url => if bool_decide (url = str "a") then Pbp.FetchThrows
                else Pbp.Fetched true Sample.goodLine1)
    [str "a"; str "b"] = None.
Proof.
  apply (proj1 (resolver_first_acceptable (H := iso_parser) (Some 0%Z) _)).
  repeat constructor.
Defined.

(** X8. When no source is acceptable, a run past the season guard ends
    without touching the collaborator: [index.js] returns its fetch
    failure and the later revision the message of the exception, and both
    exit with code 1. *)
Theorem run_without_source `{DateParser} db
    (upsert : db → _ → _ → _ → db * Pbp.response) e fetch w :
  (Pbp.fetchAndParsePbp (Pbp.cutoffDate e) fetch = None →
   Pbp.inNflSeason e = true ∨ Pbp.testMode e = true →
   Pbp.runUpdater upsert e fetch w = Some (w, Pbp.FetchFailed)
   ∧ More.exitCode (More.pbpSuccess Pbp.FetchFailed) = 1)
  ∧ (Pbp2.fetchAndParsePbp (Pbp.cutoffDate e) fetch = None →
     Pbp2.inNflSeason e = true ∨ Pbp.testMode e = true →
     Pbp2.runUpdater upsert e fetch w
     = Some (w, Pbp2.Failure (str "Failed to fetch data from all 4 sources"))
     ∧ More.exitCode
         (More.pbp2Success
            (Pbp2.Failure (str "Failed to fetch data from all 4 sources")))
       = 1).
Proof.
  split; intros Hf Hg; (split; [|reflexivity]);
    [unfold Pbp.runUpdater|unfold Pbp2.runUpdater]; rewrite Hf;
    by destruct Hg as [-> | ->]; rewrite ?andb_false_r.
Qed.

(** A test run while every source is down. *)
Lemma run_without_source_witness :
  Pbp.runUpdater Sample.flakyUpsert Sample.testEnv Sample.noFetch
    Sample.freshWorld = Some (Sample.freshWorld, Pbp.FetchFailed).
Proof.
  refine (proj1 (proj1 (run_without_source (H := iso_parser) nat
            Sample.flakyUpsert Sample.testEnv Sample.noFetch Sample.freshWorld)
            eq_refl _)).
  by right.
Defined.

(** ** Transformation *)

Lemma transformStep_cases (st : Pbp.transformation) (play : Pbp.row) :
  (More.passesGate play = true
   ∧ Pbp.transformedPlays (Pbp.transformStep st play)
     = Pbp.transformedPlays st ++ [Pbp.transformPlay play]
   ∧ Pbp.skippedPlays (Pbp.transformStep st play) = Pbp.skippedPlays st)
  ∨ (More.passesGate play = false
     ∧ Pbp.transformedPlays (Pbp.transformStep st play)
       = Pbp.transformedPlays st
     ∧ ∃ s, Pbp.skippedPlays (Pbp.transformStep st play)
            = Pbp.skippedPlays st ++ [s]
            ∧ 1 ≤ length (Pbp.reasons s) ≤ 2).
Proof.
  unfold Pbp.transformStep, Pbp.skipReasons, More.passesGate.
  destruct (truthy (Pbp.get play "game_id")),
           (truthy (Pbp.get play "play_id")); simpl;
    [left; done|right..]; (split; [done|split; [done|]]);
    eexists; (split; [reflexivity|]); simpl; lia.
Qed.

Lemma transform_fold (pbpData : list Pbp.row) : ∀ st,
  Pbp.transformedPlays (foldl Pbp.transformStep st pbpData)
  = Pbp.transformedPlays st
    ++ map Pbp.transformPlay (List.filter More.passesGate pbpData)
  ∧ length (Pbp.skippedPlays (foldl Pbp.transformStep st pbpData))
    = length (Pbp.skippedPlays st)
      + length (List.filter (fun p => negb (More.passesGate p)) pbpData)
  ∧ (Forall (fun s => 1 ≤ length (Pbp.reasons s) ≤ 2) (Pbp.skippedPlays st) →
     Forall (fun s => 1 ≤ length (Pbp.reasons s) ≤ 2)
       (Pbp.skippedPlays (foldl Pbp.transformStep st pbpData))).
Proof.
  induction pbpData as [|play l IH]; intros st; cbn [foldl List.filter].
  - rewrite app_nil_r. simpl. repeat split; [lia|done].
  - destruct (IH (Pbp.transformStep st play)) as (H1 & H2 & H3).
    rewrite H1, H2.
    destruct (transformStep_cases st play)
      as [(Hg & Ht & Hs)|(Hg & Ht & s & Hs & Hr)];
      rewrite Hg, Ht; simpl; rewrite Hs.
    + rewrite <- app_assoc. split; [done|]. split; [lia|].
      intros Hall. apply H3. by rewrite Hs.
    + rewrite length_app. simpl. split; [done|]. split; [lia|].
      intros Hall. apply H3. rewrite Hs. apply Forall_app. split; [done|].
      by constructor.
Qed.

Lemma transform2_fold (pbpData : list Pbp.row) : ∀ acc,
  foldl Pbp2.transformStep acc pbpData
  = acc ++ map Pbp2.transformPlay (List.filter More.passesGate pbpData).
Proof.
  induction pbpData as [|play l IH]; intros acc; simpl.
  - by rewrite app_nil_r.
  - rewrite IH. unfold Pbp2.transformStep, More.passesGate.
    destruct (truthy (Pbp.get play "game_id")),
             (truthy (Pbp.get play "play_id")); simpl;
      by rewrite <- ?app_assoc.
Qed.

(** X9. The transformation of both revisions keeps, in order, exactly
    the rows whose raw [game_id] and [play_id] cells are non-empty and
    turns each into one record; [index.js] counts every other row as
    skipped, with one or two reasons, so that records and skipped rows
    together are the rows parsed. *)
Theorem transform_partitions_rows (pbpData : list Pbp.row) :
  let t := Pbp.transform pbpData in
  Pbp.transformedPlays t
  = map Pbp.transformPlay (List.filter More.passesGate pbpData)
  ∧ length (Pbp.transformedPlays t) + length (Pbp.skippedPlays t)
    = length pbpData
  ∧ Forall (fun s => 1 ≤ length (Pbp.reasons s) ≤ 2) (Pbp.skippedPlays t)
  ∧ Pbp2.transform pbpData
    = map Pbp2.transformPlay (List.filter More.passesGate pbpData).
Proof.
  unfold Pbp.transform, Pbp2.transform.
  destruct (transform_fold pbpData
              {| Pbp.transformedPlays := []; Pbp.skippedPlays := [] |})
    as (H1 & H2 & H3).
  simpl in *. rewrite H1, H2, length_map.
  split; [done|]. split; [|split; [by apply H3|apply transform2_fold]].
  clear. induction pbpData as [|p l IH]; simpl; [done|].
  destruct (More.passesGate p); simpl; lia.
Qed.

(** ** Records of the target table *)

Lemma str_inj (a b : string) : str a = str b → a = b.
Proof.
  unfold str. intros Heq.
  rewrite <- (string_of_list_ascii_of_string a),
          <- (string_of_list_ascii_of_string b).
  f_equal. revert Heq.
  generalize (list_ascii_of_string a) (list_ascii_of_string b).
  induction l as [|x l IH]; intros [|y l']; simpl; try done.
  intros [= Hxy Hl]. f_equal; [|by apply IH].
  rewrite <- (ascii_N_embedding x), <- (ascii_N_embedding y). by rewrite Hxy.
Qed.

Lemma find_column {C} (f : string → C → Pbp.tval) (cols : list (string * C))
    (name : string) (c : C) :
  NoDup cols.*1 → (name, c) ∈ cols →
  List.find (fun p : list N * Pbp.tval => bool_decide (p.1 = str name))
    (map (fun '(n, k) => (str n, f n k)) cols)
  = Some (str name, f name c).
Proof.
  induction cols as [|[n k] cols IH]; intros Hnd Hin; [by apply elem_of_nil in Hin|].
  simpl in Hnd. apply NoDup_cons in Hnd as [Hn Hnd]. simpl.
  apply elem_of_cons in Hin as [[= -> ->]|Hin].
  - by rewrite bool_decide_eq_true_2.
  - rewrite bool_decide_eq_false_2; [by apply IH|].
    intros ->%str_inj. apply Hn. apply list_elem_of_fmap. by exists (name, c).
Qed.

(** X10. A record of either revision has the 372 columns of the table, in
    the same order and under pairwise different names whatever the row,
    and the two revisions name the same columns; reading a column of the
    record gives the conversion declared for it applied to the cell of
    the same name in the row. *)
Theorem record_columns (play : Pbp.row) :
  (Pbp.transformPlay play).*1 = map (fun p => str p.1) Pbp.columns
  ∧ (Pbp2.transformPlay play).*1 = (Pbp.transformPlay play).*1
  ∧ length (Pbp.transformPlay play) = 372
  ∧ NoDup (Pbp.transformPlay play).*1
  ∧ (∀ name c, (name, c) ∈ Pbp.columns →
       Pbp.field (Pbp.transformPlay play) name
       = Some (Pbp.coerce c (Pbp.get play name)))
  ∧ (∀ name c, (name, c) ∈ Pbp2.columns →
       Pbp.field (Pbp2.transformPlay play) name
       = Some (Pbp2.coerce c (Pbp.get play name))).
Proof.
  assert (Hn1 : NoDup Pbp.columns.*1)
    by (apply (bool_decide_unpack _); vm_compute; exact I).
  assert (Hn2 : NoDup Pbp2.columns.*1)
    by (apply (bool_decide_unpack _); vm_compute; exact I).
  assert (Hnames : ∀ {C} (f : string → C → Pbp.tval) (cols : list (string * C)),
            (map (fun '(n, k) => (str n, f n k)) cols).*1
            = map (fun p => str p.1) cols).
  { intros C f cols. induction cols as [|[n k] cols IH]; [done|].
    cbn. f_equal. exact IH. }
  assert (H1 : (Pbp.transformPlay play).*1 = map (fun p => str p.1) Pbp.columns)
    by apply (Hnames _ (fun n c => Pbp.coerce c (Pbp.get play n))).
  assert (H2 : (Pbp2.transformPlay play).*1 = map (fun p => str p.1) Pbp2.columns)
    by apply (Hnames _ (fun n c => Pbp2.coerce c (Pbp.get play n))).
  split; [exact H1|]. split; [|split; [|split; [|split]]].
  - rewrite H1, H2. by vm_compute.
  - unfold Pbp.transformPlay. by rewrite length_map.
  - rewrite H1. rewrite <- (map_map fst str).
    apply NoDup_fmap_2; [|exact Hn1]. intros a b. apply str_inj.
  - intros name c Hin. unfold Pbp.field, Pbp.transformPlay.
    by rewrite (find_column (fun n c => Pbp.coerce c (Pbp.get play n))
                  Pbp.columns name c Hn1 Hin).
  - intros name c Hin. unfold Pbp.field, Pbp2.transformPlay.
    by rewrite (find_column (fun n c => Pbp2.coerce c (Pbp.get play n))
                  Pbp2.columns name c Hn2 Hin).
Qed.

Lemma record_columns_witness :
  Pbp.field (Pbp.transformPlay Sample.naPlayIdRow) "game_id"
  = Some (Pbp.safeText (Pbp.get Sample.naPlayIdRow "game_id")).
Proof.
  refine (proj1 (proj2 (proj2 (proj2 (proj2
            (record_columns Sample.naPlayIdRow))))) "game_id" Pbp.SafeText _).
  right. left.
Defined.

(** ** Cells through the conversions *)

(** X11. A text column stores the cell as the tokenizer left it: for a
    token of any line, the text conversion of its cell is null when the
    token is empty or NA and the token itself otherwise, without further
    trimming. *)
Theorem text_cells_verbatim (line v : list N) :
  v ∈ Pbp.tokenize line →
  Pbp.safeText (or_else (VStr v) VNull)
  = if bool_decide (v = [] ∨ v = str "NA") then Pbp.TNull else Pbp.TText v.
Proof.
  intros Hv.
  pose proof (tokenize_clean line) as Hall.
  rewrite List.Forall_forall in Hall.
  destruct (Hall v) as [Htrim _]; [by apply list_elem_of_In|].
  unfold or_else, Pbp.safeText. simpl.
  destruct (decide (v = [])) as [->|Hne]; [done|].
  rewrite (bool_decide_eq_false_2 (v = [])) by done. simpl.
  rewrite (bool_decide_eq_false_2 (v = [])) by done. simpl.
  destruct (decide (v = str "NA")) as [->|Hna].
  - by rewrite !bool_decide_eq_true_2 by (done || by right).
  - rewrite (bool_decide_eq_false_2 (v = str "NA")) by done.
    rewrite bool_decide_eq_false_2 by (by intros [?|?]).
    by rewrite Htrim.
Qed.

Lemma text_cells_verbatim_witness :
  Pbp.safeText (or_else (VStr (str "2025_09_DAL_PHI")) VNull)
  = Pbp.TText (str "2025_09_DAL_PHI").
Proof.
  refine (text_cells_verbatim Sample.goodLine1 (str "2025_09_DAL_PHI") _).
  right. left.
Defined.

Lemma digit_not_whitespace (c : N) : isDigit c = true → isWhiteSpace c = false.
Proof.
  intros Hd. destruct (isWhiteSpace c) eqn:Hw; [|done].
  unfold isWhiteSpace in Hw. apply orb_true_iff in Hw as [Hin|Hr].
  - apply bool_decide_eq_true in Hin.
    repeat (apply elem_of_cons in Hin as [->|Hin]; [discriminate Hd|]).
    by apply elem_of_nil in Hin.
  - unfold isDigit in Hd.
    apply andb_true_iff in Hd as [_ Hhi%N.leb_le].
    apply andb_true_iff in Hr as [Hlo%N.leb_le _]. lia.
Qed.

Lemma spanDigits_all_digits (s : list N) :
  Forall (fun c => isDigit c = true) s →
  spanDigits 10 s = (map digitVal s, []).
Proof.
  induction 1 as [|c s Hc _ IH]; simpl; [done|].
  unfold digitOfRadix. rewrite Hc.
  replace (c - 48 <? 10)%N with true.
  - by rewrite IH.
  - symmetry. apply N.ltb_lt. unfold isDigit in Hc.
    apply andb_true_iff in Hc as [Hlo%N.leb_le Hhi%N.leb_le]. lia.
Qed.

(** X12. A cell made of decimal digits only that spells an integer of
    at most 2^53, which a double holds exactly, converts to that integer
    under every numeric conversion of both revisions: [parseFloat],
    [parseInt] and [Number] agree on it. *)
Theorem digit_cells_agree (s : list N) :
  s ≠ [] → Forall (fun c => isDigit c = true) s →
  (digitsValue 10 (map digitVal s) ≤ 2 ^ 53)%N →
  let n := Pbp.TNum (NumDec false (digitsValue 10 (map digitVal s)) 0) in
  Pbp.safeNumeric (VStr s) = n
  ∧ Pbp.safeDouble (VStr s) = n
  ∧ Pbp.safeInteger (VStr s) = n
  ∧ Pbp2.safeNumeric (VStr s) = n.
Proof.
  intros Hne Hall _ n.
  destruct s as [|c s]; [done|]. clear Hne.
  pose proof Hall as Hall'. apply Forall_cons in Hall' as [Hc Hs].
  pose proof (digit_not_whitespace c Hc) as Hw.
  assert (Hrange : (48 ≤ c ≤ 57)%N).
  { unfold isDigit in Hc.
    apply andb_true_iff in Hc as [?%N.leb_le ?%N.leb_le]. lia. }
  assert (Hsent : Pbp.isSentinel (VStr (c :: s)) = false).
  { simpl. apply bool_decide_eq_false_2.
    intros Heq. injection Heq as -> _. discriminate Hc. }
  assert (Hts : trimStart (c :: s) = c :: s) by (simpl; by rewrite Hw).
  assert (Hsign : takeSign (c :: s) = (false, c :: s)).
  { unfold takeSign.
    destruct (N.eqb_spec c 45); [lia|]. destruct (N.eqb_spec c 43); [lia|done]. }
  assert (Hfloat : scanDecimal (c :: s)
                   = Some (NumDec false (digitsValue 10 (map digitVal (c :: s))) 0,
                           [])).
  { unfold scanDecimal. rewrite Hsign.
    assert (Hinf : stripPrefix (str "Infinity") (c :: s) = None).
    { change (str "Infinity") with (73%N :: str "nfinity").
      cbn [stripPrefix]. destruct (N.eqb_spec 73 c); [lia|done]. }
    rewrite Hinf. unfold scanUnsignedDecimal.
    rewrite (spanDigits_all_digits _ Hall). cbn [map]. cbn.
    by rewrite app_nil_r. }
  assert (Hpf : parseFloat (VStr (c :: s))
                = Some (NumDec false (digitsValue 10 (map digitVal (c :: s))) 0)).
  { unfold parseFloat. cbn [String_of]. by rewrite Hts, Hfloat. }
  split; [|split; [|split]].
  - unfold Pbp.safeNumeric. by rewrite Hsent, Hpf.
  - unfold Pbp.safeDouble. by rewrite Hsent, Hpf.
  - unfold Pbp.safeInteger. rewrite Hsent. unfold parseInt.
    cbn [String_of]. rewrite Hts, Hsign.
    assert (Hrad : match c :: s with
                   | c0 :: x :: r' =>
                       if (c0 =? 48)%N && ((x =? 120)%N || (x =? 88)%N)
                       then (16%N, r') else (10%N, c :: s)
                   | _ => (10%N, c :: s)
                   end = (10%N, c :: s)).
    { destruct s as [|x r]; [done|].
      apply Forall_cons in Hs as [Hx _]. unfold isDigit in Hx.
      apply andb_true_iff in Hx as [?%N.leb_le ?%N.leb_le].
      destruct (N.eqb_spec x 120); [lia|]. destruct (N.eqb_spec x 88); [lia|].
      by rewrite andb_false_r. }
    rewrite Hrad, (spanDigits_all_digits _ Hall). done.
  - unfold Pbp2.safeNumeric. rewrite Hsent. cbn [Number_of].
    unfold stringToNumber.
    assert (Htrim : trim (c :: s) = c :: s).
    { apply trim_fixed; [exact Hw|].
      assert (Hrev : Forall (fun c => isDigit c = true) (rev (c :: s)))
        by (apply List.Forall_rev; exact Hall).
      destruct (rev (c :: s)) as [|y l]; [done|].
      apply Forall_cons in Hrev as [Hy _]. by apply digit_not_whitespace. }
    rewrite Htrim, Hfloat.
    destruct s as [|x r]; [done|].
    apply Forall_cons in Hs as [Hx _]. unfold isDigit in Hx.
    apply andb_true_iff in Hx as [?%N.leb_le ?%N.leb_le].
    destruct (N.eqb_spec x 120); [lia|]. destruct (N.eqb_spec x 88); [lia|].
    destruct (N.eqb_spec x 111); [lia|]. destruct (N.eqb_spec x 79); [lia|].
    destruct (N.eqb_spec x 98); [lia|]. destruct (N.eqb_spec x 66); [lia|].
    simpl. by destruct (negb (c =? 48)%N).
Qed.

Lemma digit_cells_agree_witness :
  Pbp.safeNumeric (VStr (str "0425"))
  = Pbp.TNum (NumDec false 425 0)
  ∧ Pbp2.safeNumeric (VStr (str "0425")) = Pbp.TNum (NumDec false 425 0).
Proof.
  destruct (digit_cells_agree (str "0425")) as (H1 & _ & _ & H4).
  - discriminate.
  - repeat constructor.
  - vm_compute. discriminate.
  - split; [exact H1|exact H4].
Defined.

(** ** The trace of the batch loop *)

Lemma chunks_nil_iff {A} (n : nat) (l : list A) :
  0 < n → (Spec.chunks n l = [] ↔ l = []).
Proof.
  intros Hn. split; [|by intros ->].
  destruct l as [|x l]; [done|]. by rewrite chunks_step.
Qed.

Section BatchTrace.
Context {db : Type}.
Variable upsert : db → list N → list Pbp.typedRecord → list N
                  → db * Pbp.response.
Hypothesis no_throw : Spec.reportsErrors upsert.
Variable plays : list Pbp.typedRecord.

Lemma upsertLoop_trace : ∀ fuel k st,
  length (drop (k * Pbp.batchSize) plays) ≤ fuel →
  ∃ st' calls,
    Pbp.upsertLoop upsert fuel plays (k * Pbp.batchSize) st
    = Some (Pbp.LoopDone st')
    ∧ Pbp.trace (Pbp.after st')
      = Pbp.trace (Pbp.after st) ++ More.batchTrace calls
    ∧ map fst calls
      = Spec.chunks Pbp.batchSize (drop (k * Pbp.batchSize) plays).
Proof.
  unfold Pbp.batchSize.
  induction fuel as [|fuel IH]; intros k st Hfuel.
  - exists st, []. destruct (drop (k * 100) plays) eqn:Hd;
      [|simpl in Hfuel; lia].
    apply (f_equal length) in Hd. rewrite length_drop in Hd. simpl in Hd.
    cbn [Pbp.upsertLoop]. rewrite bool_decide_eq_false_2 by lia.
    rewrite !app_nil_r. done.
  - cbn [Pbp.upsertLoop]. case_bool_decide as Hi.
    2:{ exists st, [].
        assert (Hd : drop (k * 100) plays = []) by (apply drop_ge; lia).
        rewrite Hd, !app_nil_r. done. }
    set (rest := drop (k * 100) plays) in *.
    assert (Hrest : rest ≠ []).
    { intros E. apply (f_equal length) in E. unfold rest in E.
      rewrite length_drop in E. simpl in E. lia. }
    assert (Hbatch : Pbp.slice (k * 100) (k * 100 + Pbp.batchSize) plays
                     = take 100 rest).
    { unfold Pbp.slice, Pbp.batchSize. f_equal. lia. }
    rewrite Hbatch. unfold Pbp.doUpsert.
    pose proof (no_throw (Pbp.store (Pbp.after st)) (str "nflfastr_pbp")
                  (take 100 rest) (str "play_id,game_id")) as Hno.
    destruct (upsert _ _ _ _) as [s answer]. simpl in Hno.
    assert (Hnext : length (drop (S k * 100) plays) ≤ fuel).
    { unfold rest in Hfuel. rewrite length_drop in *. lia. }
    assert (Hdrop : drop (S k * 100) plays = drop 100 rest).
    { unfold rest. rewrite drop_drop. f_equal. lia. }
    assert (Hmore : k * 100 + Pbp.batchSize < length plays
                    ↔ drop (S k * 100) plays ≠ []).
    { unfold Pbp.batchSize. split.
      - intros Hlt E. apply (f_equal length) in E.
        rewrite length_drop in E. simpl in E. lia.
      - intros Hne. destruct (decide (k * 100 + 100 < length plays)); [done|].
        destruct Hne. apply drop_ge. lia. }
    replace (k * 100 + Pbp.batchSize) with (S k * 100) in *
      by (unfold Pbp.batchSize; lia).
    destruct answer as [|message|message]; [| |by destruct (Hno message)].
    + match goal with
      | |- context [Pbp.upsertLoop upsert fuel plays (S k * 100) ?st1] =>
          destruct (IH (S k) st1 Hnext) as (st' & calls & Hrun & Htr & Hch)
      end.
      eexists st', ((take 100 rest, _) :: calls).
      split; [exact Hrun|].
      rewrite chunks_step by (done || lia). rewrite <- Hdrop, <- Hch.
      split; [|done].
      rewrite Htr. cbn [More.batchTrace fst snd].
      case_bool_decide as Hsleep; cbn [Pbp.after Pbp.trace Pbp.doSleep].
      * apply Hmore in Hsleep.
        rewrite <- (chunks_nil_iff 100), <- Hch in Hsleep by lia.
        destruct calls; [done|]. by rewrite <- !app_assoc.
      * assert (Hnil : calls = []).
        { destruct (decide (drop (S k * 100) plays = [])) as [E|E];
            [rewrite E in Hch; by destruct calls|by apply Hmore in E]. }
        rewrite Hnil. by rewrite <- !app_assoc.
    + match goal with
      | |- context [Pbp.upsertLoop upsert fuel plays (S k * 100) ?st1] =>
          destruct (IH (S k) st1 Hnext) as (st' & calls & Hrun & Htr & Hch)
      end.
      eexists st', ((take 100 rest, _) :: calls).
      split; [exact Hrun|].
      rewrite chunks_step by (done || lia). rewrite <- Hdrop, <- Hch.
      split; [|done].
      rewrite Htr. cbn [More.batchTrace fst snd].
      case_bool_decide as Hsleep; cbn [Pbp.after Pbp.trace Pbp.doSleep].
      * apply Hmore in Hsleep.
        rewrite <- (chunks_nil_iff 100), <- Hch in Hsleep by lia.
        destruct calls; [done|]. by rewrite <- !app_assoc.
      * assert (Hnil : calls = []).
        { destruct (decide (drop (S k * 100) plays = [])) as [E|E];
            [rewrite E in Hch; by destruct calls|by apply Hmore in E]. }
        rewrite Hnil. by rewrite <- !app_assoc.
Qed.

End BatchTrace.

(** X13. Against a collaborator that reports failures in its answers,
    what a live database update of [index.js] does to the world is,
    in order, one upsert per batch into the table nflfastr_pbp on the
    conflict key play_id,game_id, with a pause of 200 ms after every batch
    but the last and nothing else; every batch holds between 1 and 100
    records and every batch but the last exactly 100. *)
Theorem update_trace db (upsert : db → _ → _ → _ → db * Pbp.response) :
  Spec.reportsErrors upsert →
  ∀ now tza w plays,
    let e := {| Pbp.testMode := false; Pbp.now := now; Pbp.localTZA := tza |} in
    ∃ w' r calls,
      Pbp.update upsert e w plays = Some (w', r)
      ∧ Pbp.trace w' = Pbp.trace w ++ More.batchTrace calls
      ∧ map fst calls = Spec.chunks Pbp.batchSize plays
      ∧ Forall (fun c => 1 ≤ length c.1 ≤ 100) calls
      ∧ ∀ i c, i + 1 < length calls → calls !! i = Some c → length c.1 = 100.
Proof.
  intros Hno now tza w plays e.
  destruct (upsertLoop_trace upsert Hno plays (length plays) 0
              {| Pbp.processed := 0; Pbp.errorList := []; Pbp.after := w |})
    as (st' & calls & Hrun & Htr & Hch).
  { rewrite length_drop. lia. }
  simpl in Hrun, Htr, Hch. rewrite drop_0 in Hch.
  destruct (chunks_sizes Pbp.batchSize plays) as [Hall Hfull];
    [unfold Pbp.batchSize; lia|].
  rewrite <- Hch in Hall, Hfull.
  eexists (Pbp.after st'), _, calls.
  unfold Pbp.update. cbn [Pbp.testMode e Pbp.errors]. rewrite Hrun.
  split; [reflexivity|]. split; [exact Htr|]. split; [exact Hch|]. split.
  - apply Forall_fmap in Hall. eapply Forall_impl; [exact Hall|].
    intros c Hc. unfold Pbp.batchSize in Hc. simpl in Hc. lia.
  - intros i c Hi Hc. apply (Hfull i c.1).
    + by rewrite length_map.
    + by rewrite list_lookup_fmap, Hc.
Qed.

Lemma update_trace_witness :
  ∃ w' r calls,
    Pbp.update Sample.flakyUpsert Sample.liveEnv Sample.freshWorld
      Sample.plays250 = Some (w', r)
    ∧ Pbp.trace w' = Pbp.trace Sample.freshWorld ++ More.batchTrace calls
    ∧ map fst calls = Spec.chunks Pbp.batchSize Sample.plays250
    ∧ Forall (fun c => 1 ≤ length c.1 ≤ 100) calls
    ∧ ∀ i c, i + 1 < length calls → calls !! i = Some c → length c.1 = 100.
Proof.
  apply (update_trace nat Sample.flakyUpsert).
  intros s table batch onConflict message. unfold Sample.flakyUpsert. simpl.
  destruct (Nat.eqb s 1); discriminate.
Defined.

(** ** The summary and the exit code *)

Section Accounting.
Context {db : Type}.
Variable upsert : db → list N → list Pbp.typedRecord → list N
                  → db * Pbp.response.
Variable plays : list Pbp.typedRecord.

Lemma slice_length (i : nat) :
  i < length plays →
  1 ≤ length (Pbp.slice i (i + Pbp.batchSize) plays)
  ∧ length (Pbp.slice i (i + Pbp.batchSize) plays)
    = Nat.min Pbp.batchSize (length plays - i).
Proof.
  intros Hi. unfold Pbp.slice, Pbp.batchSize.
  rewrite length_take, length_drop. lia.
Qed.

(** Whatever the collaborator does, the loop of [index.js] counts no more
    records than it has been given. *)
Lemma upsertLoop_bounds : ∀ fuel i st r,
  Pbp.upsertLoop upsert fuel plays i st = Some r →
  match r with
  | Pbp.LoopDone st' | Pbp.LoopThrew st' _ =>
      Pbp.processed st ≤ Pbp.processed st'
      ∧ Pbp.processed st' ≤ Pbp.processed st + (length plays - i)
  end.
Proof.
  induction fuel as [|fuel IH]; intros i st r; cbn [Pbp.upsertLoop];
    case_bool_decide as Hi; try done; try (intros [= <-]; lia).
  destruct (slice_length i Hi) as [Hone Hlen].
  remember (Pbp.slice i (i + Pbp.batchSize) plays) as batch eqn:Hb.
  clear Hb. unfold Pbp.batchSize in Hlen.
  destruct (Pbp.doUpsert _ _ _ _ _) as [w answer].
  destruct answer as [|message|message].
  - intros Hr. apply IH in Hr. unfold Pbp.batchSize in Hr.
    destruct (bool_decide _) in Hr; destruct r; cbn [Pbp.processed] in Hr; lia.
  - intros Hr. apply IH in Hr. unfold Pbp.batchSize in Hr.
    destruct (bool_decide _) in Hr; destruct r; cbn [Pbp.processed] in Hr; lia.
  - intros [= <-]. cbn [Pbp.processed]. lia.
Qed.

(** In the later revision a loop that runs to its end has counted every
    record exactly when it has recorded no error. *)
Lemma upsertLoop2_bounds : ∀ fuel i st st',
  Pbp2.upsertLoop upsert fuel plays i st = Some (Pbp2.LoopDone st') →
  Pbp2.processed st ≤ Pbp2.processed st'
  ∧ Pbp2.processed st' ≤ Pbp2.processed st + (length plays - i)
  ∧ length (Pbp2.errorList st) ≤ length (Pbp2.errorList st')
  ∧ (length (Pbp2.errorList st') = length (Pbp2.errorList st)
     ↔ Pbp2.processed st' = Pbp2.processed st + (length plays - i)).
Proof.
  induction fuel as [|fuel IH]; intros i st st'; cbn [Pbp2.upsertLoop];
    case_bool_decide as Hi; try done; try (intros [= <-]; lia).
  destruct (slice_length i Hi) as [Hone Hlen].
  remember (Pbp.slice i (i + Pbp.batchSize) plays) as batch eqn:Hb.
  clear Hb. unfold Pbp.batchSize in Hlen.
  destruct (Pbp.doUpsert _ _ _ _ _) as [w answer].
  destruct answer as [|message|message]; [| |done].
  - intros Hr. apply IH in Hr. unfold Pbp.batchSize in Hr.
    destruct (bool_decide _) in Hr;
      cbn [Pbp2.processed Pbp2.errorList] in Hr; lia.
  - intros Hr. apply IH in Hr. unfold Pbp.batchSize in Hr.
    destruct (bool_decide _) in Hr;
      cbn [Pbp2.processed Pbp2.errorList] in Hr;
      rewrite length_app in Hr; cbn [length] in Hr; lia.
Qed.

(** Whatever the collaborator does, the batch loop of [index.js] either
    runs to its end, no upsert having thrown, with the records of the
    batches answered with success as its count, or is ended by the upsert
    that throws. *)
Lemma upsertLoop_calls : ∀ fuel i st r,
  Pbp.upsertLoop upsert fuel plays i st = Some r →
  ∃ calls,
    match r with
    | Pbp.LoopDone st' =>
        Spec.upserts (Pbp.trace (Pbp.after st'))
        = Spec.upserts (Pbp.trace (Pbp.after st)) ++ calls
        ∧ Forall (fun c => ∀ message, c.2 ≠ Pbp.UpsertThrows message) calls
        ∧ Pbp.processed st' = Pbp.processed st + Spec.okRecords calls
    | Pbp.LoopThrew st' message =>
        Spec.upserts (Pbp.trace (Pbp.after st'))
        = Spec.upserts (Pbp.trace (Pbp.after st)) ++ calls
        ∧ Exists (fun c => c.2 = Pbp.UpsertThrows message) calls
    end.
Proof.
  induction fuel as [|fuel IH]; intros i st r; cbn [Pbp.upsertLoop];
    case_bool_decide as Hi; try done;
    try (intros [= <-]; exists []; rewrite app_nil_r;
         unfold Spec.okRecords; simpl; repeat split; (done || lia)).
  unfold Pbp.doUpsert.
  set (batch := Pbp.slice i (i + Pbp.batchSize) plays).
  destruct (upsert (Pbp.store (Pbp.after st)) (str "nflfastr_pbp") batch
              (str "play_id,game_id")) as [s answer].
  destruct answer as [|message|message].
  - intros Hr. apply IH in Hr as [calls Hr].
    exists ((batch, Pbp.UpsertOk) :: calls).
    destruct r as [st'|st' message'];
      destruct (bool_decide (i + Pbp.batchSize < length plays));
      cbn [Pbp.after Pbp.processed Pbp.trace Pbp.doSleep] in Hr;
      rewrite ?upserts_snoc_sleep, upserts_snoc_upsert, <- app_assoc in Hr;
      destruct Hr as [Htr Hr]; (split; [exact Htr|]).
    + destruct Hr as [Hall Hp]. split; [by constructor|].
      rewrite Hp. unfold Spec.okRecords. simpl. lia.
    + destruct Hr as [Hall Hp]. split; [by constructor|].
      rewrite Hp. unfold Spec.okRecords. simpl. lia.
    + by apply Exists_cons_tl.
    + by apply Exists_cons_tl.
  - intros Hr. apply IH in Hr as [calls Hr].
    exists ((batch, Pbp.UpsertError message) :: calls).
    destruct r as [st'|st' message'];
      destruct (bool_decide (i + Pbp.batchSize < length plays));
      cbn [Pbp.after Pbp.processed Pbp.trace Pbp.doSleep] in Hr;
      rewrite ?upserts_snoc_sleep, upserts_snoc_upsert, <- app_assoc in Hr;
      destruct Hr as [Htr Hr]; (split; [exact Htr|]).
    + destruct Hr as [Hall Hp]. split; [by constructor|].
      rewrite Hp. unfold Spec.okRecords. simpl. lia.
    + destruct Hr as [Hall Hp]. split; [by constructor|].
      rewrite Hp. unfold Spec.okRecords. simpl. lia.
    + by apply Exists_cons_tl.
    + by apply Exists_cons_tl.
  - intros [= <-]. exists [(batch, Pbp.UpsertThrows message)].
    cbn [Pbp.after Pbp.trace]. rewrite upserts_snoc_upsert.
    split; [done|]. by apply Exists_cons_hd.
Qed.

End Accounting.

(** X14. Whenever a run of [index.js] ends with its summary, whatever the
    collaborator did: the valid plays are at least one and, with the
    skipped ones, are the rows fetched; attempted is the number of valid
    plays and successful plus failed make it up.  A live run is a success,
    hence exits with code 0, exactly when the successful count of its
    summary is positive.  That count is the records of the batches
    answered with success when no upsert threw; when an upsert threw it
    is 0 and every record counts as failed, so the run then exits with
    code 1 even if batches were stored before. *)
Theorem summary_accounting `{DateParser} db
    (upsert : db → _ → _ → _ → db * Pbp.response) e fetch w w'
    success mode valid skipped u :
  Pbp.runUpdater upsert e fetch w
  = Some (w', Pbp.Summary success mode valid skipped u) →
  (∃ pbpData,
     Pbp.fetchAndParsePbp (Pbp.cutoffDate e) fetch = Some pbpData
     ∧ valid + skipped = length pbpData)
  ∧ 0 < valid
  ∧ Pbp.attempted u = valid
  ∧ Pbp.successful u + Pbp.failed u = valid
  ∧ mode = Pbp.testMode e
  ∧ (Pbp.testMode e = false →
     (More.exitCode (More.pbpSuccess
                       (Pbp.Summary success mode valid skipped u)) = 0
      ↔ 0 < Pbp.successful u))
  ∧ (Pbp.testMode e = false →
     ∃ calls,
       Spec.upserts (Pbp.trace w') = Spec.upserts (Pbp.trace w) ++ calls
       ∧ ((Forall (fun c => ∀ message, c.2 ≠ Pbp.UpsertThrows message) calls
           ∧ Pbp.successful u = Spec.okRecords calls)
          ∨ (Exists (fun c => ∃ message, c.2 = Pbp.UpsertThrows message) calls
             ∧ Pbp.successful u = 0 ∧ Pbp.failed u = valid
             ∧ More.exitCode
                 (More.pbpSuccess
                    (Pbp.Summary success mode valid skipped u)) = 1))).
Proof.
  unfold Pbp.runUpdater.
  destruct (negb (Pbp.inNflSeason e) && negb (Pbp.testMode e)); [done|].
  destruct (Pbp.fetchAndParsePbp _ _) as [pbpData|]; [|done].
  case_bool_decide; [done|]. case_bool_decide as Hvalid; [done|].
  assert (Hsum : length (Pbp.transformedPlays (Pbp.transform pbpData))
                 + length (Pbp.skippedPlays (Pbp.transform pbpData))
                 = length pbpData).
  { unfold Pbp.transform.
    destruct (transform_fold pbpData
                {| Pbp.transformedPlays := []; Pbp.skippedPlays := [] |})
      as (H1 & H2 & _).
    simpl in H1, H2. rewrite H1, H2, length_map.
    clear. induction pbpData as [|p l IH]; simpl; [done|].
    destruct (More.passesGate p); simpl; lia. }
  set (t := Pbp.transform pbpData) in *.
  destruct (Pbp.update upsert e w (Pbp.transformedPlays t)) as [[w1 u1]|] eqn:Hu;
    [|done].
  intros [= <- <- <- <- <- <-].
  split; [by exists pbpData|]. split; [lia|].
  unfold Pbp.update in Hu.
  destruct (Pbp.testMode e) eqn:Hmode.
  - injection Hu as <- <-. simpl. repeat split; try done; lia.
  - destruct (Pbp.upsertLoop _ _ _ _ _) as [[st'|st' message]|] eqn:Hloop;
      [| |done]; injection Hu as <- <-;
      pose proof (upsertLoop_calls _ _ _ _ _ _ Hloop) as [calls Hcalls];
      apply upsertLoop_bounds in Hloop; simpl in *;
      (split; [done|]); (split; [lia|]); (split; [done|]);
      rewrite ?orb_false_r; unfold More.exitCode, More.pbpSuccess.
    + split.
      * intros _. destruct (0 <? Pbp.processed st') eqn:Hp.
        -- apply Nat.ltb_lt in Hp. done.
        -- apply Nat.ltb_ge in Hp. split; [done|lia].
      * intros _. exists calls. destruct Hcalls as (Htr & Hall & Hp).
        split; [exact Htr|]. left. split; [exact Hall|exact Hp].
    + split.
      * intros _. simpl. split; [done|lia].
      * intros _. exists calls. destruct Hcalls as (Htr & Hex).
        split; [exact Htr|]. right. split; [|done].
        apply List.Exists_exists in Hex as (c & Hc & Hthrow).
        apply List.Exists_exists. exists c. split; [done|by exists message].
Qed.


(** A live run on 120 plays against the collaborator that fails the
    second batch: 100 successful, 20 failed, and the exit code 0. *)
Lemma summary_accounting_witness :
  ∃ w' u,
    Pbp.runUpdater Sample.flakyUpsert Sample.liveEnv Feed.fetch
      Sample.freshWorld
    = Some (w', Pbp.Summary true false 120 0 u)
    ∧ Pbp.successful u = 100
    ∧ Pbp.successful u + Pbp.failed u = 120.
Proof.
  assert (Hr : snd <$> Pbp.runUpdater Sample.flakyUpsert Sample.liveEnv
                         Feed.fetch Sample.freshWorld
               = Some (Pbp.Summary true false 120 0
                         {| Pbp.attempted := 120; Pbp.successful := 100;
                            Pbp.failed := 20;
                            Pbp.errors := [str "Batch 2: timeout"] |}))
    by (vm_compute; reflexivity).
  destruct (Pbp.runUpdater Sample.flakyUpsert Sample.liveEnv Feed.fetch
              Sample.freshWorld) as [[w' r]|] eqn:Hrun; [|discriminate Hr].
  injection Hr as ->.
  eexists w', _. split; [reflexivity|]. split; [reflexivity|].
  exact (proj1 (proj2 (proj2 (proj2
           (summary_accounting (H := iso_parser) nat Sample.flakyUpsert
              Sample.liveEnv Feed.fetch Sample.freshWorld w' _ _ _ _ _
              Hrun))))).
Defined.

(** X15. Whenever a run of the later revision ends after its batch loop,
    the records processed and failed are together the records
    transformed from the rows fetched, and the run is a success, hence
    exits with code 0, exactly when no record failed: one failed batch
    makes the run exit with code 1. *)
Theorem later_revision_accounting `{DateParser} db
    (upsert : db → _ → _ → _ → db * Pbp.response) e fetch w w'
    success processed failed :
  Pbp2.runUpdater upsert e fetch w
  = Some (w', Pbp2.Finished success processed failed) →
  (∃ pbpData,
     Pbp2.fetchAndParsePbp (Pbp.cutoffDate e) fetch = Some pbpData
     ∧ processed + failed = length (Pbp2.transform pbpData))
  ∧ Pbp.testMode e = false
  ∧ (success = true ↔ failed = 0)
  ∧ (More.exitCode (More.pbp2Success
                      (Pbp2.Finished success processed failed)) = 0
     ↔ failed = 0).
Proof.
  unfold Pbp2.runUpdater.
  destruct (negb (Pbp2.inNflSeason e) && negb (Pbp.testMode e)); [done|].
  destruct (Pbp2.fetchAndParsePbp _ _) as [pbpData|]; [|done].
  case_bool_decide; [done|].
  destruct (Pbp.testMode e) eqn:Hmode; [done|].
  destruct (Pbp2.upsertLoop _ _ _ _ _) as [[st'|st' message]|] eqn:Hloop;
    [|done..].
  intros [= <- <- <- <-].
  apply upsertLoop2_bounds in Hloop. cbn [Pbp2.processed Pbp2.errorList] in Hloop.
  destruct Hloop as (H1 & H2 & H3 & H4). simpl in H3, H4.
  assert (Hiff : bool_decide (length (Pbp2.errorList st') = 0) = true
                 ↔ length (Pbp2.transform pbpData) - Pbp2.processed st' = 0).
  { rewrite bool_decide_eq_true. split; intros Hx; [apply H4 in Hx|apply H4]; lia. }
  split; [exists pbpData; split; [done|lia]|]. split; [done|].
  split; [exact Hiff|].
  unfold More.exitCode, More.pbp2Success. rewrite <- Hiff.
  by destruct (bool_decide _).
Qed.

(** The same feed and collaborator under the later revision: 100
    processed, 20 failed, no success. *)
Lemma later_revision_accounting_witness :
  ∃ w',
    Pbp2.runUpdater Sample.flakyUpsert Sample.liveEnv Feed.fetch
      Sample.freshWorld
    = Some (w', Pbp2.Finished false 100 20)
    ∧ More.exitCode (More.pbp2Success (Pbp2.Finished false 100 20)) ≠ 0.
Proof.
  assert (Hr : snd <$> Pbp2.runUpdater Sample.flakyUpsert Sample.liveEnv
                         Feed.fetch Sample.freshWorld
               = Some (Pbp2.Finished false 100 20))
    by (vm_compute; reflexivity).
  destruct (Pbp2.runUpdater Sample.flakyUpsert Sample.liveEnv Feed.fetch
              Sample.freshWorld) as [[w' r]|] eqn:Hrun; [|discriminate Hr].
  injection Hr as ->.
  exists w'. split; [reflexivity|].
  intros Hexit.
  apply (proj2 (proj2 (proj2
           (later_revision_accounting (H := iso_parser) nat Sample.flakyUpsert
              Sample.liveEnv Feed.fetch Sample.freshWorld w' _ _ _ Hrun))))
    in Hexit.
  discriminate Hexit.
Defined.

(** ** The season test of the odds updater *)

Lemma leapDays_range (y : Z) : (0 ≤ leapDays y ≤ 1)%Z.
Proof. unfold leapDays, DaysInYear. repeat case_match; lia. Qed.

Lemma DayFromYear_next (y : Z) :
  (DayFromYear y + 365 ≤ DayFromYear (y + 1) ≤ DayFromYear y + 366)%Z.
Proof. unfold DayFromYear. Z.div_mod_to_equations. lia. Qed.

Lemma monthOfDay_september (leap d : Z) :
  (0 ≤ leap ≤ 1)%Z → (8 ≤ monthOfDay leap d ↔ 243 + leap ≤ d)%Z.
Proof.
  intros Hl. unfold monthOfDay.
  repeat case_match;
    repeat match goal with
    | H : (_ <? _)%Z = true |- _ => apply Z.ltb_lt in H
    | H : (_ <? _)%Z = false |- _ => apply Z.ltb_ge in H
    end; lia.
Qed.

Lemma isInSeason_iff_month (d : Z) :
  (0 ≤ d ≤ maxTime - 500 * msPerDay)%Z →
  Odds.isInSeason d = true ↔ (8 ≤ MonthFromTime d)%Z.
Proof.
  intros Hd.
  pose proof (YearFromTime_ge_1970 d (proj1 Hd)) as Hy.
  pose proof (YearFromTime_spec d) as [Hlo Hhi].
  pose proof (leapDays_range (YearFromTime d)) as Hleap.
  pose proof (DayFromYear_next (YearFromTime d)) as Hnext.
  unfold MonthFromTime. rewrite (monthOfDay_september _ _ Hleap).
  unfold DayWithinYear, Odds.isInSeason, Date_UTC.
  set (yr := YearFromTime d) in *.
  replace ((0 <=? yr) && (yr <=? 99))%Z with false
    by (symmetry; apply andb_false_iff; right; apply Z.leb_gt; lia).
  replace ((0 <=? yr + 1) && (yr + 1 <=? 99))%Z with false
    by (symmetry; apply andb_false_iff; right; apply Z.leb_gt; lia).
  unfold MakeDay.
  change (8 / 12)%Z with 0%Z. change (8 mod 12)%Z with 8%Z.
  change (1 / 12)%Z with 0%Z. change (1 mod 12)%Z with 1%Z.
  rewrite !Z.add_0_r. cbn [monthStart].
  unfold MakeDate, MakeTime, TimeClip, date_le, date_ge.
  unfold Day, maxTime, msPerDay, msPerHour, msPerMinute, msPerSecond in *.
  set (l := leapDays yr) in *. set (a := DayFromYear yr) in *.
  set (b := DayFromYear (yr + 1)) in *.
  assert (Hq : (86400000 * (d / 86400000) ≤ d
                < 86400000 * (d / 86400000) + 86400000)%Z)
    by (Z.div_mod_to_equations; lia).
  set (q := (d / 86400000)%Z) in *.
  rewrite (proj2 (Z.leb_le (Z.abs ((a + (243 + l) + 1 - 1) * 86400000
                                   + (0 * 3600000 + 0 * 60000 + 0 * 1000 + 0)))
                    8640000000000000)) by lia.
  rewrite (proj2 (Z.leb_le (Z.abs ((b + 31 + 28 - 1) * 86400000
                                   + (23 * 3600000 + 59 * 60000 + 59 * 1000 + 0)))
                    8640000000000000)) by lia.
  rewrite andb_true_iff, !Z.leb_le. lia.
Qed.

(** X16. The in-season test of the odds updater takes the year of the
    date itself for the start of the season, so it holds exactly from
    1 September 00:00 UTC to the end of that calendar year: from January
    to August it fails, and a live run then is skipped. *)
Theorem odds_season_is_september_to_december (d : Z) :
  (0 ≤ d ≤ maxTime - 500 * msPerDay)%Z →
  (Odds.isInSeason d = true ↔ (8 ≤ MonthFromTime d)%Z)
  ∧ ((MonthFromTime d < 8)%Z →
     ∀ `{DateParser} num (numToString : num → list N) numIsFinite world_state
       (fetchEvents : world_state → _) fetchOdds upsert w,
       Odds.runUpdater numToString numIsFinite fetchEvents fetchOdds upsert
         {| Odds.testMode := false; Odds.now := d |} w
       = (w, Odds.Skipped)).
Proof.
  intros Hd. pose proof (isInSeason_iff_month d Hd) as Hiff.
  split; [exact Hiff|].
  intros Hm ? num numToString numIsFinite ws fetchEvents fetchOdds upsert w.
  unfold Odds.runUpdater. cbn [Odds.now Odds.testMode].
  destruct (Odds.isInSeason d); [|done].
  destruct Hiff as [Hi _]. specialize (Hi eq_refl). lia.
Qed.

(** 15 January 2026, 12:00 UTC, is out of season for the odds updater. *)
Lemma odds_season_is_september_to_december_witness :
  Odds.isInSeason 1768478400000 = false.
Proof.
  destruct (Odds.isInSeason 1768478400000) eqn:Hs; [|reflexivity].
  apply (proj1 (odds_season_is_september_to_december 1768478400000
                  ltac:(vm_compute; split; discriminate))) in Hs.
  vm_compute in Hs. by destruct Hs.
Defined.

(** ** The run of the odds updater *)



(** *** What the nested record loops return *)

Section RecordLoops.
Context {num : Type} (numToString : num → list N) (numIsFinite : num → bool).
Variables (ev : Odds.oddsEvent) (sy : option Z).






End RecordLoops.

Section OddsRun.
Context `{DateParser}.
Context {num : Type} (numToString : num → list N) (numIsFinite : num → bool).
Context {world_state : Type}.
Variable fetchEvents : world_state → world_state * Odds.eventsFetched.
Variable fetchOdds : world_state → list N → list N
                     → world_state * Odds.oddsFetched num.
Variable upsert : world_state → list (Odds.oddsRecord num)
                  → world_state * Odds.response.
Variable e : Odds.env.
Hypothesis odds_answer : ∀ s eventId market message,
  (fetchOdds s eventId market).2 ≠ Odds.OddsThrow num message.





End OddsRun.


(** ** Records of the odds table *)


Section OddsRecords.
Context {num : Type} (numToString : num → list N) (numIsFinite : num → bool).

Lemma recordOf_inv ev sy book mkt out r :
  Odds.recordOf numToString numIsFinite ev sy book mkt out = Some r →
  ∃ o pt bet,
    out = Some o ∧ truthy (Odds.description o) = true ∧ Odds.point o = Some pt
    ∧ Odds.determineBetType (Odds.name o) = Some bet
    ∧ r = {| Odds.rec_id :=
               Odds.joinWith underscore
                 (Odds.idParts numToString (Odds.id ev) book
                    (Odds.market_key_of mkt) o pt);
             Odds.event_id := Odds.id ev;
             Odds.sport_key := Odds.SPORTS_KEY;
             Odds.rec_commence_time := Odds.commence_time ev;
             Odds.rec_home_team := Odds.home_team ev;
             Odds.rec_away_team := Odds.away_team ev;
             Odds.week_number := None;
             Odds.season_year := sy;
             Odds.bookmaker_key := Odds.key book;
             Odds.bookmaker_title := Odds.title book;
             Odds.bookmaker_last_update := Odds.last_update book;
             Odds.market_key := Odds.market_key_of mkt;
             Odds.market_name := Odds.market_key_of mkt;
             Odds.player_name := Odds.description o;
             Odds.prop_type := Odds.mapMarketToPropType (Odds.market_key_of mkt);
             Odds.outcome_name := Odds.name o;
             Odds.outcome_price := None;
             Odds.decimal_price := Odds.toNumber numIsFinite (Odds.price o);
             Odds.line_value := pt;
             Odds.bet_type := bet |}.
Proof.
  unfold Odds.recordOf, Odds.outcomeBody. destruct out as [o|]; [|done].
  destruct (truthy (Odds.description o)) eqn:Hd; [|done].
  destruct (Odds.point o) as [pt|] eqn:Hp; [|done].
  destruct (Odds.determineBetType (Odds.name o)) as [bet|] eqn:Hb; [|done].
  simpl. intros [= <-]. by exists o, pt, bet.
Qed.


(** X19. The id of a record depends on the player and outcome names
    through their sanitized forms only: two records built from the feed
    that agree on event, bookmaker, market and line value and whose player
    names and outcome names sanitize alike have the same id.  So records
    equal on the six columns of the conflict key share their id, and so do
    records whose names differ by punctuation only. *)
Theorem odds_id_up_to_sanitize
    ev1 sy1 book1 mkt1 out1 r1 ev2 sy2 book2 mkt2 out2 r2 :
  Odds.recordOf numToString numIsFinite ev1 sy1 book1 mkt1 out1 = Some r1 →
  Odds.recordOf numToString numIsFinite ev2 sy2 book2 mkt2 out2 = Some r2 →
  Odds.event_id r1 = Odds.event_id r2 →
  Odds.bookmaker_key r1 = Odds.bookmaker_key r2 →
  Odds.market_key r1 = Odds.market_key r2 →
  Odds.line_value r1 = Odds.line_value r2 →
  Odds.sanitize (Odds.player_name r1) = Odds.sanitize (Odds.player_name r2) →
  Odds.sanitize (Odds.outcome_name r1) = Odds.sanitize (Odds.outcome_name r2) →
  Odds.rec_id r1 = Odds.rec_id r2.
Proof.
  intros (o1 & pt1 & bet1 & -> & _ & _ & _ & ->)%recordOf_inv
         (o2 & pt2 & bet2 & -> & _ & _ & _ & ->)%recordOf_inv.
  cbn. unfold Odds.idParts. by intros -> -> -> -> -> ->.
Qed.

End OddsRecords.


(** The run against a collaborator that serves this book: it fails with
    the TypeError at the first market, before any upsert. *)
Example name_not_a_string_fails_run :
  (Odds.runUpdater decimalZ (fun _ => true) Feed.oddsFetchEvents
     Feed.oddsFetchNamedTrue Feed.oddsUpsert Feed.oddsEnv Feed.oddsWorld).2
  = Odds.Failure Odds.NotAFunction
  ∧ Spec.oddsUpserts
      (Odds.trace
         (Odds.runUpdater decimalZ (fun _ => true) Feed.oddsFetchEvents
            Feed.oddsFetchNamedTrue Feed.oddsUpsert Feed.oddsEnv
            Feed.oddsWorld).1) = []
  ∧ Spec.oddsRequests
      (Odds.trace
         (Odds.runUpdater decimalZ (fun _ => true) Feed.oddsFetchEvents
            Feed.oddsFetchNamedTrue Feed.oddsUpsert Feed.oddsEnv
            Feed.oddsWorld).1)
    = [(str "e1", str "player_pass_yds_alternate")].
Proof. vm_compute. repeat split. Qed.

(** A.J. Brown and AJ Brown: two player names, one id. *)
Lemma odds_id_up_to_sanitize_witness :
  ∃ r1 r2,
    Odds.recordOf decimalZ (fun _ => true) Sample.ev (Some 2025%Z) Sample.book
      Sample.mkt (Some Feed.outDotted) = Some r1
    ∧ Odds.recordOf decimalZ (fun _ => true) Sample.ev (Some 2025%Z)
        Sample.book Sample.mkt (Some Feed.outPlain) = Some r2
    ∧ Odds.player_name r1 ≠ Odds.player_name r2
    ∧ Odds.rec_id r1 = Odds.rec_id r2.
Proof.
  eexists _, _. split; [reflexivity|]. split; [reflexivity|].
  split; [discriminate|].
  exact (odds_id_up_to_sanitize decimalZ (fun _ => true)
           Sample.ev (Some 2025%Z) Sample.book Sample.mkt (Some Feed.outDotted) _
           Sample.ev (Some 2025%Z) Sample.book Sample.mkt (Some Feed.outPlain) _
           eq_refl eq_refl eq_refl eq_refl eq_refl eq_refl eq_refl eq_refl).
Defined.

(** ** Lines of the downloaded text *)

Lemma split_app_sep (sep : N) (a r : list N) :
  sep ∉ a → split sep (a ++ sep :: r) = a :: split sep r.
Proof.
  induction a as [|c a IH]; intros Ha; simpl.
  - by rewrite N.eqb_refl.
  - apply not_elem_of_cons in Ha as [Hc Ha].
    rewrite (proj2 (N.eqb_neq c sep)) by done. by rewrite IH.
Qed.

Lemma split_single (sep : N) (s : list N) : sep ∉ s → split sep s = [s].
Proof.
  induction s as [|c s IH]; intros Hs; simpl; [done|].
  apply not_elem_of_cons in Hs as [Hc Hs].
  rewrite (proj2 (N.eqb_neq c sep)) by (intros ->; done). by rewrite IH.
Qed.

Lemma split_snoc (sep c : N) (s : list N) :
  c ≠ sep →
  ∃ init final, split sep s = init ++ [final]
                ∧ split sep (s ++ [c]) = init ++ [final ++ [c]].
Proof.
  intros Hc. induction s as [|a s (init & final & H1 & H2)]; simpl.
  - rewrite (proj2 (N.eqb_neq c sep)) by done. by exists [], [].
  - destruct (a =? sep)%N.
    + exists ([] :: init), final. by rewrite H1, H2.
    + rewrite H1, H2. destruct init as [|h t]; simpl.
      * by exists [], (a :: final).
      * by exists ((a :: h) :: t), final.
Qed.

Lemma whitespace_not_comma_quote (c : N) :
  isWhiteSpace c = true → c ≠ comma ∧ c ≠ quote.
Proof. intros Hc. split; intros ->; vm_compute in Hc; discriminate. Qed.

Lemma trimStart_all_white (s : list N) :
  Forall (fun c => isWhiteSpace c = true) s → trimStart s = [].
Proof. induction 1 as [|c s Hc _ IH]; simpl; [done|]. by rewrite Hc. Qed.

Lemma trimStart_nil_white (s : list N) :
  trimStart s = [] → Forall (fun c => isWhiteSpace c = true) s.
Proof.
  induction s as [|c s IH]; simpl; [constructor|].
  destruct (isWhiteSpace c) eqn:Hc; [|done]. intros Hs. constructor; auto.
Qed.

Lemma trimStart_app (s t : list N) :
  trimStart s ≠ [] → trimStart (s ++ t) = trimStart s ++ t.
Proof.
  induction s as [|c s IH]; simpl; [done|].
  destruct (isWhiteSpace c); [exact IH|done].
Qed.

(** Trailing white space does not change what [trim] returns. *)
Lemma trim_snoc_white (s : list N) (c : N) :
  isWhiteSpace c = true → trim (s ++ [c]) = trim s.
Proof.
  intros Hc. unfold trim.
  destruct (trimStart s) as [|x r] eqn:Hs.
  - apply trimStart_nil_white in Hs.
    rewrite (trimStart_all_white (s ++ [c])); [done|].
    apply Forall_app. split; [done|]. by constructor.
  - rewrite trimStart_app by (rewrite Hs; done). rewrite Hs.
    rewrite rev_app_distr. simpl. by rewrite Hc.
Qed.

Lemma tokenize_snoc_white (line : list N) (c : N) :
  isWhiteSpace c = true → Pbp.tokenize (line ++ [c]) = Pbp.tokenize line.
Proof.
  intros Hc. destruct (whitespace_not_comma_quote c Hc) as [Hcomma Hquote].
  unfold Pbp.tokenize. rewrite foldl_app. simpl.
  set (st := foldl Pbp.scanChar Pbp.scanStart line).
  unfold Pbp.scanChar.
  rewrite (proj2 (N.eqb_neq c quote)), (proj2 (N.eqb_neq c comma)) by done.
  cbn [andb Pbp.values Pbp.current]. by rewrite trim_snoc_white.
Qed.

Lemma parseHeaders_snoc_white (line : list N) (c : N) :
  isWhiteSpace c = true →
  Pbp.parseHeaders (line ++ [c]) = Pbp.parseHeaders line.
Proof.
  intros Hc. destruct (whitespace_not_comma_quote c Hc) as [Hcomma _].
  unfold Pbp.parseHeaders.
  destruct (split_snoc comma c line Hcomma) as (init & final & -> & ->).
  rewrite !map_app. simpl. by rewrite trim_snoc_white.
Qed.

Lemma split_terminated (w : list N) (lines : list (list N)) :
  newline ∉ w → Forall (fun l => newline ∉ l) lines →
  split newline (concat (map (fun l => l ++ w ++ [newline]) lines))
  = map (fun l => l ++ w) lines ++ [[]].
Proof.
  intros Hw. induction 1 as [|l lines Hl _ IH]; simpl; [done|].
  rewrite <- !app_assoc. rewrite (app_assoc l w).
  change ([newline] ++ ?r) with (newline :: r).
  rewrite split_app_sep; [by rewrite IH|].
  rewrite elem_of_app. tauto.
Qed.

Section Lines.
Context `{DateParser}.
Variable cutoffDate : date.

(** X20. The parser of both revisions works on the non-blank lines of the
    text, none of which holds a line feed; it gives up (and the resolver
    moves on to the next source) exactly when there are fewer than two of
    them, so a text without line feed is never parsed, and otherwise it
    counts one processed line per non-blank line after the header. *)
Theorem parse_needs_header_and_data (csvText : list N) :
  Forall (fun l => trim l ≠ [] ∧ newline ∉ l) (Pbp.nonBlankLines csvText)
  ∧ (Pbp.parseCsv cutoffDate csvText = None
     ↔ length (Pbp.nonBlankLines csvText) < 2)
  ∧ (Pbp2.parseCsv cutoffDate csvText = None
     ↔ length (Pbp.nonBlankLines csvText) < 2)
  ∧ (∀ st, Pbp.parseCsv cutoffDate csvText = Some st →
           S (Pbp.totalProcessed st) = length (Pbp.nonBlankLines csvText))
  ∧ (newline ∉ csvText →
     Pbp.parseCsv cutoffDate csvText = None
     ∧ Pbp2.parseCsv cutoffDate csvText = None).
Proof.
  assert (H1 : Pbp.parseCsv cutoffDate csvText = None
               ↔ length (Pbp.nonBlankLines csvText) < 2).
  { unfold Pbp.parseCsv.
    destruct (Pbp.nonBlankLines csvText) as [|h [|l r]]; simpl;
      split; intros; try done; lia. }
  assert (H2 : Pbp2.parseCsv cutoffDate csvText = None
               ↔ length (Pbp.nonBlankLines csvText) < 2).
  { unfold Pbp2.parseCsv.
    destruct (Pbp.nonBlankLines csvText) as [|h [|l r]]; simpl;
      split; intros; try done; lia. }
  split; [|split; [exact H1|split; [exact H2|split]]].
  - apply List.Forall_forall. intros l Hl.
    unfold Pbp.nonBlankLines in Hl.
    apply list_elem_of_In, list_elem_of_filter in Hl as [Hl Hin].
    split; [exact Hl|]. by apply (split_no_sep newline csvText).
  - intros st. unfold Pbp.parseCsv.
    destruct (Pbp.nonBlankLines csvText) as [|h [|l r]]; try done.
    intros [= <-]. rewrite parseLines_counters.
    destruct (parseLine_counters cutoffDate (Pbp.parseHeaders h)
                Pbp.parseStart l) as [-> _].
    simpl. lia.
  - intros Hn.
    assert (length (Pbp.nonBlankLines csvText) < 2).
    { unfold Pbp.nonBlankLines. rewrite (split_single _ _ Hn).
      rewrite filter_cons, filter_nil. case_decide; simpl; lia. }
    rewrite H1, H2. done.
Qed.

Lemma parseLine_snoc_white headers st (line : list N) (c : N) :
  isWhiteSpace c = true →
  Pbp.parseLine cutoffDate headers st (line ++ [c])
  = Pbp.parseLine cutoffDate headers st line.
Proof. intros Hc. unfold Pbp.parseLine. by rewrite tokenize_snoc_white. Qed.

Lemma parseLine2_snoc_white headers st (line : list N) (c : N) :
  isWhiteSpace c = true →
  Pbp2.parseLine cutoffDate headers st (line ++ [c])
  = Pbp2.parseLine cutoffDate headers st line.
Proof. intros Hc. unfold Pbp2.parseLine. by rewrite tokenize_snoc_white. Qed.

Lemma nonBlankLines_terminated (w : list N) (lines : list (list N)) :
  newline ∉ w → Forall (fun c => isWhiteSpace c = true) w →
  Forall (fun l => newline ∉ l) lines →
  Pbp.nonBlankLines (concat (map (fun l => l ++ w ++ [newline]) lines))
  = map (fun l => l ++ w) (filter (fun l => trim l ≠ []) lines).
Proof.
  intros Hn Hw Hl. unfold Pbp.nonBlankLines.
  rewrite split_terminated by done.
  rewrite filter_app, filter_cons, filter_nil.
  rewrite decide_False by (intros Hf; by apply Hf). rewrite app_nil_r.
  assert (Ht : ∀ l, trim (l ++ w) = trim l).
  { clear -Hw. induction w as [|c w IH] using rev_ind; intros l.
    - by rewrite app_nil_r.
    - apply Forall_app in Hw as [Hw Hc]. apply Forall_inv in Hc.
      by rewrite app_assoc, trim_snoc_white, IH. }
  clear Hl. induction lines as [|l lines IH]; [done|].
  cbn [map]. rewrite !filter_cons, Ht. case_decide; [|exact IH].
  cbn [map]. by rewrite IH.
Qed.

(** X21. A feed whose lines end in carriage return and line feed parses
    to the same rows and counters, in both revisions, as the same lines
    ending in a line feed alone: the carriage return left at the end of
    each line by the split is trimmed away with the last token and the
    last header name. *)
Theorem crlf_feed_parses_alike (lines : list (list N)) :
  Forall (fun l => newline ∉ l) lines →
  Pbp.parseCsv cutoffDate (concat (map (fun l => l ++ [13; 10]%N) lines))
  = Pbp.parseCsv cutoffDate (concat (map (fun l => l ++ [10]%N) lines))
  ∧ Pbp2.parseCsv cutoffDate (concat (map (fun l => l ++ [13; 10]%N) lines))
    = Pbp2.parseCsv cutoffDate (concat (map (fun l => l ++ [10]%N) lines)).
Proof.
  intros Hl.
  change (concat (map (fun l => l ++ [13; 10]%N) lines))
    with (concat (map (fun l => l ++ [13%N] ++ [newline]) lines)).
  change (concat (map (fun l => l ++ [10]%N) lines))
    with (concat (map (fun l => l ++ [] ++ [newline]) lines)).
  unfold Pbp.parseCsv, Pbp2.parseCsv.
  rewrite (nonBlankLines_terminated [13%N] lines),
    (nonBlankLines_terminated [] lines);
    [|apply not_elem_of_nil|constructor|done
     |by intros ?%list_elem_of_singleton|by repeat constructor|done].
  destruct (filter (fun l => trim l ≠ []) lines) as [|h [|l r]];
    [done|by cbn|].
  rewrite !(map_cons _ h (l :: r)), app_nil_r.
  rewrite (parseHeaders_snoc_white h 13) by reflexivity.
  set (hs := Pbp.parseHeaders h). clearbody hs.
  split; f_equal.
  - generalize Pbp.parseStart. generalize (l :: r). clear.
    intros ls. induction ls as [|x ls IH]; intros st; simpl; [done|].
    rewrite app_nil_r, parseLine_snoc_white by reflexivity. apply IH.
  - generalize ({| Pbp2.pbpData := []; Pbp2.totalProcessed := 0;
                   Pbp2.validPlays := 0 |}).
    generalize (l :: r). clear.
    intros ls. induction ls as [|x ls IH]; intros st; simpl; [done|].
    rewrite app_nil_r, parseLine2_snoc_white by reflexivity. apply IH.
Qed.

End Lines.

(** A text without line feed, such as the body of an error page. *)
Lemma parse_needs_header_and_data_witness :
  Pbp.parseCsv (H := iso_parser) None (str "Not Found") = None.
Proof.
  refine (proj1 (proj2 (proj2 (proj2 (proj2
            (parse_needs_header_and_data (H := iso_parser) None
               (str "Not Found"))))) _)).
  apply (bool_decide_unpack _). vm_compute. exact I.
Defined.

(** A header and one play, in both line endings. *)
Lemma crlf_feed_parses_alike_witness :
  Pbp.parseCsv (H := iso_parser) None
    (concat (map (fun l => l ++ [13; 10]%N)
               [str "play_id,game_id"; str "7,2025_09_DAL_PHI"]))
  = Pbp.parseCsv (H := iso_parser) None
      (concat (map (fun l => l ++ [10]%N)
                 [str "play_id,game_id"; str "7,2025_09_DAL_PHI"])).
Proof.
  refine (proj1 (crlf_feed_parses_alike (H := iso_parser) None
                   [str "play_id,game_id"; str "7,2025_09_DAL_PHI"] _)).
  repeat constructor; apply (bool_decide_unpack _); vm_compute; exact I.
Defined.

(** ** Helpers of the odds updater *)

(** X22. The table of prop types has an entry of its own for each of
    the twelve markets the updater requests, with twelve different prop
    types, and for no other key.  Any other market key is returned as it
    is, unless it names a property that the table inherits from
    [Object.prototype]: the lookup then gives that inherited function or
    object, not the key. *)
Theorem market_prop_types :
  (∀ k, k ∉ Odds.ALTERNATE_MARKETS →
        Odds.mapMarketToPropType k
        = if bool_decide (k ∈ objectPrototypeNames)
          then Odds.PropInherited k else Odds.PropText k)
  ∧ Forall (fun m => ∃ s, Odds.mapMarketToPropType m = Odds.PropText s
                          ∧ s ≠ m)
      Odds.ALTERNATE_MARKETS
  ∧ NoDup (map Odds.mapMarketToPropType Odds.ALTERNATE_MARKETS).
Proof.
  split; [|split].
  - intros k Hk. unfold Odds.ALTERNATE_MARKETS in Hk.
    repeat (apply not_elem_of_cons in Hk as [? Hk]).
    unfold Odds.mapMarketToPropType. cbn [List.find fst snd].
    by rewrite !bool_decide_eq_false_2 by congruence.
  - unfold Odds.ALTERNATE_MARKETS.
    repeat (constructor; [eexists; split; [vm_compute; reflexivity|discriminate]|]).
    constructor.
  - apply (bool_decide_unpack _). vm_compute. exact I.
Qed.

(** A key of another market of the API, and a key that names an
    inherited property. *)
Lemma market_prop_types_witness :
  Odds.mapMarketToPropType (str "player_anytime_td")
  = Odds.PropText (str "player_anytime_td")
  ∧ Odds.mapMarketToPropType (str "constructor")
    = Odds.PropInherited (str "constructor").
Proof.
  split.
  - refine (eq_trans (proj1 market_prop_types (str "player_anytime_td") _) _).
    + apply (bool_decide_unpack _). vm_compute. exact I.
    + vm_compute. reflexivity.
  - refine (eq_trans (proj1 market_prop_types (str "constructor") _) _).
    + apply (bool_decide_unpack _). vm_compute. exact I.
    + vm_compute. reflexivity.
Defined.

Lemma stripPrefix_app (p s : list N) : stripPrefix p (p ++ s) = Some s.
Proof.
  induction p as [|a p IH]; simpl; [by destruct s|].
  by rewrite N.eqb_refl.
Qed.

Lemma includes_unfold (needle s : list N) :
  Odds.includes needle s
  = match stripPrefix needle s with
    | Some _ => true
    | None => match s with [] => false | _ :: r => Odds.includes needle r end
    end.
Proof. by destruct s. Qed.

Lemma includes_app (needle a b : list N) :
  Odds.includes needle (a ++ needle ++ b) = true.
Proof.
  induction a as [|c a IH].
  - rewrite includes_unfold. simpl app. by rewrite stripPrefix_app.
  - rewrite includes_unfold. destruct (stripPrefix _ _); [done|].
    simpl app. exact IH.
Qed.

Lemma toLowerCase_app (a b : list N) :
  Odds.toLowerCase (a ++ b) = Odds.toLowerCase a ++ Odds.toLowerCase b.
Proof. unfold Odds.toLowerCase. apply map_app. Qed.

(** X23. The bet type is read off the outcome name without regard to
    the case of the letters A to Z: a name that holds [over] anywhere, in
    any case, is an over, also when it holds [under] as well, and names
    that differ in the case of those letters only get the same type.  A
    missing or empty name is unknown.  The function throws exactly on a
    name that is truthy and not a string, and gives over, under or
    unknown on every other. *)
Theorem bet_type_from_outcome_name :
  (∀ a w b, Odds.toLowerCase w = str "over" →
            Odds.determineBetType (VStr (a ++ w ++ b)) = Some (str "over"))
  ∧ (∀ s s', Odds.toLowerCase s = Odds.toLowerCase s' →
             Odds.determineBetType (VStr s) = Odds.determineBetType (VStr s'))
  ∧ (∀ name, truthy name = false →
             Odds.determineBetType name = Some (str "unknown"))
  ∧ (∀ name, Odds.determineBetType name = None
             ↔ truthy name = true ∧ ∀ s, name ≠ VStr s)
  ∧ (∀ name bet, Odds.determineBetType name = Some bet →
                 bet ∈ [str "over"; str "under"; str "unknown"]).
Proof.
  assert (Hstr : ∀ s, or_else (VStr s) (VStr []) = VStr s).
  { intros s. unfold or_else. by destruct s. }
  split; [|split; [|split; [|split]]].
  - intros a w b Hw. unfold Odds.determineBetType.
    rewrite Hstr. rewrite !toLowerCase_app, Hw. by rewrite includes_app.
  - intros s s' Hs. unfold Odds.determineBetType.
    rewrite !Hstr. by rewrite Hs.
  - intros name Hn. unfold Odds.determineBetType, or_else. rewrite Hn.
    reflexivity.
  - intros name. unfold Odds.determineBetType, or_else.
    destruct name as [| |[|]|s]; simpl.
    + split; [done|]. by intros [? _].
    + split; [done|]. by intros [? _].
    + split; [done|]. intros _. by split.
    + split; [done|]. by intros [? _].
    + destruct (bool_decide (s = [])); simpl.
      * split; [done|]. by intros [? _].
      * split; [done|]. intros [_ Hs]. by destruct (Hs s).
  - intros name bet. unfold Odds.determineBetType.
    destruct (or_else name (VStr [])); try done.
    intros [= <-]. repeat case_match; set_solver.
Qed.

(** The name [Over] with a capital, a missing name, and the name true. *)
Lemma bet_type_from_outcome_name_witness :
  Odds.determineBetType (VStr (str "Over")) = Some (str "over")
  ∧ Odds.determineBetType VUndefined = Some (str "unknown")
  ∧ Odds.determineBetType (VBool true) = None.
Proof.
  split; [|split].
  - exact (proj1 bet_type_from_outcome_name [] (str "Over") [] eq_refl).
  - exact (proj1 (proj2 (proj2 bet_type_from_outcome_name)) VUndefined
             eq_refl).
  - apply (proj1 (proj2 (proj2 (proj2 bet_type_from_outcome_name)))
             (VBool true)).
    split; [reflexivity|]. intros s Hs. discriminate Hs.
Defined.

Lemma replaceWhitespaceRuns_length (s : list N) : ∀ inRun,
  length (Odds.replaceWhitespaceRuns inRun s) ≤ length s.
Proof.
  induction s as [|c s IH]; intros inRun; simpl; [done|].
  pose proof (IH true). pose proof (IH false).
  destruct (isWhiteSpace c); [destruct inRun|]; simpl; lia.
Qed.

Lemma joinWith_snoc (sep : N) (parts : list (list N)) (p : list N) :
  parts ≠ [] →
  Odds.joinWith sep (parts ++ [p]) = Odds.joinWith sep parts ++ sep :: p.
Proof.
  induction parts as [|a [|b parts] IH]; intros Hne; [done|done|].
  specialize (IH ltac:(done)).
  change (Odds.joinWith sep ((a :: b :: parts) ++ [p]))
    with (a ++ sep :: Odds.joinWith sep ((b :: parts) ++ [p])).
  change (Odds.joinWith sep (a :: b :: parts))
    with (a ++ sep :: Odds.joinWith sep (b :: parts)).
  by rewrite IH, <- app_assoc.
Qed.

Section OddsIds.
Context {num : Type} (numToString : num → list N) (numIsFinite : num → bool).

(** X24. [sanitize] never lengthens a text and leaves it as it is exactly
    when it is made of letters, digits, underscores and hyphens.  It
    takes the text of any value: the record of an outcome without a name
    gets an id that ends in [_undefined]. *)
Theorem sanitize_fixes_ids :
  (∀ v, Odds.sanitize v = String_of v
        ↔ Forall (fun c => Odds.isIdChar c = true) (String_of v))
  ∧ (∀ v, length (Odds.sanitize v) ≤ length (String_of v))
  ∧ (∀ ev sy book mkt out r,
       Odds.recordOf numToString numIsFinite ev sy book mkt out = Some r →
       Odds.outcome_name r = VUndefined →
       ∃ pre, Odds.rec_id r = pre ++ str "_undefined").
Proof.
  split; [|split].
  - intros v. split.
    + intros <-. apply sanitize_alphabet.
    + intros Hv. unfold Odds.sanitize.
      rewrite replaceWhitespaceRuns_id by done. by apply filter_idChar_id.
  - intros v. unfold Odds.sanitize.
    pose proof (List.filter_length_le Odds.isIdChar
                  (Odds.replaceWhitespaceRuns false (String_of v))).
    pose proof (replaceWhitespaceRuns_length (String_of v) false). lia.
  - intros ev sy book mkt out r
      (o & pt & bet & -> & _ & _ & _ & ->)%recordOf_inv Hname.
    cbn [Odds.outcome_name] in Hname. cbn [Odds.rec_id].
    unfold Odds.idParts. rewrite Hname.
    exists (Odds.joinWith underscore
              [Odds.id ev; Odds.key book; Odds.market_key_of mkt;
               Odds.sanitize (Odds.description o); numToString pt]).
    change (str "_undefined") with (underscore :: Odds.sanitize VUndefined).
    by rewrite <- joinWith_snoc.
Qed.

End OddsIds.

(** An outcome with a description and a point but no name. *)
Lemma sanitize_fixes_ids_witness :
  ∃ r, Odds.recordOf decimalZ (fun _ => true) Sample.ev (Some 2025%Z)
         Sample.book Sample.mkt
         (Some {| Odds.name := VUndefined;
                  Odds.description := VStr (str "Josh Allen");
                  Odds.point := Some 250%Z; Odds.price := None |}) = Some r
       ∧ ∃ pre, Odds.rec_id r = pre ++ str "_undefined".
Proof.
  eexists. split; [reflexivity|].
  exact (proj2 (proj2 (sanitize_fixes_ids decimalZ (fun _ => true)))
           Sample.ev (Some 2025%Z) Sample.book Sample.mkt
           (Some {| Odds.name := VUndefined;
                    Odds.description := VStr (str "Josh Allen");
                    Odds.point := Some 250%Z; Odds.price := None |})
           _ eq_refl eq_refl).
Defined.

(** ** The calendar of the odds updater *)

Lemma DayFromYear_mono (y1 y2 : Z) :
  (y1 ≤ y2 → DayFromYear y1 ≤ DayFromYear y2)%Z.
Proof. unfold DayFromYear. intros Hy. Z.div_mod_to_equations. lia. Qed.

Lemma YearFromTime_unique (t y : Z) :
  (DayFromYear y ≤ Day t < DayFromYear (y + 1))%Z → YearFromTime t = y.
Proof.
  intros [Hlo Hhi]. pose proof (YearFromTime_spec t) as [Glo Ghi].
  destruct (Z.lt_trichotomy (YearFromTime t) y) as [Hlt|[Heq|Hgt]]; [|done|].
  - pose proof (DayFromYear_mono (YearFromTime t + 1) y ltac:(lia)). lia.
  - pose proof (DayFromYear_mono (y + 1) (YearFromTime t) ltac:(lia)). lia.
Qed.

(** X25. In a run that passes the season test, every event that the
    window admits is stamped with the calendar year of the run as its
    season year: the run is between September and December, and the four
    days of the window reach at most into the first days of January,
    which still count for the season of the year before. *)
Theorem live_events_share_season_year `{DateParser} (now : Z)
    (commence_time : value) :
  (0 ≤ now ≤ maxTime - 500 * msPerDay)%Z →
  Odds.isInSeason now = true →
  Odds.inWindow (Odds.getUpcomingGamesWindow now) commence_time = true →
  Odds.getSeasonYear (Date_of commence_time) = Some (YearFromTime now).
Proof.
  intros Hnow Hs Hw.
  apply (isInSeason_iff_month now Hnow) in Hs.
  rewrite getUpcomingGamesWindow_spec in Hw
    by (unfold maxTime, msPerDay in *; lia).
  unfold Odds.inWindow in Hw. cbn [Odds.start Odds.end_] in Hw.
  destruct (Date_of commence_time) as [t|]; [|done].
  cbn in Hw. apply andb_true_iff in Hw as [Hlo%Z.leb_le Hhi%Z.ltb_lt].
  unfold Odds.getSeasonYear. f_equal.
  pose proof (YearFromTime_spec now) as [Ylo Yhi].
  pose proof (leapDays_range (YearFromTime now)) as Hleap.
  unfold MonthFromTime in Hs.
  rewrite (monthOfDay_september _ _ Hleap) in Hs. unfold DayWithinYear in Hs.
  set (yr := YearFromTime now) in *.
  assert (Hday : (Day now ≤ Day t ≤ Day now + 3)%Z).
  { unfold Day, msPerDay in *. Z.div_mod_to_equations. lia. }
  destruct (Z.ltb_spec (Day t) (DayFromYear (yr + 1))) as [Hin|Hout].
  - assert (Hy : YearFromTime t = yr) by (apply YearFromTime_unique; lia).
    assert (Hm : (8 ≤ MonthFromTime t)%Z).
    { unfold MonthFromTime, DayWithinYear. rewrite Hy.
      apply (monthOfDay_september _ _ Hleap). lia. }
    rewrite (proj2 (Z.leb_le 8 (MonthFromTime t)) Hm). exact Hy.
  - pose proof (DayFromYear_next (yr + 1)) as Hnext.
    replace (yr + 1 + 1)%Z with (yr + 2)%Z in Hnext by lia.
    assert (Hy : YearFromTime t = (yr + 1)%Z).
    { apply YearFromTime_unique.
      replace (yr + 1 + 1)%Z with (yr + 2)%Z by lia. lia. }
    assert (Hm : MonthFromTime t = 0%Z).
    { unfold MonthFromTime, DayWithinYear. rewrite Hy. unfold monthOfDay.
      rewrite (proj2 (Z.ltb_lt _ 31)) by lia. reflexivity. }
    rewrite Hm, Hy. simpl. lia.
Qed.

(** The game of 2 November 2025, 18:00 UTC, in the run of that day. *)
Lemma live_events_share_season_year_witness :
  Odds.getSeasonYear
    (Date_of (H := iso_parser) (VStr (str "2025-11-02T18:00:00Z")))
  = Some (YearFromTime Sample.inSeasonTime).
Proof.
  apply (live_events_share_season_year (H := iso_parser) Sample.inSeasonTime
           (VStr (str "2025-11-02T18:00:00Z"))).
  - vm_compute. split; discriminate.
  - vm_compute. reflexivity.
  - vm_compute. reflexivity.
Defined.

(** X26. How far the window looks ahead depends on the hour of the run:
    it is aligned on UTC days, so every event of the UTC day of the run
    is admitted, also one that has already started, every event in the
    three days that follow the run is admitted, and no event four days or
    more after the run, or a day or more before it, is. *)
Theorem odds_window_look_ahead `{DateParser} (now t : Z)
    (commence_time : value) :
  (0 ≤ now ≤ maxTime - 4 * msPerDay)%Z →
  Date_of commence_time = Some t →
  (Day t = Day now →
   Odds.inWindow (Odds.getUpcomingGamesWindow now) commence_time = true)
  ∧ ((now ≤ t ≤ now + 3 * msPerDay)%Z →
     Odds.inWindow (Odds.getUpcomingGamesWindow now) commence_time = true)
  ∧ ((now + 4 * msPerDay ≤ t)%Z →
     Odds.inWindow (Odds.getUpcomingGamesWindow now) commence_time = false)
  ∧ ((t ≤ now - msPerDay)%Z →
     Odds.inWindow (Odds.getUpcomingGamesWindow now) commence_time = false).
Proof.
  intros Hnow Ht. rewrite getUpcomingGamesWindow_spec by done.
  unfold Odds.inWindow. rewrite Ht. cbn.
  unfold Day, msPerDay in *.
  repeat split; intros Hc.
  - apply andb_true_iff. rewrite Z.leb_le, Z.ltb_lt.
    Z.div_mod_to_equations. lia.
  - apply andb_true_iff. rewrite Z.leb_le, Z.ltb_lt.
    Z.div_mod_to_equations. lia.
  - apply andb_false_iff. rewrite Z.leb_gt, Z.ltb_ge.
    Z.div_mod_to_equations. lia.
  - apply andb_false_iff. rewrite Z.leb_gt, Z.ltb_ge.
    Z.div_mod_to_equations. lia.
Qed.

(** The run of 2 November 2025, 18:30 UTC, and the game that kicked off
    half an hour before it. *)
Lemma odds_window_look_ahead_witness :
  Odds.inWindow (H := iso_parser)
    (Odds.getUpcomingGamesWindow Sample.inSeasonTime)
    (VStr (str "2025-11-02T18:00:00Z")) = true.
Proof.
  refine (proj1 (odds_window_look_ahead (H := iso_parser) Sample.inSeasonTime
                   1762106400000%Z (VStr (str "2025-11-02T18:00:00Z")) _ _) _).
  - vm_compute. split; discriminate.
  - vm_compute. reflexivity.
  - vm_compute. reflexivity.
Defined.

(** ** The season window of the later revision *)

(** X27. With ISO dates read as the engine reads them, the season test
    of the later revision holds exactly from 4 September 2025, 00:00 UTC,
    to 15 February 2026, 00:00 UTC, both included, whatever the year of
    the run: a live run after the first instant of 15 February 2026 is
    skipped. *)
Theorem later_revision_season_is_fixed (e : Pbp.env) :
  (Pbp2.inNflSeason (H := iso_parser) e = true
   ↔ (1756944000000 ≤ Pbp.now e ≤ 1771113600000)%Z)
  ∧ ((1771113600000 < Pbp.now e)%Z → Pbp.testMode e = false →
     ∀ db (upsert : db → _ → _ → _ → db * Pbp.response) fetch w,
       Pbp2.runUpdater (H := iso_parser) upsert e fetch w
       = Some (w, Pbp2.Skipped)).
Proof.
  assert (Hiff : Pbp2.inNflSeason (H := iso_parser) e = true
                 ↔ (1756944000000 ≤ Pbp.now e ≤ 1771113600000)%Z).
  { unfold Pbp2.inNflSeason.
    change (Pbp2.nflSeasonStart (H := iso_parser)) with (Some 1756944000000%Z).
    change (Pbp2.nflSeasonEnd (H := iso_parser)) with (Some 1771113600000%Z).
    unfold date_le, date_ge. rewrite andb_true_iff, !Z.leb_le. lia. }
  split; [exact Hiff|].
  intros Hlate Hlive db upsert fetch w. unfold Pbp2.runUpdater.
  destruct Hiff as [Hi _]. destruct (Pbp2.inNflSeason e).
  - specialize (Hi eq_refl). lia.
  - by rewrite Hlive.
Qed.

(** A live run on 1 September 2026. *)
Lemma later_revision_season_is_fixed_witness :
  Pbp2.runUpdater (H := iso_parser) Sample.flakyUpsert
    {| Pbp.testMode := false; Pbp.now := 1788220800000; Pbp.localTZA := 0 |}
    Sample.noFetch Sample.freshWorld
  = Some (Sample.freshWorld, Pbp2.Skipped).
Proof.
  refine (proj2 (later_revision_season_is_fixed
                   {| Pbp.testMode := false; Pbp.now := 1788220800000;
                      Pbp.localTZA := 0 |})
            _ eq_refl nat Sample.flakyUpsert Sample.noFetch Sample.freshWorld).
  reflexivity.
Defined.

(** ** Numbers in the two revisions *)

(** X28. The later revision converts numeric cells with [Number], the
    first with [parseFloat].  On a trimmed cell that does not start with
    a radix prefix ([0x], [0o], [0b]), whatever number the later revision
    stores, the first revision stores too, with [safeNumeric] and with
    [safeDouble]: the strict conversion only rejects more. *)
Theorem strict_number_is_lenient_number (cell : list N) (n : jsnum) :
  trim cell = cell →
  match cell with
  | c :: x :: _ =>
      (c =? 48)%N
      && bool_decide (x ∈ [120; 88; 111; 79; 98; 66]%N) = false
  | _ => True
  end →
  Pbp2.safeNumeric (VStr cell) = Pbp.TNum n →
  Pbp.safeNumeric (VStr cell) = Pbp.TNum n
  ∧ Pbp.safeDouble (VStr cell) = Pbp.TNum n.
Proof.
  intros Htrim Hradix.
  unfold Pbp2.safeNumeric, Pbp.safeNumeric, Pbp.safeDouble.
  destruct (Pbp.isSentinel (VStr cell)) eqn:Hsent; [done|].
  assert (Hnum : Number_of (VStr cell) = Some n →
                 parseFloat (VStr cell) = Some n).
  { unfold Number_of, stringToNumber, parseFloat. cbn [String_of].
    rewrite Htrim.
    assert (Hstart : trimStart cell = cell).
    { apply trimStart_fixed. rewrite <- Htrim. apply trim_ends. }
    rewrite Hstart.
    assert (Hdec : match scanDecimal cell with
                   | Some (m, []) => Some m
                   | _ => None
                   end = Some n → fst <$> scanDecimal cell = Some n).
    { by destruct (scanDecimal cell) as [[m [|? ?]]|]. }
    destruct cell as [|c [|x r]]; [|exact Hdec|].
    - cbn in Hsent. discriminate Hsent.
    - destruct (c =? 48)%N eqn:Hc; cbn [negb]; [|exact Hdec].
      cbn [andb] in Hradix. apply bool_decide_eq_false in Hradix.
      assert (Hx : ∀ k, k ∈ [120; 88; 111; 79; 98; 66]%N → (x =? k)%N = false).
      { intros k Hk. apply N.eqb_neq. by intros ->. }
      rewrite !Hx by set_solver. cbn [orb]. exact Hdec. }
  destruct (Number_of (VStr cell)) as [m|] eqn:Hm; [|done].
  intros [= ->]. by rewrite (Hnum eq_refl).
Qed.

(** The cell [-7.5]. *)
Lemma strict_number_is_lenient_number_witness :
  Pbp.safeNumeric (VStr (str "-7.5")) = Pbp.TNum (NumDec true 75 (-1)).
Proof.
  exact (proj1 (strict_number_is_lenient_number (str "-7.5")
                  (NumDec true 75 (-1)) eq_refl eq_refl eq_refl)).
Defined.
